(** * Direct3D-S2: the dense shape VAE ([direct3d_s2/models/autoencoders/dense_vae.py])

    A shallow embedding of the module: the normalization selector, the
    residual and resampling blocks, the sparse-structure encoder and decoder,
    and the VAE wrapper with its two mesh-extraction paths.

    Conventions of the embedding.
    - Tensors are a shape with row-major data.  Values are exact rationals:
      rounding, NaN and infinities of IEEE arithmetic are outside the model.
    - A Python exception is a value of [exn]; code that can raise returns a
      [result].
    - Constructors draw their initial parameters from the generator of the
      framework, which is threaded explicitly ([Ctor]).
    - The parameter precision ([dtype]) is a tag on each layer.  It records
      what the conversion methods did; the forward pass does not read it. *)

From Stdlib Require Import String List Bool Arith ZArith QArith Qabs Lia Lqa.
Import ListNotations.

Local Open Scope nat_scope.

(** ** Python exceptions and results *)

Inductive exn : Type :=
| ValueError_InvalidNormType (norm_type : string)
    (* norm_layer: raise ValueError(f"Invalid norm type {norm_type}") *)
| ValueError_GroupNorm
    (* torch.nn.GroupNorm: num_channels must be divisible by num_groups *)
| ValueError_MarchingCubes
    (* skimage.measure.marching_cubes rejects its input *)
| AssertionError (msg : string)
| IndexError
| KeyError (key : string)
| RuntimeError (msg : string).

Inductive result (A : Type) : Type :=
| Ok (a : A)
| Raise (e : exn).

Arguments Ok {A} a.
Arguments Raise {A} e.

Definition rbind {A B : Type} (m : result A) (k : A -> result B) : result B :=
  match m with
  | Ok a => k a
  | Raise e => Raise e
  end.

Declare Scope py_scope.
Delimit Scope py_scope with py.
Notation "x <- m ;; k" := (rbind m (fun x => k))
  (at level 61, m at next level, right associativity) : py_scope.
Notation "' p <- m ;; k" := (rbind m (fun x => match x with p => k end))
  (at level 61, p pattern, m at next level, right associativity) : py_scope.

Definition raises {A : Type} (r : result A) : Prop :=
  exists e, r = Raise e.

(** [[f(a) for a in l]] where [f] may raise: the first exception wins. *)
Fixpoint mapM {A B : Type} (f : A -> result B) (l : list A) : result (list B) :=
  match l with
  | [] => Ok []
  | a :: l' =>
      match f a with
      | Raise e => Raise e
      | Ok b =>
          match mapM f l' with
          | Raise e => Raise e
          | Ok bs => Ok (b :: bs)
          end
      end
  end.

(** ** The random generator and constructors

    [torch] initialises the parameters of a fresh layer from its global
    generator.  The generator is the stream of values it will hand out. *)

Definition rng : Type := nat -> Q.

Definition draw (n : nat) (g : rng) : list Q * rng :=
  (map g (seq 0 n), fun i => g (i + n)).

(** A constructor runs in the generator state and may raise. *)
Definition Ctor (A : Type) : Type := rng -> result (A * rng).

Definition cret {A : Type} (a : A) : Ctor A := fun g => Ok (a, g).

Definition craise {A : Type} (e : exn) : Ctor A := fun _ => Raise e.

Definition cbind {A B : Type} (m : Ctor A) (k : A -> Ctor B) : Ctor B :=
  fun g =>
    match m g with
    | Ok (a, g') => k a g'
    | Raise e => Raise e
    end.

Declare Scope ctor_scope.
Delimit Scope ctor_scope with ctor.
Notation "x <~ m ;; k" := (cbind m (fun x => k))
  (at level 61, m at next level, right associativity) : ctor_scope.

(** [[mk() for _ in range(n)]] *)
Fixpoint replicateC {A : Type} (n : nat) (mk : Ctor A) : Ctor (list A) :=
  match n with
  | O => cret []
  | S n' => (a <~ mk ;; l <~ replicateC n' mk ;; cret (a :: l))%ctor
  end.

(** ** Tensors *)

Record tensor : Type := mkTensor {
  shape : list nat;
  data : list Q
}.

Definition numel (s : list nat) : nat := fold_right Nat.mul 1 s.

(** A tensor holds exactly as many values as its shape asks for. *)
Definition tensor_wf (t : tensor) : Prop :=
  length (data t) = numel (shape t).


(** Row-major offset of a multi-index. *)
Fixpoint ravel (s idx : list nat) : nat :=
  match s, idx with
  | _ :: s', i :: idx' => i * numel s' + ravel s' idx'
  | _, _ => 0
  end.

(** All multi-indices of a shape, in row-major order. *)
Fixpoint indices (s : list nat) : list (list nat) :=
  match s with
  | [] => [[]]
  | n :: s' => flat_map (fun i => map (cons i) (indices s')) (seq 0 n)
  end.

Definition tget (t : tensor) (idx : list nat) : Q :=
  nth (ravel (shape t) idx) (data t) 0%Q.

Definition tmap (f : Q -> Q) (t : tensor) : tensor :=
  mkTensor (shape t) (map f (data t)).

(** [len(x)] *)
Definition tlen (t : tensor) : nat := hd 0 (shape t).

(** [x[i]] for [0 <= i < len(x)] *)
Definition titem (t : tensor) (i : nat) : tensor :=
  let s := tl (shape t) in
  mkTensor s (firstn (numel s) (skipn (i * numel s) (data t))).

(** [x.squeeze(0)] *)
Definition squeeze0 (t : tensor) : tensor :=
  match shape t with
  | 1 :: s => mkTensor s (data t)
  | _ => t
  end.

(** [x.unsqueeze(0)] *)
Definition unsqueeze0 (t : tensor) : tensor :=
  mkTensor (1 :: shape t) (data t).

(** [(x >= threshold).float()] *)
Definition ge_float (threshold : Q) (t : tensor) : tensor :=
  tmap (fun v => if Qle_bool threshold v then 1%Q else 0%Q) t.

(** [x.nonzero()]: the multi-indices of the non-zero entries, row-major. *)
Definition nonzero (t : tensor) : list (list nat) :=
  filter (fun idx => negb (Qeq_bool (tget t idx) 0)) (indices (shape t)).

(** Arithmetic on entries.  The results are kept in lowest terms, which does
    not change their value. *)
Definition qadd (a b : Q) : Q := Qred (a + b).
Definition qmul (a b : Q) : Q := Qred (a * b).
Definition qdiv (a b : Q) : Q := Qred (a / b).

(** [a + b] for operands of one shape.  Broadcasting of unequal shapes is
    not modelled: the blocks below only add tensors of equal shape. *)
Definition tensor_add (a b : tensor) : result tensor :=
  if list_eq_dec Nat.eq_dec (shape a) (shape b)
  then Ok (mkTensor (shape a) (map (fun p => qadd (fst p) (snd p)) (combine (data a) (data b))))
  else Raise (RuntimeError "add: shapes differ").

(** [sum] of a list of values. *)
Definition Qsum (l : list Q) : Q := fold_right qadd 0%Q l.

(** ** Parameters and their precision *)

Inductive dtype : Type := float16 | float32.

(** The classes of the layers that own parameters. *)
Inductive layer_class : Type :=
| cls_Conv3d
| cls_GroupNorm32
| cls_ChannelLayerNorm32.

(** ** What the module imports

    The activation functions of [torch] are transcendental and the two
    normalization layers live in [modules/norm.py], which is not part of the
    sources at hand; they are operations of the numeric backend.  The same
    holds for [skimage.measure.marching_cubes], for the posterior of
    [distributions.py] and for the table of layer classes that
    [modules/utils.py] casts. *)

Record NormLayer : Type := mkNorm {
  norm_class : layer_class;
  num_groups : nat;
  num_channels : nat;
  norm_dtype : dtype
}.

Class Numerics : Type := {
  (** [F.silu] on one entry *)
  silu : Q -> Q;
  (** [torch.sigmoid] on one entry *)
  sigmoid : Q -> Q;
  (** the forward pass of [GroupNorm32] and [ChannelLayerNorm32] *)
  norm_forward : NormLayer -> tensor -> result tensor
}.

(** A normalization layer accepts every 5-axis input with its channel count
    and returns a tensor of the same shape. *)
Definition norm_keeps_shape `{Numerics} : Prop :=
  forall (n : NormLayer) (x : tensor) (B D H W : nat),
    shape x = [B; num_channels n; D; H; W] ->
    exists y, norm_forward n x = Ok y /\ shape y = shape x.

(** ** [torch.nn.Conv3d] *)

Record Conv3d : Type := mkConv3d {
  conv_in : nat;
  conv_out : nat;
  kernel_size : nat;
  stride : nat;
  padding : nat;
  weight : tensor;      (* [out, in, k, k, k] *)
  bias : tensor;        (* [out] *)
  conv_dtype : dtype
}.

(** [nn.Conv3d(cin, cout, k, stride=s, padding=p)]: weight and bias come from
    the generator, in float32. *)
Definition nn_Conv3d (cin cout k s p : nat) : Ctor Conv3d :=
  fun g =>
    let wshape := [cout; cin; k; k; k] in
    let (w, g1) := draw (numel wshape) g in
    let (b, g2) := draw cout g1 in
    Ok (mkConv3d cin cout k s p (mkTensor wshape w) (mkTensor [cout] b) float32, g2).

(** Size of one spatial axis after a convolution or a pooling window. *)
Definition conv_out_size (n k s p : nat) : nat := (n + 2 * p - k) / s + 1.

(** Entry of the zero-padded input; [d], [h], [w] count from the padded border. *)
Definition padded_get (x : tensor) (p b c d h w : nat) : Q :=
  match shape x with
  | [_; _; D; H; W] =>
      if (p <=? d) && (d <? D + p) && (p <=? h) && (h <? H + p)
         && (p <=? w) && (w <? W + p)
      then tget x [b; c; d - p; h - p; w - p]
      else 0%Q
  | _ => 0%Q
  end.

Definition conv3d_entry (c : Conv3d) (x : tensor) (idx : list nat) : Q :=
  match idx with
  | [b; o; d; h; w] =>
      let s := stride c in
      qadd (tget (bias c) [o])
        (Qsum (map (fun kidx =>
                      match kidx with
                      | [ci; kd; kh; kw] =>
                          qmul (tget (weight c) [o; ci; kd; kh; kw])
                            (padded_get x (padding c) b ci
                               (d * s + kd) (h * s + kh) (w * s + kw))
                      | _ => 0%Q
                      end)
                   (indices [conv_in c; kernel_size c; kernel_size c; kernel_size c])))
  | _ => 0%Q
  end.

(** The forward pass of a [Conv3d] on a batched input [B, C, D, H, W]. *)
Definition conv3d (c : Conv3d) (x : tensor) : result tensor :=
  match shape x with
  | [B; C; D; H; W] =>
      let k := kernel_size c in
      let s := stride c in
      let p := padding c in
      if negb (C =? conv_in c) then Raise (RuntimeError "conv3d: channel mismatch")
      else if s =? 0 then Raise (RuntimeError "conv3d: non-positive stride")
      else if (D + 2 * p <? k) || (H + 2 * p <? k) || (W + 2 * p <? k)
      then Raise (RuntimeError "conv3d: kernel larger than padded input")
      else
        let oshape := [B; conv_out c; conv_out_size D k s p;
                       conv_out_size H k s p; conv_out_size W k s p] in
        Ok (mkTensor oshape (map (conv3d_entry c x) (indices oshape)))
  | _ => Raise (RuntimeError "conv3d: expected a 5-axis input")
  end.

(** [F.avg_pool3d(x, k)] *)
Definition avg_pool3d (x : tensor) (k : nat) : result tensor :=
  match shape x with
  | [B; C; D; H; W] =>
      if (k =? 0) || (D <? k) || (H <? k) || (W <? k)
      then Raise (RuntimeError "avg_pool3d: output size is too small")
      else
        let oshape := [B; C; conv_out_size D k k 0; conv_out_size H k k 0;
                       conv_out_size W k k 0] in
        Ok (mkTensor oshape
              (map (fun idx =>
                      match idx with
                      | [b; c; d; h; w] =>
                          qdiv
                            (Qsum (map (fun kidx =>
                                          match kidx with
                                          | [kd; kh; kw] =>
                                              tget x [b; c; d * k + kd; h * k + kh; w * k + kw]
                                          | _ => 0%Q
                                          end)
                                       (indices [k; k; k])))
                            (inject_Z (Z.of_nat (k * k * k)))
                      | _ => 0%Q
                      end)
                   (indices oshape)))
  | _ => Raise (RuntimeError "avg_pool3d: expected a 5-axis input")
  end.

(** [F.interpolate(x, scale_factor=r, mode="nearest")] *)
Definition interpolate_nearest (x : tensor) (r : nat) : result tensor :=
  match shape x with
  | [B; C; D; H; W] =>
      let oshape := [B; C; D * r; H * r; W * r] in
      Ok (mkTensor oshape
            (map (fun idx =>
                    match idx with
                    | [b; c; d; h; w] => tget x [b; c; d / r; h / r; w / r]
                    | _ => 0%Q
                    end)
                 (indices oshape)))
  | _ => Raise (RuntimeError "interpolate: expected a 5-axis input")
  end.

(** Modelled from the spec: [pixel_shuffle_3d] of [modules/spatial.py], which
    is not part of the sources at hand.  The spec describes it as the 3D
    analogue of a pixel shuffle: the 8-fold channel multiplier is consumed as
    a 2x2x2 spatial block, so each spatial axis doubles.  The order in which
    the eight channels fill the block is the usual one. *)
Definition pixel_shuffle_3d (x : tensor) (r : nat) : result tensor :=
  match shape x with
  | [B; C; D; H; W] =>
      let r3 := r * r * r in
      if negb (C mod r3 =? 0) then Raise (RuntimeError "pixel_shuffle_3d: channels")
      else
        let oshape := [B; C / r3; D * r; H * r; W * r] in
        Ok (mkTensor oshape
              (map (fun idx =>
                      match idx with
                      | [b; c; d; h; w] =>
                          tget x [b; c * r3 + (d mod r) * r * r + (h mod r) * r + w mod r;
                                  d / r; h / r; w / r]
                      | _ => 0%Q
                      end)
                   (indices oshape)))
  | _ => Raise (RuntimeError "pixel_shuffle_3d: expected a 5-axis input")
  end.

(** Modelled from the spec: [zero_module] of [modules/utils.py], which is not
    part of the sources at hand.  The spec calls it the zero-initialization
    utility: the convolution it is applied to starts at exactly zero. *)
Definition zero_module (c : Conv3d) : Conv3d :=
  mkConv3d (conv_in c) (conv_out c) (kernel_size c) (stride c) (padding c)
    (tmap (fun _ => 0%Q) (weight c)) (tmap (fun _ => 0%Q) (bias c)) (conv_dtype c).

(** ** The normalization selector *)

(** Modelled from the spec: [GroupNorm32] and [ChannelLayerNorm32] of
    [modules/norm.py], which is not part of the sources at hand: the
    group-wise and the channel-wise normalization layer.  Both start in
    float32; as in [torch.nn.GroupNorm], the groups must divide the
    channels. *)
Definition GroupNorm32 (groups ch : nat) : result NormLayer :=
  if ch mod groups =? 0 then Ok (mkNorm cls_GroupNorm32 groups ch float32)
  else Raise ValueError_GroupNorm.

Definition ChannelLayerNorm32 (ch : nat) : result NormLayer :=
  Ok (mkNorm cls_ChannelLayerNorm32 1 ch float32).

Definition norm_layer (norm_type : string) (ch : nat) : result NormLayer :=
  if String.eqb norm_type "group" then GroupNorm32 32 ch
  else if String.eqb norm_type "layer" then ChannelLayerNorm32 ch
  else Raise (ValueError_InvalidNormType norm_type).

(** A step of a constructor that draws nothing from the generator. *)
Definition clift {A : Type} (r : result A) : Ctor A :=
  fun g => match r with Ok a => Ok (a, g) | Raise e => Raise e end.

(** ** Precision conversion of a module tree

    [Module.apply(fn)] calls [fn] on every submodule.  Only the layers that
    own parameters matter, so [fn] is given by what it does to a convolution
    and to a normalization layer. *)

Record module_fn : Type := mkModuleFn {
  on_conv : Conv3d -> Conv3d;
  on_norm : NormLayer -> NormLayer
}.

Class Utils : Type := {
  (** the table of layer classes that the cast utilities touch *)
  FP16_MODULES : layer_class -> bool
}.

Definition cast_conv `{Utils} (dt : dtype) (c : Conv3d) : Conv3d :=
  if FP16_MODULES cls_Conv3d
  then mkConv3d (conv_in c) (conv_out c) (kernel_size c) (stride c) (padding c)
         (weight c) (bias c) dt
  else c.

Definition cast_norm `{Utils} (dt : dtype) (n : NormLayer) : NormLayer :=
  if FP16_MODULES (norm_class n)
  then mkNorm (norm_class n) (num_groups n) (num_channels n) dt
  else n.

(** Modelled from the spec: [convert_module_to_f16] and
    [convert_module_to_f32] of [modules/utils.py], which is not part of the
    sources at hand.  The spec calls them the precision-cast utility: applied
    to a layer, they cast its parameters, for the layer classes of the table
    [FP16_MODULES]. *)
Definition convert_module_to_f16 `{Utils} : module_fn :=
  mkModuleFn (cast_conv float16) (cast_norm float16).

Definition convert_module_to_f32 `{Utils} : module_fn :=
  mkModuleFn (cast_conv float32) (cast_norm float32).

(** [out_channels or channels] *)
Definition py_or (o : option nat) (d : nat) : nat :=
  match o with
  | Some (S n) => S n
  | _ => d
  end.

(** [l[0]] and [l[-1]] *)
Definition py_first (l : list nat) : result nat :=
  match l with
  | [] => Raise IndexError
  | a :: _ => Ok a
  end.

Definition py_last (l : list nat) : result nat :=
  match l with
  | [] => Raise IndexError
  | _ :: _ => Ok (last l 0)
  end.

(** The default of every [norm_type] argument and of the resampling [mode]. *)
Definition default_norm_type : string := "layer".
Definition default_mode : string := "conv".

(** ** [ResBlock3d] *)

Module ResBlock3d.

Record t : Type := mk {
  channels : nat;
  out_channels : nat;
  norm1 : NormLayer;
  norm2 : NormLayer;
  conv1 : Conv3d;
  conv2 : Conv3d;
  skip_connection : option Conv3d     (* [None] is [nn.Identity()] *)
}.

Definition init (channels : nat) (out_channels : option nat) (norm_type : string)
  : Ctor t :=
  let oc := py_or out_channels channels in
  (n1 <~ clift (norm_layer norm_type channels) ;;
   n2 <~ clift (norm_layer norm_type oc) ;;
   c1 <~ nn_Conv3d channels oc 3 1 1 ;;
   c2 <~ nn_Conv3d oc oc 3 1 1 ;;
   sk <~ (if negb (channels =? oc)
          then (c <~ nn_Conv3d channels oc 1 1 0 ;; cret (Some c))
          else cret None) ;;
   cret (mk channels oc n1 n2 c1 (zero_module c2) sk))%ctor.

Definition forward `{Numerics} (self : t) (x : tensor) : result tensor :=
  (h <- norm_forward (norm1 self) x ;;
   let h := tmap silu h in
   h <- conv3d (conv1 self) h ;;
   h <- norm_forward (norm2 self) h ;;
   let h := tmap silu h in
   h <- conv3d (conv2 self) h ;;
   sk <- match skip_connection self with
         | Some c => conv3d c x
         | None => Ok x
         end ;;
   tensor_add h sk)%py.

Definition apply (fn : module_fn) (self : t) : t :=
  mk (channels self) (out_channels self)
     (on_norm fn (norm1 self)) (on_norm fn (norm2 self))
     (on_conv fn (conv1 self)) (on_conv fn (conv2 self))
     (option_map (on_conv fn) (skip_connection self)).

(** Class and precision of each parameterised layer, in registration order. *)
Definition layer_dtypes (self : t) : list (layer_class * dtype) :=
  [(norm_class (norm1 self), norm_dtype (norm1 self));
   (norm_class (norm2 self), norm_dtype (norm2 self));
   (cls_Conv3d, conv_dtype (conv1 self));
   (cls_Conv3d, conv_dtype (conv2 self))]
  ++ match skip_connection self with
     | Some c => [(cls_Conv3d, conv_dtype c)]
     | None => []
     end.

End ResBlock3d.

(** ** [DownsampleBlock3d] *)

Module DownsampleBlock3d.

Record t : Type := mk {
  in_channels : nat;
  out_channels : nat;
  conv : option Conv3d      (* [hasattr(self, "conv")] *)
}.

Definition init (in_channels out_channels : nat) (mode : string) : Ctor t :=
  if negb (String.eqb mode "conv" || String.eqb mode "avgpool")
  then craise (AssertionError ("Invalid mode " ++ mode))
  else if String.eqb mode "conv"
  then (c <~ nn_Conv3d in_channels out_channels 2 2 0 ;;
        cret (mk in_channels out_channels (Some c)))%ctor
  else if String.eqb mode "avgpool"
  then (if in_channels =? out_channels
        then cret (mk in_channels out_channels None)
        else craise (AssertionError
                       "Pooling mode requires in_channels to be equal to out_channels"))
  else cret (mk in_channels out_channels None).

Definition forward (self : t) (x : tensor) : result tensor :=
  match conv self with
  | Some c => conv3d c x
  | None => avg_pool3d x 2
  end.

Definition apply (fn : module_fn) (self : t) : t :=
  mk (in_channels self) (out_channels self) (option_map (on_conv fn) (conv self)).

Definition layer_dtypes (self : t) : list (layer_class * dtype) :=
  match conv self with
  | Some c => [(cls_Conv3d, conv_dtype c)]
  | None => []
  end.

End DownsampleBlock3d.

(** ** [UpsampleBlock3d] *)

Module UpsampleBlock3d.

Record t : Type := mk {
  in_channels : nat;
  out_channels : nat;
  conv : option Conv3d
}.

Definition init (in_channels out_channels : nat) (mode : string) : Ctor t :=
  if negb (String.eqb mode "conv" || String.eqb mode "nearest")
  then craise (AssertionError ("Invalid mode " ++ mode))
  else if String.eqb mode "conv"
  then (c <~ nn_Conv3d in_channels (out_channels * 8) 3 1 1 ;;
        cret (mk in_channels out_channels (Some c)))%ctor
  else if String.eqb mode "nearest"
  then (if in_channels =? out_channels
        then cret (mk in_channels out_channels None)
        else craise (AssertionError
                       "Nearest mode requires in_channels to be equal to out_channels"))
  else cret (mk in_channels out_channels None).

Definition forward (self : t) (x : tensor) : result tensor :=
  match conv self with
  | Some c => (x <- conv3d c x ;; pixel_shuffle_3d x 2)%py
  | None => interpolate_nearest x 2
  end.

Definition apply (fn : module_fn) (self : t) : t :=
  mk (in_channels self) (out_channels self) (option_map (on_conv fn) (conv self)).

Definition layer_dtypes (self : t) : list (layer_class * dtype) :=
  match conv self with
  | Some c => [(cls_Conv3d, conv_dtype c)]
  | None => []
  end.

End UpsampleBlock3d.

(** The members of a [nn.ModuleList] of blocks. *)
Inductive Block : Type :=
| Res (r : ResBlock3d.t)
| Down (d : DownsampleBlock3d.t)
| Up (u : UpsampleBlock3d.t).

Definition Block_forward `{Numerics} (b : Block) (x : tensor) : result tensor :=
  match b with
  | Res r => ResBlock3d.forward r x
  | Down d => DownsampleBlock3d.forward d x
  | Up u => UpsampleBlock3d.forward u x
  end.

Definition Block_apply (fn : module_fn) (b : Block) : Block :=
  match b with
  | Res r => Res (ResBlock3d.apply fn r)
  | Down d => Down (DownsampleBlock3d.apply fn d)
  | Up u => Up (UpsampleBlock3d.apply fn u)
  end.

Definition Block_layer_dtypes (b : Block) : list (layer_class * dtype) :=
  match b with
  | Res r => ResBlock3d.layer_dtypes r
  | Down d => DownsampleBlock3d.layer_dtypes d
  | Up u => UpsampleBlock3d.layer_dtypes u
  end.

(** [for block in blocks: h = block(h)] *)
Fixpoint run_blocks {M : Type} (fwd : M -> tensor -> result tensor)
  (blocks : list M) (h : tensor) : result tensor :=
  match blocks with
  | [] => Ok h
  | b :: rest =>
      match fwd b h with
      | Ok h' => run_blocks fwd rest h'
      | Raise e => Raise e
      end
  end.

(** The output projection [nn.Sequential(norm, nn.SiLU(), nn.Conv3d(...))]. *)
Record OutLayer : Type := mkOutLayer {
  out_norm : NormLayer;
  out_conv : Conv3d
}.

Definition OutLayer_forward `{Numerics} (o : OutLayer) (h : tensor) : result tensor :=
  (h <- norm_forward (out_norm o) h ;;
   conv3d (out_conv o) (tmap silu h))%py.

Definition OutLayer_apply (fn : module_fn) (o : OutLayer) : OutLayer :=
  mkOutLayer (on_norm fn (out_norm o)) (on_conv fn (out_conv o)).

Definition OutLayer_layer_dtypes (o : OutLayer) : list (layer_class * dtype) :=
  [(norm_class (out_norm o), norm_dtype (out_norm o));
   (cls_Conv3d, conv_dtype (out_conv o))].

(** ** [SparseStructureEncoder] *)

Module SparseStructureEncoder.

Record t : Type := mk {
  in_channels : nat;
  latent_channels : nat;
  num_res_blocks : nat;
  channels : list nat;
  num_res_blocks_middle : nat;
  norm_type : string;
  use_fp16 : bool;
  dtype_ : dtype;
  use_checkpoint : bool;
  input_layer : Conv3d;
  blocks : list Block;
  middle_block : list ResBlock3d.t;
  out_layer : OutLayer
}.

(** The loop [for i, ch in enumerate(channels)] of the constructor.  The
    recursion runs over the stages that are left: [rest] is [channels[i+1:]],
    so [i < len(channels) - 1] reads [rest <> []] and [channels[i+1]] is its
    head.  The residual blocks take the default [norm_type]. *)
Fixpoint build_blocks (num_res_blocks : nat) (channels : list nat)
  : Ctor (list Block) :=
  match channels with
  | [] => cret []
  | ch :: rest =>
      (rs <~ replicateC num_res_blocks
               (ResBlock3d.init ch (Some ch) default_norm_type) ;;
       match rest with
       | [] => cret (map Res rs)
       | next :: _ =>
           d <~ DownsampleBlock3d.init ch next default_mode ;;
           more <~ build_blocks num_res_blocks rest ;;
           cret (map Res rs ++ Down d :: more)
       end)%ctor
  end.

Definition convert_to_fp16 `{Utils} (self : t) : t :=
  mk (in_channels self) (latent_channels self) (num_res_blocks self)
     (channels self) (num_res_blocks_middle self) (norm_type self)
     true float16 (use_checkpoint self)
     (input_layer self)
     (map (Block_apply convert_module_to_f16) (blocks self))
     (map (ResBlock3d.apply convert_module_to_f16) (middle_block self))
     (out_layer self).

Definition convert_to_fp32 `{Utils} (self : t) : t :=
  mk (in_channels self) (latent_channels self) (num_res_blocks self)
     (channels self) (num_res_blocks_middle self) (norm_type self)
     false float32 (use_checkpoint self)
     (input_layer self)
     (map (Block_apply convert_module_to_f32) (blocks self))
     (map (ResBlock3d.apply convert_module_to_f32) (middle_block self))
     (out_layer self).

Definition init `{Utils} (in_channels latent_channels num_res_blocks : nat)
  (channels : list nat) (num_res_blocks_middle : nat) (norm_type : string)
  (use_fp16 use_checkpoint : bool) : Ctor t :=
  (ch0 <~ clift (py_first channels) ;;
   input_layer <~ nn_Conv3d in_channels ch0 3 1 1 ;;
   blocks <~ build_blocks num_res_blocks channels ;;
   middle <~ replicateC num_res_blocks_middle
               (c <~ clift (py_last channels) ;;
                ResBlock3d.init c (Some c) default_norm_type) ;;
   c <~ clift (py_last channels) ;;
   n <~ clift (norm_layer norm_type c) ;;
   oc <~ nn_Conv3d c (latent_channels * 2) 3 1 1 ;;
   let self := mk in_channels latent_channels num_res_blocks channels
                 num_res_blocks_middle norm_type use_fp16
                 (if use_fp16 then float16 else float32) use_checkpoint
                 input_layer blocks middle (mkOutLayer n oc) in
   cret (if use_fp16 then convert_to_fp16 self else self))%ctor.

Definition forward `{Numerics} (self : t) (x : tensor) : result tensor :=
  (h <- conv3d (input_layer self) x ;;
   h <- run_blocks Block_forward (blocks self) h ;;
   h <- run_blocks ResBlock3d.forward (middle_block self) h ;;
   OutLayer_forward (out_layer self) h)%py.

(** Precision of the layers of the torso: the staged blocks, then the middle
    residual stack. *)
Definition torso_dtypes (self : t) : list (layer_class * dtype) :=
  flat_map Block_layer_dtypes (blocks self)
  ++ flat_map ResBlock3d.layer_dtypes (middle_block self).

End SparseStructureEncoder.

(** ** [SparseStructureDecoder] *)

Module SparseStructureDecoder.

Record t : Type := mk {
  out_channels : nat;
  latent_channels : nat;
  num_res_blocks : nat;
  channels : list nat;
  num_res_blocks_middle : nat;
  norm_type : string;
  use_fp16 : bool;
  dtype_ : dtype;
  use_checkpoint : bool;
  input_layer : Conv3d;
  middle_block : list ResBlock3d.t;
  blocks : list Block;
  out_layer : OutLayer
}.

(** The loop of the constructor, as in the encoder, with upsampling between
    the stages. *)
Fixpoint build_blocks (num_res_blocks : nat) (channels : list nat)
  : Ctor (list Block) :=
  match channels with
  | [] => cret []
  | ch :: rest =>
      (rs <~ replicateC num_res_blocks
               (ResBlock3d.init ch (Some ch) default_norm_type) ;;
       match rest with
       | [] => cret (map Res rs)
       | next :: _ =>
           u <~ UpsampleBlock3d.init ch next default_mode ;;
           more <~ build_blocks num_res_blocks rest ;;
           cret (map Res rs ++ Up u :: more)
       end)%ctor
  end.

(** [self.apply(fn)]: every submodule of the decoder. *)
Definition apply (fn : module_fn) (self : t) : t :=
  mk (out_channels self) (latent_channels self) (num_res_blocks self)
     (channels self) (num_res_blocks_middle self) (norm_type self)
     (use_fp16 self) (dtype_ self) (use_checkpoint self)
     (on_conv fn (input_layer self))
     (map (ResBlock3d.apply fn) (middle_block self))
     (map (Block_apply fn) (blocks self))
     (OutLayer_apply fn (out_layer self)).

Definition set_precision (fp16 : bool) (dt : dtype) (self : t) : t :=
  mk (out_channels self) (latent_channels self) (num_res_blocks self)
     (channels self) (num_res_blocks_middle self) (norm_type self)
     fp16 dt (use_checkpoint self)
     (input_layer self) (middle_block self) (blocks self) (out_layer self).

Definition convert_to_fp16 `{Utils} (self : t) : t :=
  apply convert_module_to_f16 (set_precision true float16 self).

Definition convert_to_fp32 `{Utils} (self : t) : t :=
  let self := set_precision false float32 self in
  mk (out_channels self) (latent_channels self) (num_res_blocks self)
     (channels self) (num_res_blocks_middle self) (norm_type self)
     (use_fp16 self) (dtype_ self) (use_checkpoint self)
     (input_layer self)
     (map (ResBlock3d.apply convert_module_to_f32) (middle_block self))
     (map (Block_apply convert_module_to_f32) (blocks self))
     (out_layer self).

Definition init `{Utils} (out_channels latent_channels num_res_blocks : nat)
  (channels : list nat) (num_res_blocks_middle : nat) (norm_type : string)
  (use_fp16 use_checkpoint : bool) : Ctor t :=
  (ch0 <~ clift (py_first channels) ;;
   input_layer <~ nn_Conv3d latent_channels ch0 3 1 1 ;;
   middle <~ replicateC num_res_blocks_middle
               (c <~ clift (py_first channels) ;;
                ResBlock3d.init c (Some c) default_norm_type) ;;
   blocks <~ build_blocks num_res_blocks channels ;;
   c <~ clift (py_last channels) ;;
   n <~ clift (norm_layer norm_type c) ;;
   oc <~ nn_Conv3d c out_channels 3 1 1 ;;
   let self := mk out_channels latent_channels num_res_blocks channels
                 num_res_blocks_middle norm_type use_fp16
                 (if use_fp16 then float16 else float32) use_checkpoint
                 input_layer middle blocks (mkOutLayer n oc) in
   cret (if use_fp16 then convert_to_fp16 self else self))%ctor.

Definition forward `{Numerics} (self : t) (x : tensor) : result tensor :=
  (h <- conv3d (input_layer self) x ;;
   h <- run_blocks ResBlock3d.forward (middle_block self) h ;;
   h <- run_blocks Block_forward (blocks self) h ;;
   OutLayer_forward (out_layer self) h)%py.

Definition torso_dtypes (self : t) : list (layer_class * dtype) :=
  flat_map ResBlock3d.layer_dtypes (middle_block self)
  ++ flat_map Block_layer_dtypes (blocks self).

(** Precision of every parameterised layer of the module, in registration
    order. *)
Definition layer_dtypes (self : t) : list (layer_class * dtype) :=
  (cls_Conv3d, conv_dtype (input_layer self))
  :: torso_dtypes self ++ OutLayer_layer_dtypes (out_layer self).

End SparseStructureDecoder.

(** ** Mesh extraction and the latent distribution *)

(** A vertex coordinate after the rescale: dividing by a zero resolution
    leaves [numpy] with an infinity or a NaN. *)
Inductive coord : Type :=
| Finite (q : Q)
| NonFinite.

(** [trimesh.Trimesh(vertices, faces)].  The mesh keeps the vertices it is
    given; the merging of duplicate vertices that [trimesh] may perform only
    drops some of them. *)
Record Trimesh : Type := mkTrimesh {
  vertices : list (list coord);
  faces : list (list nat)
}.

Class Skimage : Type := {
  (** [measure.marching_cubes(volume, level, method="lewiner")], reduced to
      the vertices and faces it returns *)
  marching_cubes : tensor -> Q -> result (list (list Q) * list (list nat))
}.

(** What [skimage] documents about the vertices: they are in the index frame
    of the volume, so each coordinate lies between 0 and the size of its axis
    minus one. *)
Definition vertex_in_volume (s : list nat) (v : list Q) : Prop :=
  Forall2 (fun n q => (0 <= q)%Q /\ (q + 1 <= inject_Z (Z.of_nat n))%Q) s v.

Definition marching_cubes_in_volume `{Skimage} : Prop :=
  forall (volume : tensor) (level : Q) (vs : list (list Q)) (fs : list (list nat)),
    marching_cubes volume level = Ok (vs, fs) ->
    Forall (vertex_in_volume (shape volume)) vs.

Class Distributions : Type := {
  Posterior : Type;
  (** [DiagonalGaussianDistribution(h, feat_dim=d)] *)
  DiagonalGaussianDistribution : tensor -> nat -> result Posterior;
  (** [posterior.sample()], with the generator it draws the noise from *)
  sample : Posterior -> rng -> result (tensor * rng);
  (** [posterior.mode()] *)
  mode : Posterior -> result tensor
}.

(** [batch[key]] *)
Fixpoint py_getitem (batch : list (string * tensor)) (key : string) : result tensor :=
  match batch with
  | [] => Raise (KeyError key)
  | (k, v) :: rest => if String.eqb k key then Ok v else py_getitem rest key
  end.

(** [vertices / voxel_resolution * 2 - 1] on one coordinate *)
Definition rescale (voxel_resolution : Z) (v : Q) : coord :=
  if (voxel_resolution =? 0)%Z then NonFinite
  else Finite (v / inject_Z voxel_resolution * 2 - 1)%Q.

Definition coord_in_unit (c : coord) : Prop :=
  match c with
  | Finite q => (-1 <= q)%Q /\ (q <= 1)%Q
  | NonFinite => False
  end.

(** The result of [decode_mesh]: index tensors or meshes, one per batch item. *)
Inductive decoded : Type :=
| Indices (l : list (list (list nat)))
| Meshes (l : list Trimesh).

(** ** [DenseShapeVAE] *)

Module DenseShapeVAE.

Record t : Type := mk {
  use_checkpoint : bool;
  latents_scale : Q;
  latents_shift : Q;
  encoder : SparseStructureEncoder.t;
  decoder : SparseStructureDecoder.t;
  embed_dim : nat
}.

Record outputs `{Distributions} : Type := mkOutputs {
  reconst_x : tensor;
  posterior : Posterior
}.

Arguments mkOutputs {_} reconst_x posterior.

Definition init `{Utils} (embed_dim : nat)
  (model_channels_encoder model_channels_decoder : list nat)
  (num_res_blocks_encoder num_res_blocks_middle_encoder : nat)
  (num_res_blocks_decoder num_res_blocks_middle_decoder : nat)
  (in_channels out_channels : nat) (use_fp16 use_checkpoint : bool)
  (latents_scale latents_shift : Q) : Ctor t :=
  (enc <~ SparseStructureEncoder.init in_channels embed_dim num_res_blocks_encoder
            model_channels_encoder num_res_blocks_middle_encoder
            default_norm_type use_fp16 use_checkpoint ;;
   dec <~ SparseStructureDecoder.init out_channels embed_dim num_res_blocks_decoder
            model_channels_decoder num_res_blocks_middle_decoder
            default_norm_type use_fp16 use_checkpoint ;;
   cret (mk use_checkpoint latents_scale latents_shift enc dec embed_dim))%ctor.

Definition encode `{Numerics} `{Distributions} (self : t)
  (batch : list (string * tensor)) (sample_posterior : bool) (g : rng)
  : result ((tensor * Posterior) * rng) :=
  (dense_index <- py_getitem batch "dense_index" ;;
   let x := tmap (fun v => Qred (v * 2 - 1)) dense_index in
   h <- SparseStructureEncoder.forward (encoder self) x ;;
   posterior <- DiagonalGaussianDistribution h 1 ;;
   if sample_posterior
   then ('(z, g') <- sample posterior g ;; Ok ((z, posterior), g'))
   else (z <- mode posterior ;; Ok ((z, posterior), g)))%py.

Definition forward `{Numerics} `{Distributions} (self : t)
  (batch : list (string * tensor)) (g : rng) : result (outputs * rng) :=
  ('(zp, g') <- encode self batch true g ;;
   reconst_x <- SparseStructureDecoder.forward (decoder self) (fst zp) ;;
   Ok (mkOutputs reconst_x (snd zp), g'))%py.

(** The occupancy grid of one batch item as [dense2mesh] hands it to the
    marching cubes: [(x[i].sigmoid() >= 0.1).float().squeeze(0)]. *)
Definition mesh_occupancy `{Numerics} (xi : tensor) : tensor :=
  squeeze0 (ge_float (1 # 10) (tmap sigmoid xi)).

Definition dense2mesh `{Numerics} `{Skimage} (self : t) (x : tensor)
  (voxel_resolution : Z) (mc_threshold : Q) : result (list Trimesh) :=
  mapM (fun i =>
          let occ := mesh_occupancy (titem x i) in
          ('(vs, fs) <- marching_cubes occ mc_threshold ;;
           Ok (mkTrimesh (map (map (rescale voxel_resolution)) vs) fs))%py)
       (seq 0 (tlen x)).

(** The index tensor of one batch item on the [return_index] path:
    [(x[i].sigmoid() >= mc_threshold).float().squeeze(0).unsqueeze(0).nonzero()]. *)
Definition occupancy_index `{Numerics} (mc_threshold : Q) (xi : tensor)
  : list (list nat) :=
  nonzero (unsqueeze0 (squeeze0 (ge_float mc_threshold (tmap sigmoid xi)))).

Definition decode_mesh `{Numerics} `{Skimage} (self : t) (latents : tensor)
  (voxel_resolution : Z) (mc_threshold : Q) (return_index : bool)
  : result decoded :=
  (x <- SparseStructureDecoder.forward (decoder self) latents ;;
   if return_index
   then Ok (Indices (map (fun i => occupancy_index mc_threshold (titem x i))
                         (seq 0 (tlen x))))
   else (meshes <- dense2mesh self x voxel_resolution mc_threshold ;;
         Ok (Meshes meshes)))%py.

(** The defaults of [decode_mesh] and [dense2mesh]. *)
Definition default_voxel_resolution : Z := 64.

End DenseShapeVAE.

(** ** A rational backend

    Stand-ins for the imported operations, exact on rationals, so that the
    model runs on concrete grids.  The theorems below hold for every backend;
    these instances only serve to evaluate them. *)

Module Rational.

(** A rational sigmoid: increasing, with values strictly between 0 and 1 and
    [1/2] at the origin. *)
Definition sigmoid (x : Q) : Q :=
  Qred ((1 # 2) + x / (2 * (1 + Qabs x))).

Definition silu (x : Q) : Q := Qred (x * sigmoid x).

(** The normalization stand-in checks the channel axis and passes the values
    through. *)
Definition norm_forward (n : NormLayer) (x : tensor) : result tensor :=
  match shape x with
  | [_; C; _; _; _] =>
      if C =? num_channels n then Ok x
      else Raise (RuntimeError "norm: channel mismatch")
  | _ => Raise (RuntimeError "norm: expected a 5-axis input")
  end.

Definition numerics : Numerics :=
  Build_Numerics silu sigmoid norm_forward.

(** Do the values [a] and [b] lie on different sides of the level? *)
Definition straddles (level a b : Q) : bool :=
  xorb (Qle_bool level a) (Qle_bool level b).

Definition half : Q := 1 # 2.

Definition Qnat (n : nat) : Q := inject_Z (Z.of_nat n).

(** A small surface extractor: one vertex at the midpoint of every grid edge
    whose two voxels lie on different sides of the level, and no faces. *)
Definition edge_vertices (vol : tensor) (level : Q) (idx : list nat) : list (list Q) :=
  match shape vol, idx with
  | [D; H; W], [d; h; w] =>
      (if (S d <? D) && straddles level (tget vol [d; h; w]) (tget vol [S d; h; w])
       then [[Qplus (Qnat d) half; Qnat h; Qnat w]] else [])
      ++ (if (S h <? H) && straddles level (tget vol [d; h; w]) (tget vol [d; S h; w])
          then [[Qnat d; Qplus (Qnat h) half; Qnat w]] else [])
      ++ (if (S w <? W) && straddles level (tget vol [d; h; w]) (tget vol [d; h; S w])
          then [[Qnat d; Qnat h; Qplus (Qnat w) half]] else [])
  | _, _ => []
  end.

Definition marching_cubes (vol : tensor) (level : Q)
  : result (list (list Q) * list (list nat)) :=
  match shape vol with
  | [D; H; W] =>
      if (D <? 2) || (H <? 2) || (W <? 2) then Raise ValueError_MarchingCubes
      else if negb (existsb (fun v => Qle_bool v level) (data vol)
                    && existsb (fun v => Qle_bool level v) (data vol))
      then Raise ValueError_MarchingCubes
      else Ok (flat_map (edge_vertices vol level) (indices (shape vol)), [])
  | _ => Raise ValueError_MarchingCubes
  end.

Definition skimage : Skimage :=
  Build_Skimage marching_cubes.

(** The table that casts convolutions and leaves the normalization layers
    alone, and the table that casts every layer. *)
Definition conv_only : Utils :=
  {| FP16_MODULES := fun c => match c with cls_Conv3d => true | _ => false end |}.

Definition every_layer : Utils :=
  {| FP16_MODULES := fun _ => true |}.

(** A posterior that keeps the parameters; its mode and its samples are the
    first half of the channels of every batch item. *)
Definition mean_of (h : tensor) : result tensor :=
  match shape h with
  | [B; C; D; H; W] =>
      let half_item := (C / 2) * D * H * W in
      let item := C * D * H * W in
      Ok (mkTensor [B; C / 2; D; H; W]
            (flat_map (fun b => firstn half_item (skipn (b * item) (data h)))
                      (seq 0 B)))
  | _ => Raise (RuntimeError "posterior: expected a 5-axis input")
  end.

Definition distributions : Distributions :=
  {| Posterior := tensor;
     DiagonalGaussianDistribution := fun h _ => Ok h;
     sample := fun p g => match mean_of p with
                          | Ok z => Ok (z, g)
                          | Raise e => Raise e
                          end;
     mode := mean_of |}.

(** The generator that hands out 1, 2, 3, ... *)
Definition counting : rng := fun i => inject_Z (Z.of_nat (S i)).

(** A grid of the given shape filled with one value. *)
Definition full (s : list nat) (v : Q) : tensor :=
  mkTensor s (repeat v (numel s)).

(** The generator that always hands out 1, and the smallest VAE it builds:
    one stage of width 1, no residual blocks, one latent channel. *)
Definition ones : rng := fun _ => 1%Q.

Definition conv_of_ones (cin cout k s p : nat) : Conv3d :=
  mkConv3d cin cout k s p (full [cout; cin; k; k; k] 1%Q) (full [cout] 1%Q) float32.

Definition tiny_encoder : SparseStructureEncoder.t :=
  SparseStructureEncoder.mk 1 1 0 [1] 0 "layer" false float32 false
    (conv_of_ones 1 1 3 1 1) [] []
    (mkOutLayer (mkNorm cls_ChannelLayerNorm32 1 1 float32) (conv_of_ones 1 2 3 1 1)).

Definition tiny_decoder : SparseStructureDecoder.t :=
  SparseStructureDecoder.mk 1 1 0 [1] 0 "layer" false float32 false
    (conv_of_ones 1 1 3 1 1) [] []
    (mkOutLayer (mkNorm cls_ChannelLayerNorm32 1 1 float32) (conv_of_ones 1 1 3 1 1)).

Definition tiny_vae : DenseShapeVAE.t :=
  DenseShapeVAE.mk false 1%Q 0%Q tiny_encoder tiny_decoder 1.

(** Decoder outputs used to run the mesh extraction: a 4x2x2 grid whose
    first three slices are occupied, and a row of two voxels with
    probabilities 1/2 and 1/4. *)
Definition slab : tensor :=
  mkTensor [1; 1; 4; 2; 2] (repeat 1%Q 12 ++ repeat (-100)%Q 4).

Definition two_voxels : tensor :=
  mkTensor [1; 1; 1; 2] [0%Q; (-1)%Q].

End Rational.

(** * Predicates used by the statements *)

(** Geometry of a convolution: channel counts, kernel, stride and padding. *)
Definition conv_geom (c : Conv3d) (cin cout k s p : nat) : Prop :=
  conv_in c = cin /\ conv_out c = cout /\ kernel_size c = k
  /\ stride c = s /\ padding c = p.

(** Every stored weight and bias is exactly zero. *)
Definition conv_is_zero (c : Conv3d) : Prop :=
  Forall (fun v => v = 0%Q) (data (weight c))
  /\ Forall (fun v => v = 0%Q) (data (bias c)).

(** What a constructed residual block looks like. *)
Record resblock_built (ch oc : nat) (r : ResBlock3d.t) : Prop := {
  rb_channels : ResBlock3d.channels r = ch;
  rb_out_channels : ResBlock3d.out_channels r = oc;
  rb_norm1 : num_channels (ResBlock3d.norm1 r) = ch;
  rb_norm2 : num_channels (ResBlock3d.norm2 r) = oc;
  rb_conv1 : conv_geom (ResBlock3d.conv1 r) ch oc 3 1 1;
  rb_conv2 : conv_geom (ResBlock3d.conv2 r) oc oc 3 1 1;
  rb_conv2_zero : conv_is_zero (ResBlock3d.conv2 r);
  rb_skip : ch = oc -> ResBlock3d.skip_connection r = None
}.

(** A residual block of the torso: same width in and out, with the default
    channel-wise layer normalization. *)
Definition uses_layer_norm (r : ResBlock3d.t) : Prop :=
  norm_class (ResBlock3d.norm1 r) = cls_ChannelLayerNorm32
  /\ norm_class (ResBlock3d.norm2 r) = cls_ChannelLayerNorm32.

Definition plain_resblock (ch : nat) (r : ResBlock3d.t) : Prop :=
  resblock_built ch ch r /\ uses_layer_norm r.

(** The resampling block between two stages, in [conv] mode. *)
Definition down_between (cin cout : nat) (b : Block) : Prop :=
  exists d c, b = Down d /\ DownsampleBlock3d.conv d = Some c
              /\ conv_geom c cin cout 2 2 0.

Definition up_between (cin cout : nat) (b : Block) : Prop :=
  exists u c, b = Up u /\ UpsampleBlock3d.conv u = Some c
              /\ conv_geom c cin (cout * 8) 3 1 1.

(** The staged blocks the constructors build from the list of widths:
    residual blocks at each width, a resampling block between two widths. *)
Inductive stages_built (between : nat -> nat -> Block -> Prop)
  : list nat -> list Block -> Prop :=
| stages_nil : stages_built between [] []
| stages_last (ch : nat) (rs : list ResBlock3d.t) :
    Forall (plain_resblock ch) rs ->
    stages_built between [ch] (map Res rs)
| stages_cons (ch next : nat) (rest : list nat) (rs : list ResBlock3d.t)
    (b : Block) (more : list Block) :
    Forall (plain_resblock ch) rs ->
    between ch next b ->
    stages_built between (next :: rest) more ->
    stages_built between (ch :: next :: rest) (map Res rs ++ b :: more).

(** Every listed layer holds float32 parameters. *)
Definition all_float32 (l : list (layer_class * dtype)) : Prop :=
  Forall (fun p => snd p = float32) l.

(** What the cast utilities do to the precision of a layer of class [c]. *)
Definition cast_entry `{Utils} (dt : dtype) (p : layer_class * dtype)
  : layer_class * dtype :=
  (fst p, if FP16_MODULES (fst p) then dt else snd p).

(** The part of the two constructors that runs before [norm_type] is read:
    the input projection, the staged blocks and the middle stack. *)
Definition encoder_torso (in_channels num_res_blocks : nat) (channels : list nat)
  (num_res_blocks_middle : nat)
  : Ctor (Conv3d * list Block * list ResBlock3d.t) :=
  (ch0 <~ clift (py_first channels) ;;
   input_layer <~ nn_Conv3d in_channels ch0 3 1 1 ;;
   blocks <~ SparseStructureEncoder.build_blocks num_res_blocks channels ;;
   middle <~ replicateC num_res_blocks_middle
               (c <~ clift (py_last channels) ;;
                ResBlock3d.init c (Some c) default_norm_type) ;;
   cret (input_layer, blocks, middle))%ctor.

Definition decoder_torso (latent_channels num_res_blocks : nat) (channels : list nat)
  (num_res_blocks_middle : nat)
  : Ctor (Conv3d * list ResBlock3d.t * list Block) :=
  (ch0 <~ clift (py_first channels) ;;
   input_layer <~ nn_Conv3d latent_channels ch0 3 1 1 ;;
   middle <~ replicateC num_res_blocks_middle
               (c <~ clift (py_first channels) ;;
                ResBlock3d.init c (Some c) default_norm_type) ;;
   blocks <~ SparseStructureDecoder.build_blocks num_res_blocks channels ;;
   cret (input_layer, middle, blocks))%ctor.

(** The module the constructors assemble once every layer exists. *)
Definition encoder_assemble `{Utils} (in_channels latent_channels num_res_blocks : nat)
  (channels : list nat) (num_res_blocks_middle : nat) (norm_type : string)
  (use_fp16 use_checkpoint : bool) (input_layer : Conv3d) (blocks : list Block)
  (middle : list ResBlock3d.t) (out : OutLayer) : SparseStructureEncoder.t :=
  let self := SparseStructureEncoder.mk in_channels latent_channels num_res_blocks
                channels num_res_blocks_middle norm_type use_fp16
                (if use_fp16 then float16 else float32) use_checkpoint
                input_layer blocks middle out in
  if use_fp16 then SparseStructureEncoder.convert_to_fp16 self else self.

Definition decoder_assemble `{Utils} (out_channels latent_channels num_res_blocks : nat)
  (channels : list nat) (num_res_blocks_middle : nat) (norm_type : string)
  (use_fp16 use_checkpoint : bool) (input_layer : Conv3d)
  (middle : list ResBlock3d.t) (blocks : list Block) (out : OutLayer)
  : SparseStructureDecoder.t :=
  let self := SparseStructureDecoder.mk out_channels latent_channels num_res_blocks
                channels num_res_blocks_middle norm_type use_fp16
                (if use_fp16 then float16 else float32) use_checkpoint
                input_layer middle blocks out in
  if use_fp16 then SparseStructureDecoder.convert_to_fp16 self else self.

(** A member of the staged blocks that is a residual block uses the
    channel-wise layer normalization. *)
Definition block_uses_layer_norm (b : Block) : Prop :=
  match b with
  | Res r => uses_layer_norm r
  | _ => True
  end.

(** Every vertex coordinate of every mesh lies in [-1, 1]. *)
Definition vertices_in_unit_cube (meshes : list Trimesh) : Prop :=
  Forall (fun m => Forall (Forall coord_in_unit) (vertices m)) meshes.

(** The layout of a constructed encoder and decoder, as far as the forward
    pass depends on it. *)
Record encoder_built (inc outc : nat) (channels : list nat)
  (e : SparseStructureEncoder.t) : Prop := {
  eb_input : conv_geom (SparseStructureEncoder.input_layer e) inc (hd 0 channels) 3 1 1;
  eb_blocks : stages_built down_between channels (SparseStructureEncoder.blocks e);
  eb_middle : Forall (plain_resblock (last channels 0))
                (SparseStructureEncoder.middle_block e);
  eb_out_norm : num_channels (out_norm (SparseStructureEncoder.out_layer e))
                = last channels 0;
  eb_out_conv : conv_geom (out_conv (SparseStructureEncoder.out_layer e))
                  (last channels 0) outc 3 1 1
}.

Record decoder_built (inc outc : nat) (channels : list nat)
  (d : SparseStructureDecoder.t) : Prop := {
  db_input : conv_geom (SparseStructureDecoder.input_layer d) inc (hd 0 channels) 3 1 1;
  db_middle : Forall (plain_resblock (hd 0 channels))
                (SparseStructureDecoder.middle_block d);
  db_blocks : stages_built up_between channels (SparseStructureDecoder.blocks d);
  db_out_norm : num_channels (out_norm (SparseStructureDecoder.out_layer d))
                = last channels 0;
  db_out_conv : conv_geom (out_conv (SparseStructureDecoder.out_layer d))
                  (last channels 0) outc 3 1 1
}.

(** * Predicates used by the further properties *)

Definition is_down (b : Block) : bool :=
  match b with Down _ => true | _ => false end.

Definition is_up (b : Block) : bool :=
  match b with Up _ => true | _ => false end.


(** Two logits lie on the same side of the fixed binarization threshold of
    [dense2mesh]. *)
Definition same_side_of_tenth `{Numerics} (a b : Q) : Prop :=
  Qle_bool (1 # 10) (sigmoid a) = Qle_bool (1 # 10) (sigmoid b).




(** What a precision conversion can change on an encoder: the two precision
    attributes and the precision of every parameterised layer, in
    registration order. *)
Definition encoder_precisions (e : SparseStructureEncoder.t)
  : bool * dtype * list (layer_class * dtype) :=
  (SparseStructureEncoder.use_fp16 e, SparseStructureEncoder.dtype_ e,
   (cls_Conv3d, conv_dtype (SparseStructureEncoder.input_layer e))
   :: SparseStructureEncoder.torso_dtypes e
      ++ OutLayer_layer_dtypes (SparseStructureEncoder.out_layer e)).

(** * Properties *)

(** ** Constructors *)



Lemma nn_Conv3d_ok (cin cout k s p : nat) (g : rng) :
  exists c g', nn_Conv3d cin cout k s p g = Ok (c, g')
               /\ conv_geom c cin cout k s p /\ conv_dtype c = float32.
Proof.
  unfold nn_Conv3d, draw. eexists. eexists.
  split; [reflexivity|]. unfold conv_geom. simpl. tauto.
Qed.

Lemma nn_Conv3d_inv (cin cout k s p : nat) (g g' : rng) (c : Conv3d) :
  nn_Conv3d cin cout k s p g = Ok (c, g') ->
  conv_geom c cin cout k s p /\ conv_dtype c = float32.
Proof.
  destruct (nn_Conv3d_ok cin cout k s p g) as (c0 & g0 & E & Hg & Hd).
  rewrite E. intros E'; inversion E'; subst; clear E'. auto.
Qed.

Lemma zero_module_zero (c : Conv3d) : conv_is_zero (zero_module c).
Proof.
  unfold conv_is_zero, zero_module, tmap. simpl.
  split; apply Forall_forall; intros v Hv;
    apply in_map_iff in Hv; destruct Hv as (? & <- & _); reflexivity.
Qed.

Lemma zero_module_geom (c : Conv3d) (cin cout k s p : nat) :
  conv_geom c cin cout k s p -> conv_geom (zero_module c) cin cout k s p.
Proof. unfold conv_geom, zero_module. simpl. tauto. Qed.

Lemma py_or_same (ch : nat) : py_or (Some ch) ch = ch.
Proof. destruct ch; reflexivity. Qed.

(** The selector on its three branches. *)
Lemma norm_layer_layer (ch : nat) :
  norm_layer "layer" ch = Ok (mkNorm cls_ChannelLayerNorm32 1 ch float32).
Proof. reflexivity. Qed.

Lemma norm_layer_invalid (norm_type : string) (ch : nat) :
  norm_type <> "group"%string -> norm_type <> "layer"%string ->
  norm_layer norm_type ch = Raise (ValueError_InvalidNormType norm_type).
Proof.
  intros Hg Hl. unfold norm_layer.
  destruct (String.eqb_spec norm_type "group"); [contradiction|].
  destruct (String.eqb_spec norm_type "layer"); [contradiction|].
  reflexivity.
Qed.

Lemma norm_layer_inv (norm_type : string) (ch : nat) (n : NormLayer) :
  norm_layer norm_type ch = Ok n ->
  num_channels n = ch /\ norm_dtype n = float32
  /\ ((norm_type = "group"%string /\ norm_class n = cls_GroupNorm32)
      \/ (norm_type = "layer"%string /\ norm_class n = cls_ChannelLayerNorm32)).
Proof.
  unfold norm_layer, GroupNorm32, ChannelLayerNorm32.
  destruct (String.eqb_spec norm_type "group").
  - destruct (ch mod 32 =? 0); [|discriminate].
    intros E; inversion E; subst; clear E. simpl. auto.
  - destruct (String.eqb_spec norm_type "layer"); [|discriminate].
    intros E; inversion E; subst; clear E. simpl. auto.
Qed.

Lemma norm_layer_recognized (norm_type : string) (ch : nat) (s : string) :
  norm_type = "group"%string \/ norm_type = "layer"%string ->
  norm_layer norm_type ch <> Raise (ValueError_InvalidNormType s).
Proof.
  intros [-> | ->]; unfold norm_layer.
  - rewrite String.eqb_refl. unfold GroupNorm32.
    destruct (ch mod 32 =? 0); discriminate.
  - change (String.eqb "layer" "group") with false. cbv iota.
    rewrite String.eqb_refl. discriminate.
Qed.


Lemma ResBlock3d_init_inv (ch : nat) (oc : option nat) (norm_type : string)
  (g g' : rng) (r : ResBlock3d.t) :
  ResBlock3d.init ch oc norm_type g = Ok (r, g') ->
  resblock_built ch (py_or oc ch) r
  /\ (exists n1 n2, norm_layer norm_type ch = Ok n1
                    /\ norm_layer norm_type (py_or oc ch) = Ok n2
                    /\ ResBlock3d.norm1 r = n1 /\ ResBlock3d.norm2 r = n2).
Proof.
  unfold ResBlock3d.init, cbind, clift, cret.
  destruct (norm_layer norm_type ch) as [n1|] eqn:E1; [|discriminate].
  destruct (norm_layer norm_type (py_or oc ch)) as [n2|] eqn:E2; [|discriminate].
  destruct (nn_Conv3d_ok ch (py_or oc ch) 3 1 1 g) as (c1 & g1 & -> & G1 & _).
  destruct (nn_Conv3d_ok (py_or oc ch) (py_or oc ch) 3 1 1 g1) as (c2 & g2 & -> & G2 & _).
  apply norm_layer_inv in E1 as E1'. apply norm_layer_inv in E2 as E2'.
  destruct (Nat.eqb_spec ch (py_or oc ch)) as [Heq|Hne]; cbn [negb].
  - intros E; inversion E; subst; clear E. split; [|exists n1, n2; simpl; auto].
    constructor; simpl; try tauto;
      solve [apply zero_module_geom; assumption | apply zero_module_zero].
  - destruct (nn_Conv3d_ok ch (py_or oc ch) 1 1 0 g2) as (c3 & g3 & -> & G3 & _).
    intros E; inversion E; subst; clear E. split; [|exists n1, n2; simpl; auto].
    constructor; simpl; try tauto;
      solve [apply zero_module_geom; assumption | apply zero_module_zero].
Qed.

(** With the default normalization the constructor of a block never raises. *)
Lemma ResBlock3d_init_default_ok (ch : nat) (g : rng) :
  exists r g', ResBlock3d.init ch (Some ch) default_norm_type g = Ok (r, g').
Proof.
  unfold ResBlock3d.init, cbind, clift, cret, default_norm_type.
  rewrite py_or_same, norm_layer_layer.
  destruct (nn_Conv3d_ok ch ch 3 1 1 g) as (c1 & g1 & -> & _).
  destruct (nn_Conv3d_ok ch ch 3 1 1 g1) as (c2 & g2 & -> & _).
  rewrite Nat.eqb_refl. simpl. eauto.
Qed.

Lemma ResBlock3d_init_default_inv (ch : nat) (g g' : rng) (r : ResBlock3d.t) :
  ResBlock3d.init ch (Some ch) default_norm_type g = Ok (r, g') ->
  resblock_built ch ch r
  /\ ResBlock3d.norm1 r = mkNorm cls_ChannelLayerNorm32 1 ch float32
  /\ ResBlock3d.norm2 r = mkNorm cls_ChannelLayerNorm32 1 ch float32.
Proof.
  intros E. apply ResBlock3d_init_inv in E.
  rewrite py_or_same in E. destruct E as (B & n1 & n2 & E1 & E2 & <- & <-).
  unfold default_norm_type in *. rewrite norm_layer_layer in E1, E2.
  inversion E1; subst. inversion E2; subst. auto.
Qed.

Lemma replicateC_ok {A : Type} (mk : Ctor A) (P : A -> Prop) :
  (forall g, exists a g', mk g = Ok (a, g') /\ P a) ->
  forall n g, exists l g', replicateC n mk g = Ok (l, g') /\ Forall P l.
Proof.
  intros Hmk n. induction n as [|n IH]; intros g; simpl.
  - exists [], g. split; [reflexivity | constructor].
  - unfold cbind. destruct (Hmk g) as (a & g1 & -> & Pa).
    destruct (IH g1) as (l & g2 & -> & Pl).
    exists (a :: l), g2. split; [reflexivity | constructor; assumption].
Qed.

Lemma plain_resblock_fresh (ch : nat) (g : rng) :
  exists r g', ResBlock3d.init ch (Some ch) default_norm_type g = Ok (r, g')
               /\ plain_resblock ch r.
Proof.
  destruct (ResBlock3d_init_default_ok ch g) as (r & g' & E).
  exists r, g'. split; [assumption|].
  apply ResBlock3d_init_default_inv in E. destruct E as (B & E1 & E2).
  split; [assumption|]. unfold uses_layer_norm. rewrite E1, E2. auto.
Qed.

Lemma DownsampleBlock3d_init_conv (cin cout : nat) :
  DownsampleBlock3d.init cin cout "conv"
  = cbind (nn_Conv3d cin cout 2 2 0)
          (fun c => cret (DownsampleBlock3d.mk cin cout (Some c))).
Proof. reflexivity. Qed.

Lemma UpsampleBlock3d_init_conv (cin cout : nat) :
  UpsampleBlock3d.init cin cout "conv"
  = cbind (nn_Conv3d cin (cout * 8) 3 1 1)
          (fun c => cret (UpsampleBlock3d.mk cin cout (Some c))).
Proof. reflexivity. Qed.

Lemma DownsampleBlock3d_init_conv_ok (cin cout : nat) (g : rng) :
  exists d g', DownsampleBlock3d.init cin cout "conv" g = Ok (d, g')
               /\ DownsampleBlock3d.in_channels d = cin
               /\ DownsampleBlock3d.out_channels d = cout
               /\ down_between cin cout (Down d).
Proof.
  rewrite DownsampleBlock3d_init_conv. unfold cbind, cret.
  destruct (nn_Conv3d_ok cin cout 2 2 0 g) as (c & g' & -> & G & _).
  eexists. eexists. split; [reflexivity|]. simpl. repeat split.
  eexists. exists c. simpl. auto.
Qed.

Lemma UpsampleBlock3d_init_conv_ok (cin cout : nat) (g : rng) :
  exists u g', UpsampleBlock3d.init cin cout "conv" g = Ok (u, g')
               /\ UpsampleBlock3d.in_channels u = cin
               /\ UpsampleBlock3d.out_channels u = cout
               /\ up_between cin cout (Up u).
Proof.
  rewrite UpsampleBlock3d_init_conv. unfold cbind, cret.
  destruct (nn_Conv3d_ok cin (cout * 8) 3 1 1 g) as (c & g' & -> & G & _).
  eexists. eexists. split; [reflexivity|]. simpl. repeat split.
  eexists. exists c. simpl. auto.
Qed.

(** The loops of the two constructors never raise, and build the stages. *)
Lemma encoder_build_blocks_ok (N : nat) (channels : list nat) (g : rng) :
  exists bs g', SparseStructureEncoder.build_blocks N channels g = Ok (bs, g')
                /\ stages_built down_between channels bs.
Proof.
  revert g. induction channels as [|ch rest IH]; intros g.
  - exists [], g. split; [reflexivity | constructor].
  - cbn [SparseStructureEncoder.build_blocks]. unfold cbind at 1.
    destruct (replicateC_ok _ _ (plain_resblock_fresh ch) N g)
      as (rs & g1 & -> & Prs).
    destruct rest as [|next rest'].
    + exists (map Res rs), g1. split; [reflexivity | constructor; assumption].
    + unfold cbind, default_mode.
      destruct (DownsampleBlock3d_init_conv_ok ch next g1)
        as (d & g2 & -> & _ & _ & Hd).
      destruct (IH g2) as (more & g3 & -> & Hmore).
      exists (map Res rs ++ Down d :: more), g3.
      split; [reflexivity | constructor; assumption].
Qed.

Lemma decoder_build_blocks_ok (N : nat) (channels : list nat) (g : rng) :
  exists bs g', SparseStructureDecoder.build_blocks N channels g = Ok (bs, g')
                /\ stages_built up_between channels bs.
Proof.
  revert g. induction channels as [|ch rest IH]; intros g.
  - exists [], g. split; [reflexivity | constructor].
  - cbn [SparseStructureDecoder.build_blocks]. unfold cbind at 1.
    destruct (replicateC_ok _ _ (plain_resblock_fresh ch) N g)
      as (rs & g1 & -> & Prs).
    destruct rest as [|next rest'].
    + exists (map Res rs), g1. split; [reflexivity | constructor; assumption].
    + unfold cbind, default_mode.
      destruct (UpsampleBlock3d_init_conv_ok ch next g1)
        as (u & g2 & -> & _ & _ & Hu).
      destruct (IH g2) as (more & g3 & -> & Hmore).
      exists (map Res rs ++ Up u :: more), g3.
      split; [reflexivity | constructor; assumption].
Qed.

Lemma ResBlock3d_init_dtypes (ch : nat) (oc : option nat) (norm_type : string)
  (g g' : rng) (r : ResBlock3d.t) :
  ResBlock3d.init ch oc norm_type g = Ok (r, g') ->
  all_float32 (ResBlock3d.layer_dtypes r).
Proof.
  unfold ResBlock3d.init, cbind, clift, cret.
  destruct (norm_layer norm_type ch) as [n1|] eqn:E1; [|discriminate].
  destruct (norm_layer norm_type (py_or oc ch)) as [n2|] eqn:E2; [|discriminate].
  destruct (nn_Conv3d_ok ch (py_or oc ch) 3 1 1 g) as (c1 & g1 & -> & _ & D1).
  destruct (nn_Conv3d_ok (py_or oc ch) (py_or oc ch) 3 1 1 g1)
    as (c2 & g2 & -> & _ & D2).
  apply norm_layer_inv in E1 as (_ & N1 & _).
  apply norm_layer_inv in E2 as (_ & N2 & _).
  destruct (negb (ch =? py_or oc ch)).
  - destruct (nn_Conv3d_ok ch (py_or oc ch) 1 1 0 g2) as (c3 & g3 & -> & _ & D3).
    intros E; inversion E; subst; clear E.
    unfold all_float32, ResBlock3d.layer_dtypes. simpl.
    repeat constructor; assumption.
  - intros E; inversion E; subst; clear E.
    unfold all_float32, ResBlock3d.layer_dtypes. simpl.
    repeat constructor; assumption.
Qed.

(** A fresh residual block of the torso. *)
Lemma torso_resblock_fresh (ch : nat) (g : rng) :
  exists r g', ResBlock3d.init ch (Some ch) default_norm_type g = Ok (r, g')
               /\ (plain_resblock ch r /\ all_float32 (ResBlock3d.layer_dtypes r)).
Proof.
  destruct (plain_resblock_fresh ch g) as (r & g' & E & P).
  exists r, g'. repeat split; try apply P; try assumption.
  eapply ResBlock3d_init_dtypes; eassumption.
Qed.

Lemma all_float32_app (a b : list (layer_class * dtype)) :
  all_float32 a -> all_float32 b -> all_float32 (a ++ b).
Proof. unfold all_float32. intros. apply Forall_app; auto. Qed.

Lemma all_float32_resblocks (P : ResBlock3d.t -> Prop) (rs : list ResBlock3d.t) :
  Forall (fun r => P r /\ all_float32 (ResBlock3d.layer_dtypes r)) rs ->
  Forall P rs
  /\ all_float32 (flat_map ResBlock3d.layer_dtypes rs)
  /\ all_float32 (flat_map Block_layer_dtypes (map Res rs)).
Proof.
  induction 1 as [|r rs [Pr Fr] _ (IH1 & IH2 & IH3)];
    cbn [flat_map map Block_layer_dtypes].
  - repeat split; constructor.
  - repeat split.
    + constructor; assumption.
    + apply all_float32_app; assumption.
    + apply all_float32_app; assumption.
Qed.

Lemma encoder_build_blocks_dtypes (N : nat) (channels : list nat) (g g' : rng)
  (bs : list Block) :
  SparseStructureEncoder.build_blocks N channels g = Ok (bs, g') ->
  all_float32 (flat_map Block_layer_dtypes bs).
Proof.
  revert g bs. induction channels as [|ch rest IH]; intros g bs.
  - intros E; inversion E; subst. constructor.
  - cbn [SparseStructureEncoder.build_blocks]. unfold cbind at 1.
    destruct (replicateC_ok _ _ (torso_resblock_fresh ch) N g)
      as (rs & g1 & -> & Prs).
    apply all_float32_resblocks in Prs as (_ & _ & Frs).
    destruct rest as [|next rest'].
    + intros E; inversion E; subst. assumption.
    + unfold cbind at 1, default_mode. rewrite DownsampleBlock3d_init_conv.
      unfold cbind at 1 2, cret at 1.
      destruct (nn_Conv3d_ok ch next 2 2 0 g1) as (c & g2 & -> & _ & Dc).
      destruct (SparseStructureEncoder.build_blocks N (next :: rest') g2)
        as [[more g3]|] eqn:Em; [|discriminate].
      intros E; inversion E; subst; clear E.
      rewrite flat_map_app. apply all_float32_app; [assumption|].
      simpl. constructor; [assumption|]. eapply IH; eassumption.
Qed.

Lemma decoder_build_blocks_dtypes (N : nat) (channels : list nat) (g g' : rng)
  (bs : list Block) :
  SparseStructureDecoder.build_blocks N channels g = Ok (bs, g') ->
  all_float32 (flat_map Block_layer_dtypes bs).
Proof.
  revert g bs. induction channels as [|ch rest IH]; intros g bs.
  - intros E; inversion E; subst. constructor.
  - cbn [SparseStructureDecoder.build_blocks]. unfold cbind at 1.
    destruct (replicateC_ok _ _ (torso_resblock_fresh ch) N g)
      as (rs & g1 & -> & Prs).
    apply all_float32_resblocks in Prs as (_ & _ & Frs).
    destruct rest as [|next rest'].
    + intros E; inversion E; subst. assumption.
    + unfold cbind at 1, default_mode. rewrite UpsampleBlock3d_init_conv.
      unfold cbind at 1 2, cret at 1.
      destruct (nn_Conv3d_ok ch (next * 8) 3 1 1 g1) as (c & g2 & -> & _ & Dc).
      destruct (SparseStructureDecoder.build_blocks N (next :: rest') g2)
        as [[more g3]|] eqn:Em; [|discriminate].
      intros E; inversion E; subst; clear E.
      rewrite flat_map_app. apply all_float32_app; [assumption|].
      simpl. constructor; [assumption|]. eapply IH; eassumption.
Qed.

(** ** The constructors of the encoder and the decoder, in normal form *)

Lemma py_last_cons (a : nat) (l : list nat) :
  py_last (a :: l) = Ok (last (a :: l) 0).
Proof. reflexivity. Qed.

Lemma SparseStructureEncoder_init_eq `{Utils}
  (inc lat N : nat) (channels : list nat) (M : nat) (nt : string)
  (fp ck : bool) (g : rng) :
  SparseStructureEncoder.init inc lat N channels M nt fp ck g =
  match encoder_torso inc N channels M g with
  | Raise e => Raise e
  | Ok (il, bs, mid, g3) =>
      match norm_layer nt (last channels 0) with
      | Raise e => Raise e
      | Ok n =>
          match nn_Conv3d (last channels 0) (lat * 2) 3 1 1 g3 with
          | Raise e => Raise e
          | Ok (oc, g4) =>
              Ok (encoder_assemble inc lat N channels M nt fp ck il bs mid
                    (mkOutLayer n oc), g4)
          end
      end
  end.
Proof.
  unfold SparseStructureEncoder.init, encoder_torso, encoder_assemble.
  destruct channels as [|ch rest]; [reflexivity|].
  rewrite py_last_cons. unfold cbind, clift, cret. cbn [py_first].
  destruct (nn_Conv3d inc ch 3 1 1 g) as [[il g1]|]; [|reflexivity].
  destruct (SparseStructureEncoder.build_blocks N (ch :: rest) g1)
    as [[bs g2]|]; [|reflexivity].
  match goal with
  | |- context [replicateC M ?mk g2] =>
      destruct (replicateC M mk g2) as [[mid g3]|]; [|reflexivity]
  end.
  destruct (norm_layer nt (last (ch :: rest) 0)); reflexivity.
Qed.

Lemma SparseStructureDecoder_init_eq `{Utils}
  (outc lat N : nat) (channels : list nat) (M : nat) (nt : string)
  (fp ck : bool) (g : rng) :
  SparseStructureDecoder.init outc lat N channels M nt fp ck g =
  match decoder_torso lat N channels M g with
  | Raise e => Raise e
  | Ok (il, mid, bs, g3) =>
      match norm_layer nt (last channels 0) with
      | Raise e => Raise e
      | Ok n =>
          match nn_Conv3d (last channels 0) outc 3 1 1 g3 with
          | Raise e => Raise e
          | Ok (oc, g4) =>
              Ok (decoder_assemble outc lat N channels M nt fp ck il mid bs
                    (mkOutLayer n oc), g4)
          end
      end
  end.
Proof.
  unfold SparseStructureDecoder.init, decoder_torso, decoder_assemble.
  destruct channels as [|ch rest]; [reflexivity|].
  rewrite py_last_cons. unfold cbind, clift, cret. cbn [py_first].
  destruct (nn_Conv3d lat ch 3 1 1 g) as [[il g1]|]; [|reflexivity].
  match goal with
  | |- context [replicateC M ?mk g1] =>
      destruct (replicateC M mk g1) as [[mid g2]|]; [|reflexivity]
  end.
  destruct (SparseStructureDecoder.build_blocks N (ch :: rest) g2)
    as [[bs g3]|]; [|reflexivity].
  destruct (norm_layer nt (last (ch :: rest) 0)); reflexivity.
Qed.

Lemma cbind_ok {A B : Type} (m : Ctor A) (k : A -> Ctor B) (g g' : rng) (a : A) :
  m g = Ok (a, g') -> cbind m k g = k a g'.
Proof. unfold cbind. intros ->. reflexivity. Qed.

Lemma middle_resblock_fresh (pick : result nat) (ch : nat) :
  pick = Ok ch ->
  forall g, exists r g',
    cbind (clift pick) (fun c => ResBlock3d.init c (Some c) default_norm_type) g
    = Ok (r, g')
    /\ (plain_resblock ch r /\ all_float32 (ResBlock3d.layer_dtypes r)).
Proof.
  intros -> g. unfold cbind, clift. apply torso_resblock_fresh.
Qed.

(** What the torso of a constructed module looks like. *)
Lemma encoder_torso_ok (inc N : nat) (channels : list nat) (M : nat) (g : rng) :
  channels <> [] ->
  exists il bs mid g3,
    encoder_torso inc N channels M g = Ok (il, bs, mid, g3)
    /\ conv_geom il inc (hd 0 channels) 3 1 1
    /\ conv_dtype il = float32
    /\ stages_built down_between channels bs
    /\ all_float32 (flat_map Block_layer_dtypes bs)
    /\ Forall (plain_resblock (last channels 0)) mid
    /\ all_float32 (flat_map ResBlock3d.layer_dtypes mid).
Proof.
  intros Hne. destruct channels as [|ch rest]; [contradiction|].
  unfold encoder_torso.
  rewrite (cbind_ok _ _ g g ch) by reflexivity.
  destruct (nn_Conv3d_ok inc ch 3 1 1 g) as (il & g1 & Eil & Gil & Dil).
  rewrite (cbind_ok _ _ _ _ _ Eil).
  destruct (encoder_build_blocks_ok N (ch :: rest) g1) as (bs & g2 & Ebs & Sbs).
  rewrite (cbind_ok _ _ _ _ _ Ebs).
  destruct (replicateC_ok _ _
              (middle_resblock_fresh _ _ (py_last_cons ch rest)) M g2)
    as (mid & g3 & Emid & Pmid).
  rewrite (cbind_ok _ _ _ _ _ Emid).
  apply all_float32_resblocks in Pmid as (Pm & Fm & _).
  exists il, bs, mid, g3. cbn [hd].
  repeat split; try assumption; try apply Gil.
  eapply encoder_build_blocks_dtypes; eassumption.
Qed.

Lemma decoder_torso_ok (lat N : nat) (channels : list nat) (M : nat) (g : rng) :
  channels <> [] ->
  exists il mid bs g3,
    decoder_torso lat N channels M g = Ok (il, mid, bs, g3)
    /\ conv_geom il lat (hd 0 channels) 3 1 1
    /\ conv_dtype il = float32
    /\ Forall (plain_resblock (hd 0 channels)) mid
    /\ all_float32 (flat_map ResBlock3d.layer_dtypes mid)
    /\ stages_built up_between channels bs
    /\ all_float32 (flat_map Block_layer_dtypes bs).
Proof.
  intros Hne. destruct channels as [|ch rest]; [contradiction|].
  unfold decoder_torso.
  rewrite (cbind_ok _ _ g g ch) by reflexivity.
  destruct (nn_Conv3d_ok lat ch 3 1 1 g) as (il & g1 & Eil & Gil & Dil).
  rewrite (cbind_ok _ _ _ _ _ Eil).
  destruct (replicateC_ok _ _
              (middle_resblock_fresh (py_first (ch :: rest)) ch eq_refl) M g1)
    as (mid & g2 & Emid & Pmid).
  rewrite (cbind_ok _ _ _ _ _ Emid).
  destruct (decoder_build_blocks_ok N (ch :: rest) g2) as (bs & g3 & Ebs & Sbs).
  rewrite (cbind_ok _ _ _ _ _ Ebs).
  apply all_float32_resblocks in Pmid as (Pm & Fm & _).
  exists il, mid, bs, g3. cbn [hd].
  repeat split; try assumption; try apply Gil.
  eapply decoder_build_blocks_dtypes; eassumption.
Qed.

Lemma encoder_torso_empty (inc N M : nat) (g : rng) :
  encoder_torso inc N [] M g = Raise IndexError.
Proof. reflexivity. Qed.

Lemma decoder_torso_empty (lat N M : nat) (g : rng) :
  decoder_torso lat N [] M g = Raise IndexError.
Proof. reflexivity. Qed.

(** ** Errors raised at construction *)

(** C7: in "avgpool" mode [DownsampleBlock3d] and in "nearest" mode
    [UpsampleBlock3d] raise at construction when the input and output channel
    counts differ; in "conv" mode both constructors accept every pair of
    channel counts. *)
Theorem resample_modes_check_channels (cin cout : nat) (g : rng) :
  cin <> cout ->
  DownsampleBlock3d.init cin cout "avgpool" g
  = Raise (AssertionError
             "Pooling mode requires in_channels to be equal to out_channels")
  /\ UpsampleBlock3d.init cin cout "nearest" g
     = Raise (AssertionError
                "Nearest mode requires in_channels to be equal to out_channels")
  /\ (forall a b g0, exists d g',
         DownsampleBlock3d.init a b "conv" g0 = Ok (d, g')
         /\ DownsampleBlock3d.in_channels d = a
         /\ DownsampleBlock3d.out_channels d = b)
  /\ (forall a b g0, exists u g',
         UpsampleBlock3d.init a b "conv" g0 = Ok (u, g')
         /\ UpsampleBlock3d.in_channels u = a
         /\ UpsampleBlock3d.out_channels u = b).
Proof.
  intros Hne. repeat split.
  - unfold DownsampleBlock3d.init. cbn [String.eqb Ascii.eqb Bool.eqb orb negb].
    destruct (Nat.eqb_spec cin cout); [contradiction | reflexivity].
  - unfold UpsampleBlock3d.init. cbn [String.eqb Ascii.eqb Bool.eqb orb negb].
    destruct (Nat.eqb_spec cin cout); [contradiction | reflexivity].
  - intros a b g0.
    destruct (DownsampleBlock3d_init_conv_ok a b g0) as (d & g' & E & I & O & _).
    eauto.
  - intros a b g0.
    destruct (UpsampleBlock3d_init_conv_ok a b g0) as (u & g' & E & I & O & _).
    eauto.
Qed.

Lemma resample_modes_check_channels_witness :
  DownsampleBlock3d.init 32 128 "avgpool" Rational.counting
  = Raise (AssertionError
             "Pooling mode requires in_channels to be equal to out_channels")
  /\ UpsampleBlock3d.init 32 128 "nearest" Rational.counting
     = Raise (AssertionError
                "Nearest mode requires in_channels to be equal to out_channels").
Proof.
  assert (Hne : 32 <> 128) by lia.
  split.
  - exact (proj1 (resample_modes_check_channels 32 128 Rational.counting Hne)).
  - exact (proj1 (proj2 (resample_modes_check_channels 32 128 Rational.counting Hne))).
Defined.

(** C6: a [norm_type] other than "group" and "layer" makes the constructors
    of [ResBlock3d], [SparseStructureEncoder] and [SparseStructureDecoder]
    raise, with the [ValueError] of the normalization selector as soon as the
    lines before the selector pass (a non-empty list of widths); for the two
    recognized kinds that error is never raised. *)
Theorem unknown_norm_type_raises `{Utils} (norm_type : string) :
  (norm_type <> "group"%string -> norm_type <> "layer"%string ->
   (forall ch oc g,
       ResBlock3d.init ch oc norm_type g
       = Raise (ValueError_InvalidNormType norm_type))
   /\ (forall inc lat N channels M fp ck g,
          raises (SparseStructureEncoder.init inc lat N channels M norm_type fp ck g)
          /\ (channels <> [] ->
              SparseStructureEncoder.init inc lat N channels M norm_type fp ck g
              = Raise (ValueError_InvalidNormType norm_type)))
   /\ (forall outc lat N channels M fp ck g,
          raises (SparseStructureDecoder.init outc lat N channels M norm_type fp ck g)
          /\ (channels <> [] ->
              SparseStructureDecoder.init outc lat N channels M norm_type fp ck g
              = Raise (ValueError_InvalidNormType norm_type))))
  /\ (norm_type = "group"%string \/ norm_type = "layer"%string ->
      forall s,
        (forall ch oc g,
            ResBlock3d.init ch oc norm_type g <> Raise (ValueError_InvalidNormType s))
        /\ (forall inc lat N channels M fp ck g,
               SparseStructureEncoder.init inc lat N channels M norm_type fp ck g
               <> Raise (ValueError_InvalidNormType s))
        /\ (forall outc lat N channels M fp ck g,
               SparseStructureDecoder.init outc lat N channels M norm_type fp ck g
               <> Raise (ValueError_InvalidNormType s))).
Proof.
  split.
  - intros Hg Hl. repeat split.
    + intros ch oc g. unfold ResBlock3d.init, cbind, clift.
      rewrite (norm_layer_invalid norm_type ch Hg Hl). reflexivity.
    + rewrite SparseStructureEncoder_init_eq.
      destruct channels as [|c rest].
      * rewrite encoder_torso_empty. eexists; reflexivity.
      * destruct (encoder_torso_ok inc N (c :: rest) M g)
          as (il & bs & mid & g3 & -> & _); [discriminate|].
        rewrite (norm_layer_invalid norm_type _ Hg Hl). eexists; reflexivity.
    + intros Hne. rewrite SparseStructureEncoder_init_eq.
      destruct (encoder_torso_ok inc N channels M g Hne)
        as (il & bs & mid & g3 & -> & _).
      rewrite (norm_layer_invalid norm_type _ Hg Hl). reflexivity.
    + rewrite SparseStructureDecoder_init_eq.
      destruct channels as [|c rest].
      * rewrite decoder_torso_empty. eexists; reflexivity.
      * destruct (decoder_torso_ok lat N (c :: rest) M g)
          as (il & mid & bs & g3 & -> & _); [discriminate|].
        rewrite (norm_layer_invalid norm_type _ Hg Hl). eexists; reflexivity.
    + intros Hne. rewrite SparseStructureDecoder_init_eq.
      destruct (decoder_torso_ok lat N channels M g Hne)
        as (il & mid & bs & g3 & -> & _).
      rewrite (norm_layer_invalid norm_type _ Hg Hl). reflexivity.
  - intros Hrec s. repeat split.
    + intros ch oc g. unfold ResBlock3d.init, cbind, clift, cret.
      pose proof (norm_layer_recognized norm_type ch s Hrec) as H1.
      pose proof (norm_layer_recognized norm_type (py_or oc ch) s Hrec) as H2.
      destruct (norm_layer norm_type ch) as [n1|e1];
        [|intros E; apply H1; inversion E; reflexivity].
      destruct (norm_layer norm_type (py_or oc ch)) as [n2|e2];
        [|intros E; apply H2; inversion E; reflexivity].
      destruct (nn_Conv3d_ok ch (py_or oc ch) 3 1 1 g) as (c1 & g1 & -> & _).
      destruct (nn_Conv3d_ok (py_or oc ch) (py_or oc ch) 3 1 1 g1)
        as (c2 & g2 & -> & _).
      destruct (negb (ch =? py_or oc ch)); [|discriminate].
      destruct (nn_Conv3d_ok ch (py_or oc ch) 1 1 0 g2) as (c3 & g3 & -> & _).
      discriminate.
    + intros inc lat N channels M fp ck g.
      rewrite SparseStructureEncoder_init_eq.
      destruct channels as [|c rest].
      * rewrite encoder_torso_empty. discriminate.
      * destruct (encoder_torso_ok inc N (c :: rest) M g)
          as (il & bs & mid & g3 & -> & _); [discriminate|].
        pose proof (norm_layer_recognized norm_type (last (c :: rest) 0) s Hrec) as H1.
        destruct (norm_layer norm_type (last (c :: rest) 0)) as [n|e];
          [|intros E; apply H1; inversion E; reflexivity].
        destruct (nn_Conv3d_ok (last (c :: rest) 0) (lat * 2) 3 1 1 g3)
          as (oc & g4 & -> & _).
        discriminate.
    + intros outc lat N channels M fp ck g.
      rewrite SparseStructureDecoder_init_eq.
      destruct channels as [|c rest].
      * rewrite decoder_torso_empty. discriminate.
      * destruct (decoder_torso_ok lat N (c :: rest) M g)
          as (il & mid & bs & g3 & -> & _); [discriminate|].
        pose proof (norm_layer_recognized norm_type (last (c :: rest) 0) s Hrec) as H1.
        destruct (norm_layer norm_type (last (c :: rest) 0)) as [n|e];
          [|intros E; apply H1; inversion E; reflexivity].
        destruct (nn_Conv3d_ok (last (c :: rest) 0) outc 3 1 1 g3)
          as (oc & g4 & -> & _).
        discriminate.
Qed.

Lemma unknown_norm_type_raises_witness :
  ResBlock3d.init 32 None "batch" Rational.counting
  = Raise (ValueError_InvalidNormType "batch")
  /\ @SparseStructureEncoder.init Rational.conv_only 1 8 2 [32; 128; 512] 2
       "batch" false false Rational.counting
     = Raise (ValueError_InvalidNormType "batch")
  /\ @SparseStructureDecoder.init Rational.conv_only 1 8 2 [512; 128; 32] 2
       "batch" false false Rational.counting
     = Raise (ValueError_InvalidNormType "batch")
  /\ ResBlock3d.init 48 None "group" Rational.counting
     <> Raise (ValueError_InvalidNormType "group").
Proof.
  assert (Hg : "batch"%string <> "group"%string) by discriminate.
  assert (Hl : "batch"%string <> "layer"%string) by discriminate.
  pose proof (proj1 (@unknown_norm_type_raises Rational.conv_only "batch") Hg Hl)
    as (R & E & D).
  pose proof (proj2 (@unknown_norm_type_raises Rational.conv_only "group")
                (or_introl eq_refl) "group"%string) as (R' & _).
  split; [|split; [|split]].
  - apply R.
  - apply E. discriminate.
  - apply D. discriminate.
  - apply R'.
Defined.

(** ** The reach of [norm_type] *)

Lemma cast_norm_class `{Utils} (dt : dtype) (n : NormLayer) :
  norm_class (cast_norm dt n) = norm_class n.
Proof. unfold cast_norm. destruct (FP16_MODULES (norm_class n)); reflexivity. Qed.

Lemma uses_layer_norm_cast `{Utils} (dt : dtype) (r : ResBlock3d.t) :
  uses_layer_norm r ->
  uses_layer_norm (ResBlock3d.apply (mkModuleFn (cast_conv dt) (cast_norm dt)) r).
Proof.
  unfold uses_layer_norm. simpl. rewrite !cast_norm_class. auto.
Qed.

Lemma block_uses_layer_norm_cast `{Utils} (dt : dtype) (b : Block) :
  block_uses_layer_norm b ->
  block_uses_layer_norm (Block_apply (mkModuleFn (cast_conv dt) (cast_norm dt)) b).
Proof.
  destruct b; simpl; auto. apply uses_layer_norm_cast.
Qed.

Lemma stages_use_layer_norm (between : nat -> nat -> Block -> Prop)
  (channels : list nat) (bs : list Block) :
  (forall a b blk, between a b blk -> block_uses_layer_norm blk) ->
  stages_built between channels bs ->
  Forall block_uses_layer_norm bs.
Proof.
  intros Hb. induction 1 as [|ch rs Hrs|ch next rest rs b more Hrs Hbt _ IH].
  - constructor.
  - apply Forall_map. eapply Forall_impl; [|exact Hrs]. intros r [_ L]. exact L.
  - apply Forall_app. split.
    + apply Forall_map. eapply Forall_impl; [|exact Hrs]. intros r [_ L]. exact L.
    + constructor; [eapply Hb; eassumption | assumption].
Qed.

Lemma down_between_no_norm (a b : nat) (blk : Block) :
  down_between a b blk -> block_uses_layer_norm blk.
Proof. intros (d & c & -> & _). exact I. Qed.

Lemma up_between_no_norm (a b : nat) (blk : Block) :
  up_between a b blk -> block_uses_layer_norm blk.
Proof. intros (u & c & -> & _). exact I. Qed.

Lemma Forall_map_preserved {A : Type} (P : A -> Prop) (f : A -> A) (l : list A) :
  (forall a, P a -> P (f a)) -> Forall P l -> Forall P (map f l).
Proof.
  intros Hf Hl. apply Forall_map. eapply Forall_impl; [|exact Hl]. exact Hf.
Qed.

(** C9: in a constructed encoder or decoder every residual block of the
    staged blocks and of the middle stack uses the channel-wise layer
    normalization, whatever [norm_type] was passed; constructing the module
    with another [norm_type] leaves the input projection, the staged blocks,
    the middle stack and the output convolution as they are. *)
Theorem norm_type_only_reaches_out_layer `{Utils}
  (lat N : nat) (channels : list nat) (M : nat) (norm_type : string)
  (fp ck : bool) (g : rng) :
  (forall inc e g',
      SparseStructureEncoder.init inc lat N channels M norm_type fp ck g = Ok (e, g') ->
      Forall block_uses_layer_norm (SparseStructureEncoder.blocks e)
      /\ Forall uses_layer_norm (SparseStructureEncoder.middle_block e)
      /\ (forall norm_type' e2 g2,
             SparseStructureEncoder.init inc lat N channels M norm_type' fp ck g
             = Ok (e2, g2) ->
             SparseStructureEncoder.input_layer e2 = SparseStructureEncoder.input_layer e
             /\ SparseStructureEncoder.blocks e2 = SparseStructureEncoder.blocks e
             /\ SparseStructureEncoder.middle_block e2
                = SparseStructureEncoder.middle_block e
             /\ out_conv (SparseStructureEncoder.out_layer e2)
                = out_conv (SparseStructureEncoder.out_layer e)))
  /\ (forall outc d g',
         SparseStructureDecoder.init outc lat N channels M norm_type fp ck g = Ok (d, g') ->
         Forall block_uses_layer_norm (SparseStructureDecoder.blocks d)
         /\ Forall uses_layer_norm (SparseStructureDecoder.middle_block d)
         /\ (forall norm_type' d2 g2,
                SparseStructureDecoder.init outc lat N channels M norm_type' fp ck g
                = Ok (d2, g2) ->
                SparseStructureDecoder.input_layer d2
                = SparseStructureDecoder.input_layer d
                /\ SparseStructureDecoder.blocks d2 = SparseStructureDecoder.blocks d
                /\ SparseStructureDecoder.middle_block d2
                   = SparseStructureDecoder.middle_block d
                /\ out_conv (SparseStructureDecoder.out_layer d2)
                   = out_conv (SparseStructureDecoder.out_layer d))).
Proof.
  split.
  - intros inc e g'. rewrite SparseStructureEncoder_init_eq.
    destruct channels as [|c rest]; [rewrite encoder_torso_empty; discriminate|].
    destruct (encoder_torso_ok inc N (c :: rest) M g)
      as (il & bs & mid & g3 & Et & _ & _ & Sbs & _ & Pmid & _); [discriminate|].
    rewrite Et.
    destruct (norm_layer norm_type (last (c :: rest) 0)) as [n|]; [|discriminate].
    destruct (nn_Conv3d_ok (last (c :: rest) 0) (lat * 2) 3 1 1 g3)
      as (oc & g4 & Eoc & _).
    rewrite Eoc. intros E; inversion E; subst; clear E.
    assert (Lbs : Forall block_uses_layer_norm bs)
      by (eapply stages_use_layer_norm; [apply down_between_no_norm | eassumption]).
    assert (Lmid : Forall uses_layer_norm mid)
      by (eapply Forall_impl; [|exact Pmid]; intros r [_ L]; exact L).
    split; [|split].
    + unfold encoder_assemble. destruct fp; simpl; [|assumption].
      apply Forall_map_preserved; [apply block_uses_layer_norm_cast | assumption].
    + unfold encoder_assemble. destruct fp; simpl; [|assumption].
      apply Forall_map_preserved; [apply uses_layer_norm_cast | assumption].
    + intros norm_type' e2 g2 E2.
      rewrite SparseStructureEncoder_init_eq, Et in E2.
      destruct (norm_layer norm_type' (last (c :: rest) 0)) as [n'|]; [|discriminate].
      rewrite Eoc in E2. inversion E2; subst; clear E2.
      unfold encoder_assemble. destruct fp; repeat split; reflexivity.
  - intros outc d g'. rewrite SparseStructureDecoder_init_eq.
    destruct channels as [|c rest]; [rewrite decoder_torso_empty; discriminate|].
    destruct (decoder_torso_ok lat N (c :: rest) M g)
      as (il & mid & bs & g3 & Et & _ & _ & Pmid & _ & Sbs & _); [discriminate|].
    rewrite Et.
    destruct (norm_layer norm_type (last (c :: rest) 0)) as [n|]; [|discriminate].
    destruct (nn_Conv3d_ok (last (c :: rest) 0) outc 3 1 1 g3)
      as (oc & g4 & Eoc & _).
    rewrite Eoc. intros E; inversion E; subst; clear E.
    assert (Lbs : Forall block_uses_layer_norm bs)
      by (eapply stages_use_layer_norm; [apply up_between_no_norm | eassumption]).
    assert (Lmid : Forall uses_layer_norm mid)
      by (eapply Forall_impl; [|exact Pmid]; intros r [_ L]; exact L).
    split; [|split].
    + unfold decoder_assemble. destruct fp; simpl; [|assumption].
      apply Forall_map_preserved; [apply block_uses_layer_norm_cast | assumption].
    + unfold decoder_assemble. destruct fp; simpl; [|assumption].
      apply Forall_map_preserved; [apply uses_layer_norm_cast | assumption].
    + intros norm_type' d2 g2 E2.
      rewrite SparseStructureDecoder_init_eq, Et in E2.
      destruct (norm_layer norm_type' (last (c :: rest) 0)) as [n'|]; [|discriminate].
      rewrite Eoc in E2. inversion E2; subst; clear E2.
      unfold decoder_assemble. destruct fp; repeat split; reflexivity.
Qed.

Lemma SparseStructureEncoder_init_ok `{Utils}
  (inc lat N : nat) (channels : list nat) (M : nat) (nt : string)
  (fp ck : bool) (g : rng) (n : NormLayer) :
  channels <> [] ->
  norm_layer nt (last channels 0) = Ok n ->
  exists il bs mid oc g',
    SparseStructureEncoder.init inc lat N channels M nt fp ck g
    = Ok (encoder_assemble inc lat N channels M nt fp ck il bs mid
            (mkOutLayer n oc), g')
    /\ conv_geom il inc (hd 0 channels) 3 1 1
    /\ conv_dtype il = float32
    /\ stages_built down_between channels bs
    /\ all_float32 (flat_map Block_layer_dtypes bs)
    /\ Forall (plain_resblock (last channels 0)) mid
    /\ all_float32 (flat_map ResBlock3d.layer_dtypes mid)
    /\ conv_geom oc (last channels 0) (lat * 2) 3 1 1
    /\ conv_dtype oc = float32.
Proof.
  intros Hne Hn. rewrite SparseStructureEncoder_init_eq.
  destruct (encoder_torso_ok inc N channels M g Hne)
    as (il & bs & mid & g3 & -> & T).
  rewrite Hn.
  destruct (nn_Conv3d_ok (last channels 0) (lat * 2) 3 1 1 g3)
    as (oc & g4 & -> & Goc & Doc).
  exists il, bs, mid, oc, g4. split; [reflexivity|]. tauto.
Qed.

Lemma SparseStructureDecoder_init_ok `{Utils}
  (outc lat N : nat) (channels : list nat) (M : nat) (nt : string)
  (fp ck : bool) (g : rng) (n : NormLayer) :
  channels <> [] ->
  norm_layer nt (last channels 0) = Ok n ->
  exists il mid bs oc g',
    SparseStructureDecoder.init outc lat N channels M nt fp ck g
    = Ok (decoder_assemble outc lat N channels M nt fp ck il mid bs
            (mkOutLayer n oc), g')
    /\ conv_geom il lat (hd 0 channels) 3 1 1
    /\ conv_dtype il = float32
    /\ Forall (plain_resblock (hd 0 channels)) mid
    /\ all_float32 (flat_map ResBlock3d.layer_dtypes mid)
    /\ stages_built up_between channels bs
    /\ all_float32 (flat_map Block_layer_dtypes bs)
    /\ conv_geom oc (last channels 0) outc 3 1 1
    /\ conv_dtype oc = float32.
Proof.
  intros Hne Hn. rewrite SparseStructureDecoder_init_eq.
  destruct (decoder_torso_ok lat N channels M g Hne)
    as (il & mid & bs & g3 & -> & T).
  rewrite Hn.
  destruct (nn_Conv3d_ok (last channels 0) outc 3 1 1 g3)
    as (oc & g4 & -> & Goc & Doc).
  exists il, mid, bs, oc, g4. split; [reflexivity|]. tauto.
Qed.

(** Whatever a constructor returns, it is an assembled module. *)
Lemma SparseStructureEncoder_init_inv `{Utils}
  (inc lat N : nat) (channels : list nat) (M : nat) (nt : string)
  (fp ck : bool) (g g' : rng) (e : SparseStructureEncoder.t) :
  SparseStructureEncoder.init inc lat N channels M nt fp ck g = Ok (e, g') ->
  exists il bs mid n oc,
    e = encoder_assemble inc lat N channels M nt fp ck il bs mid (mkOutLayer n oc)
    /\ channels <> []
    /\ norm_layer nt (last channels 0) = Ok n
    /\ conv_geom il inc (hd 0 channels) 3 1 1
    /\ conv_dtype il = float32
    /\ stages_built down_between channels bs
    /\ all_float32 (flat_map Block_layer_dtypes bs)
    /\ Forall (plain_resblock (last channels 0)) mid
    /\ all_float32 (flat_map ResBlock3d.layer_dtypes mid)
    /\ conv_geom oc (last channels 0) (lat * 2) 3 1 1
    /\ conv_dtype oc = float32.
Proof.
  intros E.
  assert (Hne : channels <> []).
  { intros ->. rewrite SparseStructureEncoder_init_eq, encoder_torso_empty in E.
    discriminate. }
  destruct (norm_layer nt (last channels 0)) as [n|err] eqn:En.
  - destruct (SparseStructureEncoder_init_ok inc lat N channels M nt fp ck g n Hne En)
      as (il & bs & mid & oc & g4 & E' & T).
    rewrite E' in E. inversion E; subst; clear E.
    exists il, bs, mid, n, oc. tauto.
  - rewrite SparseStructureEncoder_init_eq in E.
    destruct (encoder_torso_ok inc N channels M g Hne)
      as (il & bs & mid & g3 & Et & _).
    rewrite Et, En in E. discriminate.
Qed.

Lemma SparseStructureDecoder_init_inv `{Utils}
  (outc lat N : nat) (channels : list nat) (M : nat) (nt : string)
  (fp ck : bool) (g g' : rng) (d : SparseStructureDecoder.t) :
  SparseStructureDecoder.init outc lat N channels M nt fp ck g = Ok (d, g') ->
  exists il mid bs n oc,
    d = decoder_assemble outc lat N channels M nt fp ck il mid bs (mkOutLayer n oc)
    /\ channels <> []
    /\ norm_layer nt (last channels 0) = Ok n
    /\ conv_geom il lat (hd 0 channels) 3 1 1
    /\ conv_dtype il = float32
    /\ Forall (plain_resblock (hd 0 channels)) mid
    /\ all_float32 (flat_map ResBlock3d.layer_dtypes mid)
    /\ stages_built up_between channels bs
    /\ all_float32 (flat_map Block_layer_dtypes bs)
    /\ conv_geom oc (last channels 0) outc 3 1 1
    /\ conv_dtype oc = float32.
Proof.
  intros E.
  assert (Hne : channels <> []).
  { intros ->. rewrite SparseStructureDecoder_init_eq, decoder_torso_empty in E.
    discriminate. }
  destruct (norm_layer nt (last channels 0)) as [n|err] eqn:En.
  - destruct (SparseStructureDecoder_init_ok outc lat N channels M nt fp ck g n Hne En)
      as (il & mid & bs & oc & g4 & E' & T).
    rewrite E' in E. inversion E; subst; clear E.
    exists il, mid, bs, n, oc. tauto.
  - rewrite SparseStructureDecoder_init_eq in E.
    destruct (decoder_torso_ok lat N channels M g Hne)
      as (il & mid & bs & g3 & Et & _).
    rewrite Et, En in E. discriminate.
Qed.

Lemma norm_type_only_reaches_out_layer_witness :
  exists e g',
    @SparseStructureEncoder.init Rational.conv_only 1 8 2 [32; 128; 512] 2
      "group" false false Rational.counting = Ok (e, g')
    /\ Forall block_uses_layer_norm (SparseStructureEncoder.blocks e)
    /\ Forall uses_layer_norm (SparseStructureEncoder.middle_block e).
Proof.
  destruct (@SparseStructureEncoder_init_ok Rational.conv_only 1 8 2
              [32; 128; 512] 2 "group" false false Rational.counting
              (mkNorm cls_GroupNorm32 32 512 float32))
    as (il & bs & mid & oc & g' & E & _); [discriminate | reflexivity |].
  eexists. exists g'. split; [exact E|].
  destruct (proj1 (@norm_type_only_reaches_out_layer Rational.conv_only
                     8 2 [32; 128; 512] 2 "group" false false Rational.counting)
              1 _ _ E) as (A & B & _).
  split; assumption.
Defined.

(** ** Precision conversion *)

Lemma ResBlock3d_apply_dtypes `{Utils} (dt : dtype) (r : ResBlock3d.t) :
  ResBlock3d.layer_dtypes
    (ResBlock3d.apply (mkModuleFn (cast_conv dt) (cast_norm dt)) r)
  = map (cast_entry dt) (ResBlock3d.layer_dtypes r).
Proof.
  unfold ResBlock3d.layer_dtypes, ResBlock3d.apply, cast_entry, cast_norm, cast_conv.
  cbn [on_conv on_norm ResBlock3d.norm1 ResBlock3d.norm2 ResBlock3d.conv1
       ResBlock3d.conv2 ResBlock3d.skip_connection].
  rewrite map_app. cbn [map fst snd].
  destruct (FP16_MODULES (norm_class (ResBlock3d.norm1 r))) eqn:E1;
    destruct (FP16_MODULES (norm_class (ResBlock3d.norm2 r))) eqn:E2;
    destruct (FP16_MODULES cls_Conv3d) eqn:E3;
    destruct (ResBlock3d.skip_connection r);
    cbn [option_map map fst snd norm_class norm_dtype conv_dtype];
    rewrite ?E1, ?E2, ?E3; reflexivity.
Qed.

Lemma Block_apply_dtypes `{Utils} (dt : dtype) (b : Block) :
  Block_layer_dtypes (Block_apply (mkModuleFn (cast_conv dt) (cast_norm dt)) b)
  = map (cast_entry dt) (Block_layer_dtypes b).
Proof.
  destruct b as [r|d|u]; cbn [Block_apply Block_layer_dtypes].
  - apply ResBlock3d_apply_dtypes.
  - unfold DownsampleBlock3d.layer_dtypes, DownsampleBlock3d.apply, cast_entry, cast_conv.
    cbn [DownsampleBlock3d.conv on_conv].
    destruct (DownsampleBlock3d.conv d); cbn [option_map map fst snd]; [|reflexivity].
    destruct (FP16_MODULES cls_Conv3d); reflexivity.
  - unfold UpsampleBlock3d.layer_dtypes, UpsampleBlock3d.apply, cast_entry, cast_conv.
    cbn [UpsampleBlock3d.conv on_conv].
    destruct (UpsampleBlock3d.conv u); cbn [option_map map fst snd]; [|reflexivity].
    destruct (FP16_MODULES cls_Conv3d); reflexivity.
Qed.

Lemma flat_map_map_dtypes {A : Type} (f : A -> A)
  (dts : A -> list (layer_class * dtype))
  (h : layer_class * dtype -> layer_class * dtype) (l : list A) :
  (forall a, dts (f a) = map h (dts a)) ->
  flat_map dts (map f l) = map h (flat_map dts l).
Proof.
  intros Hf. induction l as [|a l IH]; [reflexivity|].
  cbn [map flat_map]. rewrite map_app, Hf, IH. reflexivity.
Qed.

Lemma OutLayer_apply_dtypes `{Utils} (dt : dtype) (o : OutLayer) :
  OutLayer_layer_dtypes (OutLayer_apply (mkModuleFn (cast_conv dt) (cast_norm dt)) o)
  = map (cast_entry dt) (OutLayer_layer_dtypes o).
Proof.
  unfold OutLayer_layer_dtypes, OutLayer_apply, cast_entry, cast_norm, cast_conv.
  cbn [on_conv on_norm out_norm out_conv map fst snd].
  destruct (FP16_MODULES (norm_class (out_norm o))) eqn:E1;
    destruct (FP16_MODULES cls_Conv3d) eqn:E3;
    cbn [norm_class norm_dtype conv_dtype]; rewrite ?E1; reflexivity.
Qed.

Lemma cast_conv_dtype `{Utils} (dt : dtype) (c : Conv3d) :
  conv_dtype (cast_conv dt c)
  = if FP16_MODULES cls_Conv3d then dt else conv_dtype c.
Proof. unfold cast_conv. destruct (FP16_MODULES cls_Conv3d); reflexivity. Qed.

Lemma encoder_convert_torso_dtypes `{Utils} (e : SparseStructureEncoder.t) :
  SparseStructureEncoder.torso_dtypes (SparseStructureEncoder.convert_to_fp16 e)
  = map (cast_entry float16) (SparseStructureEncoder.torso_dtypes e).
Proof.
  unfold SparseStructureEncoder.torso_dtypes, SparseStructureEncoder.convert_to_fp16,
    convert_module_to_f16.
  cbn [SparseStructureEncoder.blocks SparseStructureEncoder.middle_block].
  rewrite map_app.
  rewrite (flat_map_map_dtypes _ _ (cast_entry float16) _ (Block_apply_dtypes float16)).
  rewrite (flat_map_map_dtypes _ _ (cast_entry float16) _ (ResBlock3d_apply_dtypes float16)).
  reflexivity.
Qed.

Lemma decoder_convert_dtypes `{Utils} (d : SparseStructureDecoder.t) :
  SparseStructureDecoder.layer_dtypes (SparseStructureDecoder.convert_to_fp16 d)
  = map (cast_entry float16) (SparseStructureDecoder.layer_dtypes d).
Proof.
  unfold SparseStructureDecoder.layer_dtypes, SparseStructureDecoder.torso_dtypes,
    SparseStructureDecoder.convert_to_fp16, SparseStructureDecoder.apply,
    SparseStructureDecoder.set_precision, convert_module_to_f16.
  cbn [SparseStructureDecoder.blocks SparseStructureDecoder.middle_block
       SparseStructureDecoder.input_layer SparseStructureDecoder.out_layer on_conv].
  cbn [map]. rewrite !map_app.
  rewrite (flat_map_map_dtypes _ _ (cast_entry float16) _ (Block_apply_dtypes float16)).
  rewrite (flat_map_map_dtypes _ _ (cast_entry float16) _ (ResBlock3d_apply_dtypes float16)).
  rewrite OutLayer_apply_dtypes.
  unfold cast_entry at 1. cbn [fst snd]. rewrite cast_conv_dtype. reflexivity.
Qed.

Lemma cast_entry_of_float32 `{Utils} (dt : dtype) (l : list (layer_class * dtype)) :
  all_float32 l ->
  Forall (fun p => snd p = if FP16_MODULES (fst p) then dt else float32)
         (map (cast_entry dt) l).
Proof.
  intros Hl. apply Forall_map. eapply Forall_impl; [|exact Hl].
  intros [c d]. cbn [fst snd cast_entry]. intros ->. reflexivity.
Qed.

(** C5: [SparseStructureEncoder.convert_to_fp16] casts the staged blocks and
    the middle stack and leaves [input_layer] and [out_layer] as they are, in
    float32 for a module built in float32; [SparseStructureDecoder.convert_to_fp16]
    casts every layer of the module, its input and output projections
    included. *)
Theorem convert_to_fp16_scope `{Utils} :
  (forall e : SparseStructureEncoder.t,
      let e' := SparseStructureEncoder.convert_to_fp16 e in
      SparseStructureEncoder.input_layer e' = SparseStructureEncoder.input_layer e
      /\ SparseStructureEncoder.out_layer e' = SparseStructureEncoder.out_layer e
      /\ SparseStructureEncoder.torso_dtypes e'
         = map (cast_entry float16) (SparseStructureEncoder.torso_dtypes e))
  /\ (forall d : SparseStructureDecoder.t,
         SparseStructureDecoder.layer_dtypes (SparseStructureDecoder.convert_to_fp16 d)
         = map (cast_entry float16) (SparseStructureDecoder.layer_dtypes d))
  /\ (forall inc lat N channels M nt ck g e g',
         SparseStructureEncoder.init inc lat N channels M nt false ck g = Ok (e, g') ->
         let e' := SparseStructureEncoder.convert_to_fp16 e in
         conv_dtype (SparseStructureEncoder.input_layer e') = float32
         /\ all_float32 (OutLayer_layer_dtypes (SparseStructureEncoder.out_layer e'))
         /\ Forall (fun p => snd p = if FP16_MODULES (fst p) then float16 else float32)
                   (SparseStructureEncoder.torso_dtypes e'))
  /\ (forall outc lat N channels M nt ck g d g',
         SparseStructureDecoder.init outc lat N channels M nt false ck g = Ok (d, g') ->
         let d' := SparseStructureDecoder.convert_to_fp16 d in
         Forall (fun p => snd p = if FP16_MODULES (fst p) then float16 else float32)
                (SparseStructureDecoder.layer_dtypes d')
         /\ conv_dtype (SparseStructureDecoder.input_layer d')
            = (if FP16_MODULES cls_Conv3d then float16 else float32)
         /\ conv_dtype (out_conv (SparseStructureDecoder.out_layer d'))
            = (if FP16_MODULES cls_Conv3d then float16 else float32)).
Proof.
  split; [|split; [|split]].
  - intros e e'. subst e'. split; [reflexivity|]. split; [reflexivity|].
    apply encoder_convert_torso_dtypes.
  - apply decoder_convert_dtypes.
  - intros inc lat N channels M nt ck g e g' E e'. subst e'.
    apply SparseStructureEncoder_init_inv in E
      as (il & bs & mid & n & oc & -> & _ & En & _ & Dil & _ & Fbs & _ & Fmid & _ & Doc).
    apply norm_layer_inv in En as (_ & Dn & _).
    split; [exact Dil|]. split.
    + unfold all_float32, OutLayer_layer_dtypes. cbn. repeat constructor; assumption.
    + rewrite encoder_convert_torso_dtypes. apply cast_entry_of_float32.
      unfold SparseStructureEncoder.torso_dtypes. cbn.
      apply all_float32_app; assumption.
  - intros outc lat N channels M nt ck g d g' E d'. subst d'.
    apply SparseStructureDecoder_init_inv in E
      as (il & mid & bs & n & oc & -> & _ & En & _ & Dil & _ & Fmid & _ & Fbs & _ & Doc).
    apply norm_layer_inv in En as (_ & Dn & _).
    split; [|split].
    + rewrite decoder_convert_dtypes. apply cast_entry_of_float32.
      unfold SparseStructureDecoder.layer_dtypes, SparseStructureDecoder.torso_dtypes.
      cbn. constructor; [exact Dil|].
      apply all_float32_app; [apply all_float32_app; assumption|].
      repeat constructor; assumption.
    + cbn. rewrite cast_conv_dtype, Dil. reflexivity.
    + cbn. rewrite cast_conv_dtype, Doc. reflexivity.
Qed.

Lemma convert_to_fp16_scope_witness :
  exists e g1 d g2,
    @SparseStructureEncoder.init Rational.conv_only 1 8 2 [32; 128; 512] 2
      "layer" false false Rational.counting = Ok (e, g1)
    /\ @SparseStructureDecoder.init Rational.conv_only 1 8 2 [512; 128; 32] 2
         "layer" false false Rational.counting = Ok (d, g2)
    /\ conv_dtype (SparseStructureEncoder.input_layer
                     (@SparseStructureEncoder.convert_to_fp16 Rational.conv_only e))
       = float32
    /\ Forall (fun p => fst p = cls_Conv3d -> snd p = float16)
         (SparseStructureEncoder.torso_dtypes
            (@SparseStructureEncoder.convert_to_fp16 Rational.conv_only e))
    /\ conv_dtype (SparseStructureDecoder.input_layer
                     (@SparseStructureDecoder.convert_to_fp16 Rational.conv_only d))
       = float16.
Proof.
  destruct (@SparseStructureEncoder_init_ok Rational.conv_only 1 8 2
              [32; 128; 512] 2 "layer" false false Rational.counting
              (mkNorm cls_ChannelLayerNorm32 1 512 float32))
    as (il & bs & mid & oc & g1 & E & _); [discriminate | reflexivity |].
  destruct (@SparseStructureDecoder_init_ok Rational.conv_only 1 8 2
              [512; 128; 32] 2 "layer" false false Rational.counting
              (mkNorm cls_ChannelLayerNorm32 1 32 float32))
    as (il' & mid' & bs' & oc' & g2 & D & _); [discriminate | reflexivity |].
  eexists. exists g1. eexists. exists g2.
  split; [exact E|]. split; [exact D|].
  destruct (@convert_to_fp16_scope Rational.conv_only) as (_ & _ & He & Hd).
  split; [|split].
  - exact (proj1 (He _ _ _ _ _ _ _ _ _ _ E)).
  - eapply Forall_impl; [|exact (proj2 (proj2 (He _ _ _ _ _ _ _ _ _ _ E)))].
    intros [c dt]. cbn [fst snd]. intros Hdt Hc. rewrite Hdt, Hc. reflexivity.
  - exact (proj1 (proj2 (Hd _ _ _ _ _ _ _ _ _ _ D))).
Defined.

Lemma cast_entry_twice `{Utils} (a b : dtype) (p : layer_class * dtype) :
  cast_entry a (cast_entry b p) = cast_entry a p.
Proof.
  destruct p as [c d]. unfold cast_entry. cbn [fst snd].
  destruct (FP16_MODULES c); reflexivity.
Qed.

Lemma decoder_fp32_torso_dtypes `{Utils} (d : SparseStructureDecoder.t) :
  SparseStructureDecoder.torso_dtypes (SparseStructureDecoder.convert_to_fp32 d)
  = map (cast_entry float32) (SparseStructureDecoder.torso_dtypes d).
Proof.
  unfold SparseStructureDecoder.torso_dtypes, SparseStructureDecoder.convert_to_fp32,
    SparseStructureDecoder.set_precision, convert_module_to_f32.
  cbn [SparseStructureDecoder.blocks SparseStructureDecoder.middle_block].
  rewrite map_app.
  rewrite (flat_map_map_dtypes _ _ (cast_entry float32) _ (Block_apply_dtypes float32)).
  rewrite (flat_map_map_dtypes _ _ (cast_entry float32) _ (ResBlock3d_apply_dtypes float32)).
  reflexivity.
Qed.

Lemma decoder_fp16_torso_dtypes `{Utils} (d : SparseStructureDecoder.t) :
  SparseStructureDecoder.torso_dtypes (SparseStructureDecoder.convert_to_fp16 d)
  = map (cast_entry float16) (SparseStructureDecoder.torso_dtypes d).
Proof.
  unfold SparseStructureDecoder.torso_dtypes, SparseStructureDecoder.convert_to_fp16,
    SparseStructureDecoder.apply, SparseStructureDecoder.set_precision,
    convert_module_to_f16.
  cbn [SparseStructureDecoder.blocks SparseStructureDecoder.middle_block].
  rewrite map_app.
  rewrite (flat_map_map_dtypes _ _ (cast_entry float16) _ (Block_apply_dtypes float16)).
  rewrite (flat_map_map_dtypes _ _ (cast_entry float16) _ (ResBlock3d_apply_dtypes float16)).
  reflexivity.
Qed.

(** C10: on a decoder, [convert_to_fp16] followed by [convert_to_fp32] brings
    the staged blocks and the middle stack back to float32 and leaves the
    parameters of [input_layer] and of the convolution of [out_layer] in
    float16, while the module records float32; for a module whose input
    projection was in float32 the round trip is therefore not the identity on
    the precisions. *)
Theorem fp16_then_fp32_leaves_projections_in_fp16 `{Utils}
  (d : SparseStructureDecoder.t) :
  FP16_MODULES cls_Conv3d = true ->
  let d' := SparseStructureDecoder.convert_to_fp32
              (SparseStructureDecoder.convert_to_fp16 d) in
  conv_dtype (SparseStructureDecoder.input_layer d') = float16
  /\ conv_dtype (out_conv (SparseStructureDecoder.out_layer d')) = float16
  /\ SparseStructureDecoder.torso_dtypes d'
     = map (cast_entry float32) (SparseStructureDecoder.torso_dtypes d)
  /\ SparseStructureDecoder.use_fp16 d' = false
  /\ SparseStructureDecoder.dtype_ d' = float32
  /\ (conv_dtype (SparseStructureDecoder.input_layer d) = float32 ->
      SparseStructureDecoder.layer_dtypes d' <> SparseStructureDecoder.layer_dtypes d).
Proof.
  intros Hconv d'. subst d'.
  assert (Hin : conv_dtype (SparseStructureDecoder.input_layer
                  (SparseStructureDecoder.convert_to_fp32
                     (SparseStructureDecoder.convert_to_fp16 d))) = float16).
  { cbn. rewrite cast_conv_dtype, Hconv. reflexivity. }
  split; [exact Hin|]. split.
  { cbn. rewrite cast_conv_dtype, Hconv. reflexivity. }
  split.
  { rewrite decoder_fp32_torso_dtypes, decoder_fp16_torso_dtypes, map_map.
    apply map_ext. intros p. apply cast_entry_twice. }
  split; [reflexivity|]. split; [reflexivity|].
  intros H32 Heq.
  apply (f_equal (fun l => snd (hd (cls_Conv3d, float32) l))) in Heq.
  unfold SparseStructureDecoder.layer_dtypes in Heq. cbn [hd snd] in Heq.
  rewrite Hin, H32 in Heq. discriminate.
Qed.

Lemma fp16_then_fp32_leaves_projections_in_fp16_witness :
  exists d g',
    @SparseStructureDecoder.init Rational.conv_only 1 8 2 [512; 128; 32] 2
      "layer" false false Rational.counting = Ok (d, g')
    /\ conv_dtype (SparseStructureDecoder.input_layer
                     (@SparseStructureDecoder.convert_to_fp32 Rational.conv_only
                        (@SparseStructureDecoder.convert_to_fp16 Rational.conv_only d)))
       = float16
    /\ SparseStructureDecoder.layer_dtypes
         (@SparseStructureDecoder.convert_to_fp32 Rational.conv_only
            (@SparseStructureDecoder.convert_to_fp16 Rational.conv_only d))
       <> SparseStructureDecoder.layer_dtypes d.
Proof.
  destruct (@SparseStructureDecoder_init_ok Rational.conv_only 1 8 2
              [512; 128; 32] 2 "layer" false false Rational.counting
              (mkNorm cls_ChannelLayerNorm32 1 32 float32))
    as (il & mid & bs & oc & g' & D & _ & Dil & _); [discriminate | reflexivity |].
  eexists. exists g'. split; [exact D|].
  pose proof (@fp16_then_fp32_leaves_projections_in_fp16 Rational.conv_only
                (@decoder_assemble Rational.conv_only 1 8 2 [512; 128; 32] 2
                   "layer" false false il mid bs
                   (mkOutLayer (mkNorm cls_ChannelLayerNorm32 1 32 float32) oc))
                eq_refl) as (A & _ & _ & _ & _ & B).
  split; [exact A | apply B; exact Dil].
Defined.

(** ** The latent coefficients *)

(** C4: [latents_scale] and [latents_shift] are stored by the constructor and
    read by no method: two instances that differ only in these two fields
    give equal results in [encode], [forward], [decode_mesh] and
    [dense2mesh]. *)
Theorem latents_coefficients_never_applied
  `{Utils} `{Numerics} `{Distributions} `{Skimage} :
  (forall embed_dim ce cd ne nme nd nmd inc outc fp ck s1 h1 s2 h2 g v1 g1 v2 g2,
      DenseShapeVAE.init embed_dim ce cd ne nme nd nmd inc outc fp ck s1 h1 g
      = Ok (v1, g1) ->
      DenseShapeVAE.init embed_dim ce cd ne nme nd nmd inc outc fp ck s2 h2 g
      = Ok (v2, g2) ->
      DenseShapeVAE.latents_scale v1 = s1
      /\ DenseShapeVAE.latents_shift v1 = h1
      /\ DenseShapeVAE.encoder v1 = DenseShapeVAE.encoder v2
      /\ DenseShapeVAE.decoder v1 = DenseShapeVAE.decoder v2)
  /\ (forall v1 v2 : DenseShapeVAE.t,
         DenseShapeVAE.encoder v1 = DenseShapeVAE.encoder v2 ->
         DenseShapeVAE.decoder v1 = DenseShapeVAE.decoder v2 ->
         (forall batch sample_posterior g,
             DenseShapeVAE.encode v1 batch sample_posterior g
             = DenseShapeVAE.encode v2 batch sample_posterior g)
         /\ (forall batch g,
                DenseShapeVAE.forward v1 batch g = DenseShapeVAE.forward v2 batch g)
         /\ (forall latents voxel_resolution mc_threshold return_index,
                DenseShapeVAE.decode_mesh v1 latents voxel_resolution mc_threshold
                  return_index
                = DenseShapeVAE.decode_mesh v2 latents voxel_resolution mc_threshold
                    return_index)
         /\ (forall x voxel_resolution mc_threshold,
                DenseShapeVAE.dense2mesh v1 x voxel_resolution mc_threshold
                = DenseShapeVAE.dense2mesh v2 x voxel_resolution mc_threshold)).
Proof.
  split.
  - intros embed_dim ce cd ne nme nd nmd inc outc fp ck s1 h1 s2 h2 g v1 g1 v2 g2.
    unfold DenseShapeVAE.init, cbind, cret.
    destruct (SparseStructureEncoder.init inc embed_dim ne ce nme default_norm_type
                fp ck g) as [[enc ge]|]; [|discriminate].
    destruct (SparseStructureDecoder.init outc embed_dim nd cd nmd default_norm_type
                fp ck ge) as [[dec gd]|]; [|discriminate].
    intros E1 E2. inversion E1; subst; clear E1. inversion E2; subst; clear E2.
    repeat split.
  - intros v1 v2 He Hd.
    assert (Henc : forall batch sp g,
               DenseShapeVAE.encode v1 batch sp g = DenseShapeVAE.encode v2 batch sp g).
    { intros. unfold DenseShapeVAE.encode. rewrite He. reflexivity. }
    assert (Hmesh : forall x R t,
               DenseShapeVAE.dense2mesh v1 x R t = DenseShapeVAE.dense2mesh v2 x R t).
    { intros. reflexivity. }
    split; [exact Henc|]. split; [|split; [|exact Hmesh]].
    + intros. unfold DenseShapeVAE.forward. rewrite Henc, Hd. reflexivity.
    + intros. unfold DenseShapeVAE.decode_mesh. rewrite Hd.
      destruct (SparseStructureDecoder.forward (DenseShapeVAE.decoder v2) latents);
        cbn [rbind]; [|reflexivity].
      destruct return_index; [reflexivity|]. rewrite Hmesh. reflexivity.
Qed.

Lemma latents_coefficients_never_applied_witness :
  (exists v1 g1 v2 g2,
      @DenseShapeVAE.init Rational.conv_only 1 [1] [1] 0 0 0 0 1 1 false false 1 0
        Rational.ones = Ok (v1, g1)
      /\ @DenseShapeVAE.init Rational.conv_only 1 [1] [1] 0 0 0 0 1 1 false false
           (3 # 2) (1 # 5) Rational.ones = Ok (v2, g2)
      /\ DenseShapeVAE.latents_scale v1 = 1%Q
      /\ DenseShapeVAE.encoder v1 = DenseShapeVAE.encoder v2)
  /\ @DenseShapeVAE.forward Rational.numerics Rational.distributions
       Rational.tiny_vae [("dense_index"%string, Rational.full [1; 1; 2; 2; 2] 1)]
       Rational.counting
     = @DenseShapeVAE.forward Rational.numerics Rational.distributions
         (DenseShapeVAE.mk false (3 # 2) (1 # 5) Rational.tiny_encoder
            Rational.tiny_decoder 1)
         [("dense_index"%string, Rational.full [1; 1; 2; 2; 2] 1)]
         Rational.counting.
Proof.
  destruct (@latents_coefficients_never_applied Rational.conv_only Rational.numerics
              Rational.distributions Rational.skimage) as (Hinit & Hsame).
  split.
  - eexists. eexists. eexists. eexists.
    split; [vm_compute; reflexivity|]. split; [vm_compute; reflexivity|].
    pose proof (Hinit 1 [1] [1] 0 0 0 0 1 1 false false 1%Q 0%Q (3 # 2)%Q (1 # 5)%Q
                  Rational.ones) as Hi.
    refine (let H := Hi _ _ _ _ _ _ in conj (proj1 H) (proj1 (proj2 (proj2 H))));
      vm_compute; reflexivity.
  - exact (proj1 (proj2 (Hsame Rational.tiny_vae
                           (DenseShapeVAE.mk false (3 # 2) (1 # 5) Rational.tiny_encoder
                              Rational.tiny_decoder 1) eq_refl eq_refl)) _ _).
Defined.

(** ** Tensors: indices and entries *)

Lemma in_indices (s idx : list nat) :
  In idx (indices s) <-> Forall2 lt idx s.
Proof.
  revert idx. induction s as [|n s IH]; intros idx; cbn [indices].
  - split.
    + intros [<- | []]. constructor.
    + intros F. inversion F. left. reflexivity.
  - rewrite in_flat_map. split.
    + intros (i & Hi & Hidx). apply in_seq in Hi.
      apply in_map_iff in Hidx as (rest & <- & Hrest).
      constructor; [lia | apply IH; assumption].
    + intros F. inversion F as [|i n' rest s' Hlt Hrest]; subst.
      exists i. split; [apply in_seq; lia|].
      apply in_map. apply IH. assumption.
Qed.


Lemma ravel_lt (s idx : list nat) :
  Forall2 lt idx s -> ravel s idx < numel s.
Proof.
  intros F. induction F as [|i n idx s Hlt _ IH]; cbn [ravel numel fold_right].
  - lia.
  - fold (numel s). nia.
Qed.

Lemma nth_map_in_range {A B : Type} (f : A -> B) (l : list A) (i : nat) (da : A) (db : B) :
  i < length l -> nth i (map f l) db = f (nth i l da).
Proof.
  intros Hi. rewrite (nth_indep (map f l) db (f da)) by (rewrite length_map; exact Hi).
  apply map_nth.
Qed.

Lemma tget_tmap (f : Q -> Q) (t : tensor) (idx : list nat) :
  tensor_wf t -> Forall2 lt idx (shape t) ->
  tget (tmap f t) idx = f (tget t idx).
Proof.
  intros Hwf Hidx. unfold tget, tmap. cbn [shape data].
  apply nth_map_in_range. rewrite Hwf. apply ravel_lt. exact Hidx.
Qed.

Lemma tmap_wf (f : Q -> Q) (t : tensor) : tensor_wf t -> tensor_wf (tmap f t).
Proof. unfold tensor_wf, tmap. cbn [shape data]. rewrite length_map. auto. Qed.

Lemma ge_float_entry (threshold : Q) (t : tensor) (idx : list nat) :
  tensor_wf t -> Forall2 lt idx (shape t) ->
  tget (ge_float threshold t) idx
  = if Qle_bool threshold (tget t idx) then 1%Q else 0%Q.
Proof. intros. unfold ge_float. apply tget_tmap; assumption. Qed.

(** [squeeze(0)] then [unsqueeze(0)] on an item with one channel gives the
    item back. *)
Lemma unsqueeze0_squeeze0 (t : tensor) (s : list nat) :
  shape t = 1 :: s -> unsqueeze0 (squeeze0 t) = t.
Proof.
  destruct t as [sh d]. cbn [shape]. intros ->. reflexivity.
Qed.

Lemma tget_squeeze0 (t : tensor) (s idx : list nat) :
  shape t = 1 :: s -> tget (squeeze0 t) idx = tget t (0 :: idx).
Proof.
  destruct t as [sh d]. cbn [shape]. intros ->.
  unfold tget, squeeze0. cbn [shape data ravel]. reflexivity.
Qed.

(** ** The two thresholds *)

Lemma mapM_ext_in {A B : Type} (f f' : A -> result B) (l : list A) :
  (forall a, In a l -> f a = f' a) -> mapM f l = mapM f' l.
Proof.
  induction l as [|a l IH]; intros Hf; [reflexivity|].
  cbn [mapM]. rewrite (Hf a (or_introl eq_refl)).
  rewrite IH by (intros b Hb; apply Hf; right; exact Hb). reflexivity.
Qed.

Lemma occupancy_index_spec `{Numerics} (t : Q) (xi : tensor) (s idx : list nat) :
  tensor_wf xi -> shape xi = 1 :: s ->
  In idx (DenseShapeVAE.occupancy_index t xi)
  <-> Forall2 lt idx (shape xi) /\ (t <= sigmoid (tget xi idx))%Q.
Proof.
  intros Hwf Hs. unfold DenseShapeVAE.occupancy_index.
  rewrite (unsqueeze0_squeeze0 _ s) by exact Hs.
  unfold nonzero. rewrite filter_In, in_indices.
  change (shape (ge_float t (tmap sigmoid xi))) with (shape xi).
  split.
  - intros [Hidx Hnz]. split; [exact Hidx|].
    rewrite ge_float_entry in Hnz by (try apply tmap_wf; assumption).
    rewrite tget_tmap in Hnz by assumption.
    apply Qle_bool_iff.
    destruct (Qle_bool t (sigmoid (tget xi idx))); [reflexivity | discriminate].
  - intros [Hidx Hle]. split; [exact Hidx|].
    rewrite ge_float_entry by (try apply tmap_wf; assumption).
    rewrite tget_tmap by assumption.
    apply Qle_bool_iff in Hle. rewrite Hle. reflexivity.
Qed.

Lemma mesh_occupancy_spec `{Numerics} (xi : tensor) (s : list nat) :
  tensor_wf xi -> shape xi = 1 :: s ->
  shape (DenseShapeVAE.mesh_occupancy xi) = s
  /\ forall idx, Forall2 lt idx s ->
       tget (DenseShapeVAE.mesh_occupancy xi) idx
       = if Qle_bool (1 # 10) (sigmoid (tget xi (0 :: idx))) then 1%Q else 0%Q.
Proof.
  intros Hwf Hs. unfold DenseShapeVAE.mesh_occupancy.
  assert (Hs' : shape (ge_float (1 # 10) (tmap sigmoid xi)) = 1 :: s) by exact Hs.
  split.
  - unfold squeeze0. rewrite Hs'. reflexivity.
  - intros idx Hidx. rewrite (tget_squeeze0 _ s) by exact Hs'.
    assert (Hidx' : Forall2 lt (0 :: idx) (shape xi))
      by (rewrite Hs; constructor; [lia | exact Hidx]).
    rewrite ge_float_entry by (try apply tmap_wf; assumption).
    rewrite tget_tmap by assumption. reflexivity.
Qed.

Lemma squeeze0_noop (t : tensor) :
  (forall s, shape t <> 1 :: s) -> squeeze0 t = t.
Proof.
  intros Hs. unfold squeeze0.
  destruct (shape t) as [|[|[|n]] s] eqn:E; try reflexivity.
  exfalso. apply (Hs s). reflexivity.
Qed.

Lemma tget_unsqueeze0 (t : tensor) (idx : list nat) :
  tget (unsqueeze0 t) (0 :: idx) = tget t idx.
Proof. unfold tget, unsqueeze0. cbn [shape data ravel]. reflexivity. Qed.

Lemma in_indices_leading_one (s idx : list nat) :
  In idx (indices (1 :: s)) <-> exists idx', idx = 0 :: idx' /\ Forall2 lt idx' s.
Proof.
  rewrite in_indices. split.
  - intros F. inversion F as [|i n idx' s' Hi F']; subst.
    exists idx'. split; [f_equal; lia | exact F'].
  - intros (idx' & -> & F). constructor; [lia | exact F].
Qed.

(** With several channels [squeeze(0)] changes nothing and every index
    starts with the axis that [unsqueeze(0)] adds. *)
Lemma occupancy_index_spec_channels `{Numerics} (t : Q) (xi : tensor) (idx : list nat) :
  tensor_wf xi -> (forall s, shape xi <> 1 :: s) ->
  In idx (DenseShapeVAE.occupancy_index t xi)
  <-> exists idx', idx = 0 :: idx' /\ Forall2 lt idx' (shape xi)
                   /\ (t <= sigmoid (tget xi idx'))%Q.
Proof.
  intros Hwf Hs. unfold DenseShapeVAE.occupancy_index.
  rewrite squeeze0_noop by exact Hs.
  unfold nonzero. rewrite filter_In.
  change (shape (unsqueeze0 (ge_float t (tmap sigmoid xi)))) with (1 :: shape xi).
  rewrite in_indices_leading_one.
  split.
  - intros [(idx' & -> & Hidx) Hnz]. exists idx'. split; [reflexivity|].
    split; [exact Hidx|].
    rewrite tget_unsqueeze0 in Hnz.
    rewrite ge_float_entry in Hnz by (try apply tmap_wf; assumption).
    rewrite tget_tmap in Hnz by assumption.
    apply Qle_bool_iff.
    destruct (Qle_bool t (sigmoid (tget xi idx'))); [reflexivity | discriminate].
  - intros (idx' & -> & Hidx & Hle). split; [exists idx'; auto|].
    rewrite tget_unsqueeze0.
    rewrite ge_float_entry by (try apply tmap_wf; assumption).
    rewrite tget_tmap by assumption.
    apply Qle_bool_iff in Hle. rewrite Hle. reflexivity.
Qed.



(** ** The range of the mesh vertices *)

Lemma mapM_inv {A B : Type} (f : A -> result B) (l : list A) (ys : list B) :
  mapM f l = Ok ys -> Forall2 (fun a y => f a = Ok y) l ys.
Proof.
  revert ys. induction l as [|a l IH]; intros ys; cbn [mapM].
  - intros E; inversion E; subst. constructor.
  - destruct (f a) as [b|] eqn:Ea; [|discriminate].
    destruct (mapM f l) as [bs|]; [|discriminate].
    intros E; inversion E; subst. constructor; [exact Ea | apply IH; reflexivity].
Qed.

Lemma rescale_in_unit (R : Z) (n : nat) (q : Q) :
  (0 < R)%Z -> (Z.of_nat n <= R + 1)%Z ->
  (0 <= q)%Q -> (q + 1 <= inject_Z (Z.of_nat n))%Q ->
  coord_in_unit (rescale R q).
Proof.
  intros HR Hn H0 H1. unfold rescale.
  destruct (Z.eqb_spec R 0) as [->|_]; [lia|].
  cbn [coord_in_unit].
  assert (Hr : (0 < inject_Z R)%Q).
  { change 0%Q with (inject_Z 0). rewrite <- Zlt_Qlt. exact HR. }
  assert (Hn' : (inject_Z (Z.of_nat n) <= inject_Z R + 1)%Q).
  { change 1%Q with (inject_Z 1). rewrite <- inject_Z_plus, <- Zle_Qle. exact Hn. }
  assert (Hq : (q <= inject_Z R)%Q) by lra.
  assert (Hd0 : (0 <= q / inject_Z R)%Q).
  { apply Qle_shift_div_l; [exact Hr|]. lra. }
  assert (Hd1 : (q / inject_Z R <= 1)%Q).
  { apply Qle_shift_div_r; [exact Hr|]. lra. }
  set (y := (q / inject_Z R)%Q) in *. split; lra.
Qed.

Lemma vertex_rescaled_in_unit (R : Z) (s : list nat) (v : list Q) :
  (0 < R)%Z ->
  Forall (fun n => (Z.of_nat n <= R + 1)%Z) s ->
  vertex_in_volume s v ->
  Forall coord_in_unit (map (rescale R) v).
Proof.
  intros HR Hs Hv. unfold vertex_in_volume in Hv.
  induction Hv as [|n q s v [H0 H1] _ IH]; cbn [map]; [constructor|].
  inversion Hs; subst. constructor.
  - eapply rescale_in_unit; eassumption.
  - apply IH. assumption.
Qed.

(** C8, amended: when the voxel resolution [R] is positive and no axis of the
    grid handed to the marching cubes is longer than [R + 1] (in particular
    when the grid is [R] voxels wide), every vertex coordinate of every mesh
    returned by [dense2mesh], rescaled as [v / R * 2 - 1], lies in [-1, 1]. *)
Theorem dense2mesh_vertices_in_unit_cube `{Numerics} `{Skimage}
  (v : DenseShapeVAE.t) (x : tensor) (voxel_resolution : Z) (mc_threshold : Q)
  (meshes : list Trimesh) :
  marching_cubes_in_volume ->
  (0 < voxel_resolution)%Z ->
  (forall i, i < tlen x ->
     Forall (fun n => (Z.of_nat n <= voxel_resolution + 1)%Z)
            (shape (DenseShapeVAE.mesh_occupancy (titem x i)))) ->
  DenseShapeVAE.dense2mesh v x voxel_resolution mc_threshold = Ok meshes ->
  vertices_in_unit_cube meshes.
Proof.
  intros Hmc HR Hdims E. unfold DenseShapeVAE.dense2mesh in E.
  apply mapM_inv in E. unfold vertices_in_unit_cube.
  assert (Hseq : Forall (fun i => i < tlen x) (seq 0 (tlen x))).
  { apply Forall_forall. intros i Hi. apply in_seq in Hi. lia. }
  induction E as [|i m more ms Ei _ IH]; [constructor|].
  inversion Hseq as [|? ? Hi Hrest]; subst.
  constructor; [|apply IH; exact Hrest].
  destruct (marching_cubes (DenseShapeVAE.mesh_occupancy (titem x i)) mc_threshold)
    as [[vs fs]|] eqn:Em; cbn [rbind] in Ei; [|discriminate].
  inversion Ei; subst; clear Ei. cbn [vertices].
  apply Forall_map. specialize (Hmc _ _ _ _ Em).
  eapply Forall_impl; [|exact Hmc].
  intros vert Hvert.
  apply (vertex_rescaled_in_unit voxel_resolution
           (shape (DenseShapeVAE.mesh_occupancy (titem x i))));
    [exact HR | apply Hdims; exact Hi | exact Hvert].
Qed.

(** The small extractor keeps its vertices inside the volume. *)
Lemma Qnat_bounds (d D : nat) :
  d < D -> (0 <= Rational.Qnat d)%Q /\ (Rational.Qnat d + 1 <= Rational.Qnat D)%Q.
Proof.
  intros Hd. unfold Rational.Qnat. split.
  - change 0%Q with (inject_Z 0). rewrite <- Zle_Qle. lia.
  - change 1%Q with (inject_Z 1). rewrite <- inject_Z_plus, <- Zle_Qle. lia.
Qed.

Lemma Qnat_half_bounds (d D : nat) :
  S d < D ->
  (0 <= Rational.Qnat d + Rational.half)%Q
  /\ (Rational.Qnat d + Rational.half + 1 <= Rational.Qnat D)%Q.
Proof.
  intros Hd. unfold Rational.Qnat, Rational.half.
  assert (H0 : (0 <= inject_Z (Z.of_nat d))%Q).
  { change 0%Q with (inject_Z 0). rewrite <- Zle_Qle. lia. }
  assert (H2 : (inject_Z (Z.of_nat d) + 2 <= inject_Z (Z.of_nat D))%Q).
  { change 2%Q with (inject_Z 2). rewrite <- inject_Z_plus, <- Zle_Qle. lia. }
  split; lra.
Qed.

Lemma rational_marching_cubes_in_volume :
  @marching_cubes_in_volume Rational.skimage.
Proof.
  unfold marching_cubes_in_volume. cbn [marching_cubes Rational.skimage].
  intros vol level vs fs. unfold Rational.marching_cubes.
  destruct (shape vol) as [|D [|H [|W [|? ?]]]] eqn:Es; try discriminate.
  destruct ((D <? 2) || (H <? 2) || (W <? 2)); [discriminate|].
  destruct (negb _); [discriminate|].
  intros E.
  assert (Hvs : vs = flat_map (Rational.edge_vertices vol level) (indices [D; H; W]))
    by congruence.
  clear E. subst vs.
  apply Forall_forall. intros vert Hvert.
  apply in_flat_map in Hvert as (idx & Hidx & Hvert).
  apply in_indices in Hidx.
  inversion Hidx as [|d D' r1 s1 Hd F1]; subst.
  inversion F1 as [|h H' r2 s2 Hh F2]; subst.
  inversion F2 as [|w W' r3 s3 Hw F3]; subst.
  inversion F3; subst.
  unfold Rational.edge_vertices in Hvert. rewrite Es in Hvert.
  pose proof (Qnat_bounds d D Hd) as Bd.
  pose proof (Qnat_bounds h H Hh) as Bh.
  pose proof (Qnat_bounds w W Hw) as Bw.
  unfold vertex_in_volume.
  repeat (apply in_app_or in Hvert as [Hvert|Hvert]).
  - destruct (Nat.ltb_spec (S d) D) as [Hs|]; cbn [andb] in Hvert; [|contradiction].
    destruct (Rational.straddles _ _ _); [|contradiction].
    destruct Hvert as [<-|[]].
    repeat constructor; try tauto; apply (Qnat_half_bounds d D Hs).
  - destruct (Nat.ltb_spec (S h) H) as [Hs|]; cbn [andb] in Hvert; [|contradiction].
    destruct (Rational.straddles _ _ _); [|contradiction].
    destruct Hvert as [<-|[]].
    repeat constructor; try tauto; apply (Qnat_half_bounds h H Hs).
  - destruct (Nat.ltb_spec (S w) W) as [Hs|]; cbn [andb] in Hvert; [|contradiction].
    destruct (Rational.straddles _ _ _); [|contradiction].
    destruct Hvert as [<-|[]].
    repeat constructor; try tauto; apply (Qnat_half_bounds w W Hs).
Qed.

Example tiny_vae_is_constructed :
  match @DenseShapeVAE.init Rational.conv_only 1 [1] [1] 0 0 0 0 1 1 false false 1 0
          Rational.ones with
  | Ok (v, _) => v = Rational.tiny_vae
  | Raise _ => False
  end.
Proof. vm_compute. reflexivity. Qed.

Lemma dense2mesh_vertices_in_unit_cube_witness :
  exists meshes,
    @DenseShapeVAE.dense2mesh Rational.numerics Rational.skimage
      Rational.tiny_vae Rational.slab 4 (1 # 2) = Ok meshes
    /\ vertices_in_unit_cube meshes.
Proof.
  eexists. split; [vm_compute; reflexivity|].
  apply (@dense2mesh_vertices_in_unit_cube Rational.numerics Rational.skimage
           Rational.tiny_vae Rational.slab 4 (1 # 2)).
  - exact rational_marching_cubes_in_volume.
  - lia.
  - intros i Hi. vm_compute in Hi.
    assert (i = 0) as -> by lia.
    vm_compute. repeat constructor; discriminate.
  - vm_compute. reflexivity.
Defined.

(** C8 as stated fails: [voxel_resolution] is an argument of its own, and a
    grid longer than it is rescaled beyond 1.  A 4x2x2 grid extracted with
    [voxel_resolution = 2] has a vertex at depth 2.5, which becomes 1.5. *)
Lemma dense2mesh_vertex_range_counterexample :
  @marching_cubes_in_volume Rational.skimage
  /\ @DenseShapeVAE.dense2mesh Rational.numerics Rational.skimage
       Rational.tiny_vae Rational.slab 2 (1 # 2)
     = Ok [mkTrimesh
             [[Finite (6 # 4); Finite (-2 # 2); Finite (-2 # 2)];
              [Finite (6 # 4); Finite (-2 # 2); Finite (0 # 2)];
              [Finite (6 # 4); Finite (0 # 2); Finite (-2 # 2)];
              [Finite (6 # 4); Finite (0 # 2); Finite (0 # 2)]]
             []]
  /\ ~ vertices_in_unit_cube
         [mkTrimesh
            [[Finite (6 # 4); Finite (-2 # 2); Finite (-2 # 2)];
             [Finite (6 # 4); Finite (-2 # 2); Finite (0 # 2)];
             [Finite (6 # 4); Finite (0 # 2); Finite (-2 # 2)];
             [Finite (6 # 4); Finite (0 # 2); Finite (0 # 2)]]
            []].
Proof.
  split; [exact rational_marching_cubes_in_volume|].
  split; [vm_compute; reflexivity|].
  intros Hu. inversion Hu as [|m ms Hm _]; subst.
  cbn [vertices] in Hm. inversion Hm as [|vert vs Hvert _]; subst.
  inversion Hvert as [|c cs Hc _]; subst.
  destruct Hc as [_ Hle]. vm_compute in Hle. apply Hle. reflexivity.
Qed.

(** ** Shapes and values through the layers *)

Lemma conv3d_run (c : Conv3d) (x : tensor) (cin cout k s p B D H W : nat) :
  conv_geom c cin cout k s p ->
  shape x = [B; cin; D; H; W] ->
  s <> 0 -> k <= D + 2 * p -> k <= H + 2 * p -> k <= W + 2 * p ->
  conv3d c x
  = Ok (mkTensor [B; cout; conv_out_size D k s p; conv_out_size H k s p;
                  conv_out_size W k s p]
          (map (conv3d_entry c x)
               (indices [B; cout; conv_out_size D k s p; conv_out_size H k s p;
                         conv_out_size W k s p]))).
Proof.
  intros (Gi & Go & Gk & Gs & Gp) Hx Hs HD HH HW.
  unfold conv3d. rewrite Hx, Gi, Go, Gk, Gs, Gp.
  rewrite Nat.eqb_refl. cbn [negb].
  destruct (Nat.eqb_spec s 0) as [|_]; [contradiction|].
  destruct (Nat.ltb_spec (D + 2 * p) k); [lia|].
  destruct (Nat.ltb_spec (H + 2 * p) k); [lia|].
  destruct (Nat.ltb_spec (W + 2 * p) k); [lia|].
  reflexivity.
Qed.

Lemma conv_out_size_same (n : nat) : 0 < n -> conv_out_size n 3 1 1 = n.
Proof. intros Hn. unfold conv_out_size. rewrite Nat.div_1_r. lia. Qed.


Lemma conv_out_size_half (n : nat) : 2 <= n -> conv_out_size n 2 2 0 = n / 2.
Proof.
  intros Hn. unfold conv_out_size.
  replace (n + 2 * 0 - 2) with (n - 2) by lia.
  replace n with ((n - 2) + 1 * 2) at 2 by lia.
  rewrite Nat.div_add by lia. reflexivity.
Qed.

(** A 3x3x3 convolution with padding 1 keeps the spatial size. *)
Lemma conv3d_same_size (c : Conv3d) (x : tensor) (cin cout B D H W : nat) :
  conv_geom c cin cout 3 1 1 ->
  shape x = [B; cin; D; H; W] -> 0 < D -> 0 < H -> 0 < W ->
  conv3d c x
  = Ok (mkTensor [B; cout; D; H; W]
          (map (conv3d_entry c x) (indices [B; cout; D; H; W]))).
Proof.
  intros G Hx HD HH HW.
  rewrite (conv3d_run c x cin cout 3 1 1 B D H W G Hx) by lia.
  rewrite !conv_out_size_same by assumption. reflexivity.
Qed.

(** *** A zeroed convolution *)






Lemma tensor_add_same_shape (a b : tensor) :
  shape a = shape b ->
  tensor_add a b
  = Ok (mkTensor (shape a)
          (map (fun p => qadd (fst p) (snd p)) (combine (data a) (data b)))).
Proof.
  intros Hs. unfold tensor_add.
  destruct (list_eq_dec Nat.eq_dec (shape a) (shape b)); [reflexivity | contradiction].
Qed.

(** *** The residual block *)

(** A block with equal widths and the identity shortcut returns its input
    plus the output [z] of its second convolution. *)
Lemma ResBlock3d_forward_run `{Nu : Numerics} (r : ResBlock3d.t) (x : tensor)
  (ch B D H W : nat) :
  norm_keeps_shape ->
  resblock_built ch ch r ->
  shape x = [B; ch; D; H; W] -> 0 < D -> 0 < H -> 0 < W ->
  exists h z y,
    ResBlock3d.forward r x = Ok y
    /\ z = mkTensor [B; ch; D; H; W]
             (map (conv3d_entry (ResBlock3d.conv2 r) h) (indices [B; ch; D; H; W]))
    /\ y = mkTensor [B; ch; D; H; W]
             (map (fun p => qadd (fst p) (snd p)) (combine (data z) (data x))).
Proof.
  intros Hnorm Hr Hx HD HH HW. destruct Hr as [_ _ N1 N2 C1 C2 _ Sk].
  unfold ResBlock3d.forward.
  destruct (Hnorm (ResBlock3d.norm1 r) x B D H W) as (h1 & -> & S1);
    [rewrite N1; exact Hx|].
  cbn [rbind].
  assert (S2 : shape (tmap silu h1) = [B; ch; D; H; W])
    by (cbn [tmap shape]; rewrite S1; exact Hx).
  rewrite (conv3d_same_size _ _ ch ch B D H W C1 S2 HD HH HW). cbn [rbind].
  match goal with
  | |- context [norm_forward (ResBlock3d.norm2 r) ?h3] =>
      destruct (Hnorm (ResBlock3d.norm2 r) h3 B D H W) as (h4 & -> & S4);
        [rewrite N2; reflexivity|]
  end.
  cbn [rbind].
  assert (S5 : shape (tmap silu h4) = [B; ch; D; H; W])
    by (cbn [tmap shape]; rewrite S4; reflexivity).
  rewrite (conv3d_same_size _ _ ch ch B D H W C2 S5 HD HH HW). cbn [rbind].
  rewrite (Sk eq_refl). cbn [rbind].
  rewrite tensor_add_same_shape by (cbn [shape]; rewrite Hx; reflexivity).
  eexists. eexists. eexists. split; [reflexivity|]. split; reflexivity.
Qed.

Lemma ResBlock3d_forward_shape `{Nu : Numerics} (r : ResBlock3d.t) (x : tensor)
  (ch B D H W : nat) :
  norm_keeps_shape ->
  resblock_built ch ch r ->
  shape x = [B; ch; D; H; W] -> 0 < D -> 0 < H -> 0 < W ->
  exists y, ResBlock3d.forward r x = Ok y /\ shape y = [B; ch; D; H; W].
Proof.
  intros Hnorm Hr Hx HD HH HW.
  destruct (ResBlock3d_forward_run r x ch B D H W Hnorm Hr Hx HD HH HW)
    as (h & z & y & E & _ & ->).
  eexists. split; [exact E | reflexivity].
Qed.


Lemma rational_norm_keeps_shape : @norm_keeps_shape Rational.numerics.
Proof.
  intros n x B D H W Hx. cbn [norm_forward Rational.numerics].
  unfold Rational.norm_forward. rewrite Hx, Nat.eqb_refl.
  exists x. split; [reflexivity | exact Hx].
Qed.


(** *** Runs of blocks *)

Lemma run_blocks_app {M : Type} (fwd : M -> tensor -> result tensor)
  (a b : list M) (x y : tensor) :
  run_blocks fwd a x = Ok y ->
  run_blocks fwd (a ++ b) x = run_blocks fwd b y.
Proof.
  revert x. induction a as [|m a IH]; intros x; cbn [run_blocks app].
  - intros E; inversion E; subst. reflexivity.
  - destruct (fwd m x) as [x'|]; [|discriminate]. apply IH.
Qed.

Lemma run_resblocks_shape `{Nu : Numerics} (rs : list ResBlock3d.t) (x : tensor)
  (ch B D H W : nat) :
  norm_keeps_shape ->
  Forall (plain_resblock ch) rs ->
  shape x = [B; ch; D; H; W] -> 0 < D -> 0 < H -> 0 < W ->
  (exists y, run_blocks ResBlock3d.forward rs x = Ok y /\ shape y = [B; ch; D; H; W])
  /\ (exists y, run_blocks Block_forward (map Res rs) x = Ok y
                /\ shape y = [B; ch; D; H; W]).
Proof.
  intros Hnorm Hrs. revert x.
  induction Hrs as [|r rs [Hr _] _ IH]; intros x Hx HD HH HW.
  - split; exists x; split; auto.
  - destruct (ResBlock3d_forward_shape r x ch B D H W Hnorm Hr Hx HD HH HW)
      as (x' & E & Hx').
    destruct (IH x' Hx' HD HH HW) as [IH1 IH2].
    cbn [run_blocks map Block_forward]. rewrite E. split; assumption.
Qed.

Lemma pixel_shuffle_3d_shape (x : tensor) (B C D H W : nat) :
  shape x = [B; C * 8; D; H; W] ->
  exists y, pixel_shuffle_3d x 2 = Ok y /\ shape y = [B; C; D * 2; H * 2; W * 2].
Proof.
  intros Hx. unfold pixel_shuffle_3d. rewrite Hx.
  change (2 * 2 * 2) with 8.
  rewrite Nat.Div0.mod_mul. cbn [Nat.eqb negb].
  rewrite Nat.div_mul by lia.
  eexists. split; reflexivity.
Qed.

Lemma down_between_forward `{Nu : Numerics} (b : Block) (x : tensor)
  (cin cout B D H W : nat) :
  down_between cin cout b ->
  shape x = [B; cin; D; H; W] -> 2 <= D -> 2 <= H -> 2 <= W ->
  exists y, Block_forward b x = Ok y /\ shape y = [B; cout; D / 2; H / 2; W / 2].
Proof.
  intros (d & c & -> & Hc & G) Hx HD HH HW.
  cbn [Block_forward]. unfold DownsampleBlock3d.forward. rewrite Hc.
  rewrite (conv3d_run c x cin cout 2 2 0 B D H W G Hx) by lia.
  rewrite !conv_out_size_half by assumption.
  eexists. split; reflexivity.
Qed.


(** *** The cast keeps the layout *)

Lemma cast_conv_geom `{Utils} (dt : dtype) (c : Conv3d) (cin cout k s p : nat) :
  conv_geom c cin cout k s p -> conv_geom (cast_conv dt c) cin cout k s p.
Proof. unfold cast_conv. destruct (FP16_MODULES cls_Conv3d); auto. Qed.

Lemma cast_conv_zero `{Utils} (dt : dtype) (c : Conv3d) :
  conv_is_zero c -> conv_is_zero (cast_conv dt c).
Proof. unfold cast_conv. destruct (FP16_MODULES cls_Conv3d); auto. Qed.

Lemma cast_norm_channels `{Utils} (dt : dtype) (n : NormLayer) :
  num_channels (cast_norm dt n) = num_channels n.
Proof. unfold cast_norm. destruct (FP16_MODULES (norm_class n)); reflexivity. Qed.

Lemma plain_resblock_cast `{Utils} (dt : dtype) (ch : nat) (r : ResBlock3d.t) :
  plain_resblock ch r ->
  plain_resblock ch (ResBlock3d.apply (mkModuleFn (cast_conv dt) (cast_norm dt)) r).
Proof.
  intros [[C O N1 N2 C1 C2 Z Sk] L]. split; [|apply uses_layer_norm_cast; exact L].
  constructor; cbn [ResBlock3d.apply ResBlock3d.channels ResBlock3d.out_channels
                    ResBlock3d.norm1 ResBlock3d.norm2 ResBlock3d.conv1
                    ResBlock3d.conv2 ResBlock3d.skip_connection on_conv on_norm];
    try assumption.
  - rewrite cast_norm_channels. exact N1.
  - rewrite cast_norm_channels. exact N2.
  - apply cast_conv_geom. exact C1.
  - apply cast_conv_geom. exact C2.
  - apply cast_conv_zero. exact Z.
  - intros E. rewrite (Sk E). reflexivity.
Qed.

Lemma down_between_cast `{Utils} (dt : dtype) (a b : nat) (blk : Block) :
  down_between a b blk ->
  down_between a b (Block_apply (mkModuleFn (cast_conv dt) (cast_norm dt)) blk).
Proof.
  intros (d & c & -> & Hc & G). cbn [Block_apply].
  eexists. exists (cast_conv dt c). split; [reflexivity|]. split.
  - cbn [DownsampleBlock3d.apply DownsampleBlock3d.conv on_conv]. rewrite Hc. reflexivity.
  - apply cast_conv_geom. exact G.
Qed.

Lemma up_between_cast `{Utils} (dt : dtype) (a b : nat) (blk : Block) :
  up_between a b blk ->
  up_between a b (Block_apply (mkModuleFn (cast_conv dt) (cast_norm dt)) blk).
Proof.
  intros (u & c & -> & Hc & G). cbn [Block_apply].
  eexists. exists (cast_conv dt c). split; [reflexivity|]. split.
  - cbn [UpsampleBlock3d.apply UpsampleBlock3d.conv on_conv]. rewrite Hc. reflexivity.
  - apply cast_conv_geom. exact G.
Qed.

Lemma stages_built_map (between : nat -> nat -> Block -> Prop)
  (fn : module_fn) (channels : list nat) (bs : list Block) :
  (forall ch r, plain_resblock ch r -> plain_resblock ch (ResBlock3d.apply fn r)) ->
  (forall a b blk, between a b blk -> between a b (Block_apply fn blk)) ->
  stages_built between channels bs ->
  stages_built between channels (map (Block_apply fn) bs).
Proof.
  intros Hres Hbt. induction 1 as [|ch rs Hrs|ch next rest rs b more Hrs Hb _ IH].
  - constructor.
  - rewrite map_map. change (fun x => Block_apply fn (Res x))
      with (fun x => Res (ResBlock3d.apply fn x)).
    rewrite <- (map_map (ResBlock3d.apply fn) Res). constructor.
    apply Forall_map_preserved; [apply Hres | exact Hrs].
  - rewrite map_app, map_map. cbn [map].
    change (fun x => Block_apply fn (Res x))
      with (fun x => Res (ResBlock3d.apply fn x)).
    rewrite <- (map_map (ResBlock3d.apply fn) Res). constructor.
    + apply Forall_map_preserved; [apply Hres | exact Hrs].
    + apply Hbt. exact Hb.
    + exact IH.
Qed.

Lemma encoder_assemble_built `{Utils}
  (inc lat N : nat) (channels : list nat) (M : nat) (nt : string) (fp ck : bool)
  (il : Conv3d) (bs : list Block) (mid : list ResBlock3d.t) (n : NormLayer)
  (oc : Conv3d) :
  conv_geom il inc (hd 0 channels) 3 1 1 ->
  stages_built down_between channels bs ->
  Forall (plain_resblock (last channels 0)) mid ->
  num_channels n = last channels 0 ->
  conv_geom oc (last channels 0) (lat * 2) 3 1 1 ->
  encoder_built inc (lat * 2) channels
    (encoder_assemble inc lat N channels M nt fp ck il bs mid (mkOutLayer n oc)).
Proof.
  intros Gil Sbs Pmid Hn Goc. unfold encoder_assemble.
  destruct fp; constructor; cbn; try assumption.
  - apply stages_built_map; [intros; apply plain_resblock_cast; assumption
                            | intros; apply down_between_cast; assumption
                            | exact Sbs].
  - apply Forall_map_preserved; [intros; apply plain_resblock_cast; assumption
                                | exact Pmid].
Qed.

Lemma decoder_assemble_built `{Utils}
  (outc lat N : nat) (channels : list nat) (M : nat) (nt : string) (fp ck : bool)
  (il : Conv3d) (mid : list ResBlock3d.t) (bs : list Block) (n : NormLayer)
  (oc : Conv3d) :
  conv_geom il lat (hd 0 channels) 3 1 1 ->
  Forall (plain_resblock (hd 0 channels)) mid ->
  stages_built up_between channels bs ->
  num_channels n = last channels 0 ->
  conv_geom oc (last channels 0) outc 3 1 1 ->
  decoder_built lat outc channels
    (decoder_assemble outc lat N channels M nt fp ck il mid bs (mkOutLayer n oc)).
Proof.
  intros Gil Pmid Sbs Hn Goc. unfold decoder_assemble.
  destruct fp; constructor; cbn; try assumption.
  - apply cast_conv_geom. exact Gil.
  - apply Forall_map_preserved; [intros; apply plain_resblock_cast; assumption
                                | exact Pmid].
  - apply stages_built_map; [intros; apply plain_resblock_cast; assumption
                            | intros; apply up_between_cast; assumption
                            | exact Sbs].
  - rewrite cast_norm_channels. exact Hn.
  - apply cast_conv_geom. exact Goc.
Qed.

(** *** The staged pyramid *)










(** * Further properties *)

(** ** Precision conversions compose *)

(** The function that [apply] runs for a cast to [dt]. *)
Lemma cast_conv_twice `{Utils} (a b : dtype) (c : Conv3d) :
  cast_conv a (cast_conv b c) = cast_conv a c.
Proof.
  unfold cast_conv. destruct (FP16_MODULES cls_Conv3d) eqn:E; cbn; reflexivity.
Qed.

Lemma cast_norm_twice `{Utils} (a b : dtype) (n : NormLayer) :
  cast_norm a (cast_norm b n) = cast_norm a n.
Proof.
  unfold cast_norm.
  destruct (FP16_MODULES (norm_class n)) eqn:E; cbn [norm_class num_groups num_channels];
    rewrite ?E; reflexivity.
Qed.

Lemma ResBlock3d_apply_twice `{Utils} (a b : dtype) (r : ResBlock3d.t) :
  ResBlock3d.apply (mkModuleFn (cast_conv a) (cast_norm a))
    (ResBlock3d.apply (mkModuleFn (cast_conv b) (cast_norm b)) r)
  = ResBlock3d.apply (mkModuleFn (cast_conv a) (cast_norm a)) r.
Proof.
  unfold ResBlock3d.apply. cbn [on_conv on_norm ResBlock3d.channels
    ResBlock3d.out_channels ResBlock3d.norm1 ResBlock3d.norm2 ResBlock3d.conv1
    ResBlock3d.conv2 ResBlock3d.skip_connection].
  rewrite !cast_conv_twice, !cast_norm_twice.
  destruct (ResBlock3d.skip_connection r); cbn [option_map];
    rewrite ?cast_conv_twice; reflexivity.
Qed.

Lemma Block_apply_twice `{Utils} (a b : dtype) (blk : Block) :
  Block_apply (mkModuleFn (cast_conv a) (cast_norm a))
    (Block_apply (mkModuleFn (cast_conv b) (cast_norm b)) blk)
  = Block_apply (mkModuleFn (cast_conv a) (cast_norm a)) blk.
Proof.
  destruct blk as [r|d|u]; cbn [Block_apply].
  - rewrite ResBlock3d_apply_twice. reflexivity.
  - unfold DownsampleBlock3d.apply.
    cbn [DownsampleBlock3d.conv DownsampleBlock3d.in_channels
         DownsampleBlock3d.out_channels on_conv].
    destruct (DownsampleBlock3d.conv d); cbn [option_map];
      rewrite ?cast_conv_twice; reflexivity.
  - unfold UpsampleBlock3d.apply.
    cbn [UpsampleBlock3d.conv UpsampleBlock3d.in_channels
         UpsampleBlock3d.out_channels on_conv].
    destruct (UpsampleBlock3d.conv u); cbn [option_map];
      rewrite ?cast_conv_twice; reflexivity.
Qed.

Lemma map_twice {A : Type} (f g h : A -> A) (l : list A) :
  (forall a, f (g a) = h a) -> map f (map g l) = map h l.
Proof. intros E. rewrite map_map. apply map_ext. exact E. Qed.

(** X1: on the encoder [convert_to_fp32] after [convert_to_fp16] leaves the
    precision attributes and the precision of every layer as
    [convert_to_fp32] alone does, [convert_to_fp16] overrides an earlier
    [convert_to_fp32], and each conversion is idempotent; on the decoder
    [convert_to_fp16] overrides an earlier [convert_to_fp32] and both
    conversions are idempotent. *)
Theorem last_conversion_wins `{Utils} :
  (forall e : SparseStructureEncoder.t,
      encoder_precisions
        (SparseStructureEncoder.convert_to_fp32 (SparseStructureEncoder.convert_to_fp16 e))
      = encoder_precisions (SparseStructureEncoder.convert_to_fp32 e)
      /\ SparseStructureEncoder.convert_to_fp16 (SparseStructureEncoder.convert_to_fp32 e)
         = SparseStructureEncoder.convert_to_fp16 e
      /\ SparseStructureEncoder.convert_to_fp16 (SparseStructureEncoder.convert_to_fp16 e)
         = SparseStructureEncoder.convert_to_fp16 e
      /\ SparseStructureEncoder.convert_to_fp32 (SparseStructureEncoder.convert_to_fp32 e)
         = SparseStructureEncoder.convert_to_fp32 e)
  /\ (forall d : SparseStructureDecoder.t,
         SparseStructureDecoder.convert_to_fp16 (SparseStructureDecoder.convert_to_fp32 d)
         = SparseStructureDecoder.convert_to_fp16 d
         /\ SparseStructureDecoder.convert_to_fp16 (SparseStructureDecoder.convert_to_fp16 d)
            = SparseStructureDecoder.convert_to_fp16 d
         /\ SparseStructureDecoder.convert_to_fp32 (SparseStructureDecoder.convert_to_fp32 d)
            = SparseStructureDecoder.convert_to_fp32 d).
Proof.
  split.
  - intros e.
    split; [unfold encoder_precisions, SparseStructureEncoder.torso_dtypes
           | split; [|split]];
      unfold SparseStructureEncoder.convert_to_fp32, SparseStructureEncoder.convert_to_fp16,
        convert_module_to_f16, convert_module_to_f32;
      cbn [SparseStructureEncoder.in_channels SparseStructureEncoder.latent_channels
           SparseStructureEncoder.num_res_blocks SparseStructureEncoder.channels
           SparseStructureEncoder.num_res_blocks_middle SparseStructureEncoder.norm_type
           SparseStructureEncoder.use_fp16 SparseStructureEncoder.dtype_
           SparseStructureEncoder.use_checkpoint SparseStructureEncoder.input_layer
           SparseStructureEncoder.blocks SparseStructureEncoder.middle_block
           SparseStructureEncoder.out_layer];
      rewrite (map_twice _ _ _ _ (Block_apply_twice _ _)),
        (map_twice _ _ _ _ (ResBlock3d_apply_twice _ _));
      reflexivity.
  - intros d.
    repeat split;
      unfold SparseStructureDecoder.convert_to_fp32, SparseStructureDecoder.convert_to_fp16,
        SparseStructureDecoder.apply, SparseStructureDecoder.set_precision,
        OutLayer_apply, convert_module_to_f16, convert_module_to_f32;
      cbn [SparseStructureDecoder.out_channels SparseStructureDecoder.latent_channels
           SparseStructureDecoder.num_res_blocks SparseStructureDecoder.channels
           SparseStructureDecoder.num_res_blocks_middle SparseStructureDecoder.norm_type
           SparseStructureDecoder.use_fp16 SparseStructureDecoder.dtype_
           SparseStructureDecoder.use_checkpoint SparseStructureDecoder.input_layer
           SparseStructureDecoder.blocks SparseStructureDecoder.middle_block
           SparseStructureDecoder.out_layer on_conv on_norm out_norm out_conv];
      rewrite (map_twice _ _ _ _ (Block_apply_twice _ _)),
        (map_twice _ _ _ _ (ResBlock3d_apply_twice _ _));
      rewrite ?cast_conv_twice, ?cast_norm_twice;
      reflexivity.
Qed.

Lemma cast_conv_noop `{Utils} (dt : dtype) (c : Conv3d) :
  conv_dtype c = dt -> cast_conv dt c = c.
Proof.
  destruct c as [ci co k s p w b d]. cbn [conv_dtype]. intros ->. unfold cast_conv.
  destruct (FP16_MODULES cls_Conv3d); reflexivity.
Qed.

Lemma cast_norm_noop `{Utils} (dt : dtype) (n : NormLayer) :
  norm_dtype n = dt -> cast_norm dt n = n.
Proof.
  destruct n as [c gr ch d]. cbn [norm_dtype]. intros ->. unfold cast_norm.
  cbn [norm_class]. destruct (FP16_MODULES c); reflexivity.
Qed.

Lemma ResBlock3d_apply_noop `{Utils} (dt : dtype) (r : ResBlock3d.t) :
  Forall (fun p => snd p = dt) (ResBlock3d.layer_dtypes r) ->
  ResBlock3d.apply (mkModuleFn (cast_conv dt) (cast_norm dt)) r = r.
Proof.
  destruct r as [ch oc n1 n2 c1 c2 sk]. unfold ResBlock3d.layer_dtypes, ResBlock3d.apply.
  cbn [ResBlock3d.channels ResBlock3d.out_channels ResBlock3d.norm1 ResBlock3d.norm2
       ResBlock3d.conv1 ResBlock3d.conv2 ResBlock3d.skip_connection on_conv on_norm].
  intros F. apply Forall_app in F as [F Fsk].
  apply Forall_cons_iff in F as [H1 F]. apply Forall_cons_iff in F as [H2 F].
  apply Forall_cons_iff in F as [H3 F]. apply Forall_cons_iff in F as [H4 _].
  cbn [snd] in *.
  rewrite (cast_norm_noop _ _ H1), (cast_norm_noop _ _ H2),
    (cast_conv_noop _ _ H3), (cast_conv_noop _ _ H4).
  destruct sk as [c|]; cbn [option_map]; [|reflexivity].
  apply Forall_cons_iff in Fsk as [H5 _]. cbn [snd] in H5.
  rewrite (cast_conv_noop _ _ H5). reflexivity.
Qed.

Lemma Block_apply_noop `{Utils} (dt : dtype) (b : Block) :
  Forall (fun p => snd p = dt) (Block_layer_dtypes b) ->
  Block_apply (mkModuleFn (cast_conv dt) (cast_norm dt)) b = b.
Proof.
  destruct b as [r|d|u]; cbn [Block_apply Block_layer_dtypes]; intros F.
  - rewrite ResBlock3d_apply_noop by exact F. reflexivity.
  - destruct d as [i o [c|]]; unfold DownsampleBlock3d.apply, DownsampleBlock3d.layer_dtypes in *;
      cbn [DownsampleBlock3d.conv DownsampleBlock3d.in_channels
           DownsampleBlock3d.out_channels option_map on_conv] in *; [|reflexivity].
    apply Forall_cons_iff in F as [H1 _]. cbn [snd] in H1.
    rewrite (cast_conv_noop _ _ H1). reflexivity.
  - destruct u as [i o [c|]]; unfold UpsampleBlock3d.apply, UpsampleBlock3d.layer_dtypes in *;
      cbn [UpsampleBlock3d.conv UpsampleBlock3d.in_channels
           UpsampleBlock3d.out_channels option_map on_conv] in *; [|reflexivity].
    apply Forall_cons_iff in F as [H1 _]. cbn [snd] in H1.
    rewrite (cast_conv_noop _ _ H1). reflexivity.
Qed.

Lemma map_noop_dtypes {A : Type} (f : A -> A) (dts : A -> list (layer_class * dtype))
  (dt : dtype) (l : list A) :
  (forall a, Forall (fun p => snd p = dt) (dts a) -> f a = a) ->
  Forall (fun p => snd p = dt) (flat_map dts l) ->
  map f l = l.
Proof.
  intros Hf. induction l as [|a l IH]; cbn [flat_map map]; [reflexivity|].
  intros F. apply Forall_app in F as [Fa Fl].
  rewrite (Hf a Fa), (IH Fl). reflexivity.
Qed.

(** X2: on an encoder built in float32, [convert_to_fp16] followed by
    [convert_to_fp32] restores the precision attributes and the precision of
    every layer, and [convert_to_fp32] alone changes nothing; on a decoder
    built in float32 [convert_to_fp32] alone changes nothing. *)
Theorem float32_module_restored `{U : Utils}
  (lat N : nat) (channels : list nat) (M : nat) (nt : string) (ck : bool) (g : rng) :
  (forall inc e g',
      SparseStructureEncoder.init inc lat N channels M nt false ck g = Ok (e, g') ->
      encoder_precisions
        (SparseStructureEncoder.convert_to_fp32 (SparseStructureEncoder.convert_to_fp16 e))
      = encoder_precisions e
      /\ SparseStructureEncoder.convert_to_fp32 e = e)
  /\ (forall outc d g',
         SparseStructureDecoder.init outc lat N channels M nt false ck g = Ok (d, g') ->
         SparseStructureDecoder.convert_to_fp32 d = d).
Proof.
  split.
  - intros inc e g' E.
    apply SparseStructureEncoder_init_inv in E
      as (il & bs & mid & n & oc & -> & _ & _ & _ & _ & _ & Fbs & _ & Fmid & _).
    unfold encoder_precisions, SparseStructureEncoder.torso_dtypes, encoder_assemble,
      SparseStructureEncoder.convert_to_fp32,
      SparseStructureEncoder.convert_to_fp16, convert_module_to_f16, convert_module_to_f32.
    cbn [SparseStructureEncoder.in_channels SparseStructureEncoder.latent_channels
         SparseStructureEncoder.num_res_blocks SparseStructureEncoder.channels
         SparseStructureEncoder.num_res_blocks_middle SparseStructureEncoder.norm_type
         SparseStructureEncoder.use_fp16 SparseStructureEncoder.dtype_
         SparseStructureEncoder.use_checkpoint SparseStructureEncoder.input_layer
         SparseStructureEncoder.blocks SparseStructureEncoder.middle_block
         SparseStructureEncoder.out_layer].
    rewrite (map_twice _ _ _ _ (Block_apply_twice _ _)),
      (map_twice _ _ _ _ (ResBlock3d_apply_twice _ _)).
    rewrite (map_noop_dtypes _ _ float32 bs (Block_apply_noop float32) Fbs).
    rewrite (map_noop_dtypes _ _ float32 mid (ResBlock3d_apply_noop float32) Fmid).
    split; reflexivity.
  - intros outc d g' E.
    apply SparseStructureDecoder_init_inv in E
      as (il & mid & bs & n & oc & -> & _ & _ & _ & _ & _ & Fmid & _ & Fbs & _).
    unfold decoder_assemble, SparseStructureDecoder.convert_to_fp32,
      SparseStructureDecoder.set_precision, convert_module_to_f32.
    cbn [SparseStructureDecoder.out_channels SparseStructureDecoder.latent_channels
         SparseStructureDecoder.num_res_blocks SparseStructureDecoder.channels
         SparseStructureDecoder.num_res_blocks_middle SparseStructureDecoder.norm_type
         SparseStructureDecoder.use_fp16 SparseStructureDecoder.dtype_
         SparseStructureDecoder.use_checkpoint SparseStructureDecoder.input_layer
         SparseStructureDecoder.blocks SparseStructureDecoder.middle_block
         SparseStructureDecoder.out_layer].
    rewrite (map_noop_dtypes _ _ float32 bs (Block_apply_noop float32) Fbs).
    rewrite (map_noop_dtypes _ _ float32 mid (ResBlock3d_apply_noop float32) Fmid).
    reflexivity.
Qed.

Lemma float32_module_restored_witness :
  exists e g',
    @SparseStructureEncoder.init Rational.conv_only 1 8 2 [32; 128; 512] 2
      "layer" false false Rational.counting = Ok (e, g')
    /\ encoder_precisions
         (@SparseStructureEncoder.convert_to_fp32 Rational.conv_only
            (@SparseStructureEncoder.convert_to_fp16 Rational.conv_only e))
       = encoder_precisions e.
Proof.
  destruct (@SparseStructureEncoder_init_ok Rational.conv_only 1 8 2
              [32; 128; 512] 2 "layer" false false Rational.counting
              (mkNorm cls_ChannelLayerNorm32 1 512 float32))
    as (il & bs & mid & oc & g' & E & _); [discriminate | reflexivity |].
  eexists. exists g'. split; [exact E|].
  exact (proj1 (proj1 (@float32_module_restored Rational.conv_only 8 2 [32; 128; 512] 2
                         "layer" false Rational.counting) 1 _ _ E)).
Defined.

(** X3: passing [use_fp16=True] to the constructor gives the module that the
    constructor builds in float32, converted by [convert_to_fp16]; the same
    errors are raised and the generator is left in the same state. *)
Theorem use_fp16_is_convert_after_init `{U : Utils}
  (lat N : nat) (channels : list nat) (M : nat) (nt : string) (ck : bool) (g : rng) :
  (forall inc,
      SparseStructureEncoder.init inc lat N channels M nt true ck g
      = match SparseStructureEncoder.init inc lat N channels M nt false ck g with
        | Ok (e, g') => Ok (SparseStructureEncoder.convert_to_fp16 e, g')
        | Raise err => Raise err
        end)
  /\ (forall outc,
         SparseStructureDecoder.init outc lat N channels M nt true ck g
         = match SparseStructureDecoder.init outc lat N channels M nt false ck g with
           | Ok (d, g') => Ok (SparseStructureDecoder.convert_to_fp16 d, g')
           | Raise err => Raise err
           end).
Proof.
  split.
  - intros inc. rewrite !SparseStructureEncoder_init_eq.
    destruct (encoder_torso inc N channels M g) as [[[[il bs] mid] g3]|]; [|reflexivity].
    destruct (norm_layer nt (last channels 0)); [|reflexivity].
    destruct (nn_Conv3d (last channels 0) (lat * 2) 3 1 1 g3) as [[oc g4]|];
      reflexivity.
  - intros outc. rewrite !SparseStructureDecoder_init_eq.
    destruct (decoder_torso lat N channels M g) as [[[[il mid] bs] g3]|]; [|reflexivity].
    destruct (norm_layer nt (last channels 0)); [|reflexivity].
    destruct (nn_Conv3d (last channels 0) outc 3 1 1 g3) as [[oc g4]|];
      reflexivity.
Qed.

(** ** What the constructors build *)

Lemma replicateC_length {A : Type} (mk : Ctor A) (n : nat) (g g' : rng) (l : list A) :
  replicateC n mk g = Ok (l, g') -> length l = n.
Proof.
  revert g l. induction n as [|n IH]; intros g l; cbn [replicateC].
  - unfold cret. intros E; inversion E; subst. reflexivity.
  - unfold cbind at 1. destruct (mk g) as [[a g1]|]; [|discriminate].
    unfold cbind at 1. destruct (replicateC n mk g1) as [[l' g2]|] eqn:El; [|discriminate].
    unfold cret. intros E; inversion E; subst. cbn [length]. f_equal. eapply IH. exact El.
Qed.

Lemma filter_map_Res (p : Block -> bool) (rs : list ResBlock3d.t) :
  (forall r, p (Res r) = false) -> filter p (map Res rs) = [].
Proof.
  intros Hp. induction rs as [|r rs IH]; [reflexivity|].
  cbn [map filter]. rewrite Hp. exact IH.
Qed.

Lemma encoder_build_blocks_count (N : nat) (channels : list nat) (g g' : rng)
  (bs : list Block) :
  SparseStructureEncoder.build_blocks N channels g = Ok (bs, g') ->
  length bs = length channels * N + (length channels - 1)
  /\ length (filter is_down bs) = length channels - 1
  /\ filter is_up bs = [].
Proof.
  revert g bs. induction channels as [|ch rest IH]; intros g bs.
  - intros E; inversion E; subst. repeat split.
  - cbn [SparseStructureEncoder.build_blocks]. unfold cbind at 1.
    destruct (replicateC N (ResBlock3d.init ch (Some ch) default_norm_type) g)
      as [[rs g1]|] eqn:Ers; [|discriminate].
    apply replicateC_length in Ers.
    destruct rest as [|next rest'].
    + unfold cret. intros E; inversion E; subst.
      rewrite length_map, !filter_map_Res by reflexivity. cbn [length]. repeat split. lia.
    + unfold cbind at 1.
      destruct (DownsampleBlock3d.init ch next default_mode g1) as [[d g2]|]; [|discriminate].
      unfold cbind at 1.
      destruct (SparseStructureEncoder.build_blocks N (next :: rest') g2)
        as [[more g3]|] eqn:Em; [|discriminate].
      unfold cret. intros E; inversion E; subst; clear E.
      destruct (IH _ _ Em) as (L & Dn & Up0).
      rewrite length_app, length_map, !filter_app, !filter_map_Res by reflexivity.
      cbn [length filter is_down is_up app] in *. rewrite L, Dn, Up0.
      repeat split; lia.
Qed.

Lemma decoder_build_blocks_count (N : nat) (channels : list nat) (g g' : rng)
  (bs : list Block) :
  SparseStructureDecoder.build_blocks N channels g = Ok (bs, g') ->
  length bs = length channels * N + (length channels - 1)
  /\ length (filter is_up bs) = length channels - 1
  /\ filter is_down bs = [].
Proof.
  revert g bs. induction channels as [|ch rest IH]; intros g bs.
  - intros E; inversion E; subst. repeat split.
  - cbn [SparseStructureDecoder.build_blocks]. unfold cbind at 1.
    destruct (replicateC N (ResBlock3d.init ch (Some ch) default_norm_type) g)
      as [[rs g1]|] eqn:Ers; [|discriminate].
    apply replicateC_length in Ers.
    destruct rest as [|next rest'].
    + unfold cret. intros E; inversion E; subst.
      rewrite length_map, !filter_map_Res by reflexivity. cbn [length]. repeat split. lia.
    + unfold cbind at 1.
      destruct (UpsampleBlock3d.init ch next default_mode g1) as [[u g2]|]; [|discriminate].
      unfold cbind at 1.
      destruct (SparseStructureDecoder.build_blocks N (next :: rest') g2)
        as [[more g3]|] eqn:Em; [|discriminate].
      unfold cret. intros E; inversion E; subst; clear E.
      destruct (IH _ _ Em) as (L & Un & Dn0).
      rewrite length_app, length_map, !filter_app, !filter_map_Res by reflexivity.
      cbn [length filter is_down is_up app] in *. rewrite L, Un, Dn0.
      repeat split; lia.
Qed.

Lemma encoder_torso_counts (inc N : nat) (channels : list nat) (M : nat) (g g3 : rng)
  (il : Conv3d) (bs : list Block) (mid : list ResBlock3d.t) :
  encoder_torso inc N channels M g = Ok (il, bs, mid, g3) ->
  length bs = length channels * N + (length channels - 1)
  /\ length (filter is_down bs) = length channels - 1
  /\ filter is_up bs = []
  /\ length mid = M.
Proof.
  unfold encoder_torso. destruct channels as [|ch rest]; [discriminate|].
  rewrite (cbind_ok _ _ g g ch) by reflexivity.
  unfold cbind at 1. destruct (nn_Conv3d inc ch 3 1 1 g) as [[il' g1]|]; [|discriminate].
  unfold cbind at 1.
  destruct (SparseStructureEncoder.build_blocks N (ch :: rest) g1)
    as [[bs' g2]|] eqn:Eb; [|discriminate].
  unfold cbind at 1.
  match goal with
  | |- context [replicateC M ?mk g2] =>
      destruct (replicateC M mk g2) as [[mid' g3']|] eqn:Em; [|discriminate]
  end.
  unfold cret. intros E; inversion E; subst; clear E.
  apply replicateC_length in Em.
  destruct (encoder_build_blocks_count _ _ _ _ _ Eb) as (L & Dn & Up0).
  repeat split; assumption.
Qed.

Lemma decoder_torso_counts (lat N : nat) (channels : list nat) (M : nat) (g g3 : rng)
  (il : Conv3d) (mid : list ResBlock3d.t) (bs : list Block) :
  decoder_torso lat N channels M g = Ok (il, mid, bs, g3) ->
  length bs = length channels * N + (length channels - 1)
  /\ length (filter is_up bs) = length channels - 1
  /\ filter is_down bs = []
  /\ length mid = M.
Proof.
  unfold decoder_torso. destruct channels as [|ch rest]; [discriminate|].
  rewrite (cbind_ok _ _ g g ch) by reflexivity.
  unfold cbind at 1. destruct (nn_Conv3d lat ch 3 1 1 g) as [[il' g1]|]; [|discriminate].
  unfold cbind at 1.
  match goal with
  | |- context [replicateC M ?mk g1] =>
      destruct (replicateC M mk g1) as [[mid' g2]|] eqn:Em; [|discriminate]
  end.
  unfold cbind at 1.
  destruct (SparseStructureDecoder.build_blocks N (ch :: rest) g2)
    as [[bs' g3']|] eqn:Eb; [|discriminate].
  unfold cret. intros E; inversion E; subst; clear E.
  apply replicateC_length in Em.
  destruct (decoder_build_blocks_count _ _ _ _ _ Eb) as (L & Un & Dn0).
  repeat split; assumption.
Qed.

Lemma filter_Block_apply (p : Block -> bool) (fn : module_fn) (bs : list Block) :
  (forall b, p (Block_apply fn b) = p b) ->
  filter p (map (Block_apply fn) bs) = map (Block_apply fn) (filter p bs).
Proof.
  intros Hp. induction bs as [|b bs IH]; [reflexivity|].
  cbn [map filter]. rewrite Hp. destruct (p b); cbn [map]; rewrite IH; reflexivity.
Qed.

Lemma is_down_apply (fn : module_fn) (b : Block) : is_down (Block_apply fn b) = is_down b.
Proof. destruct b; reflexivity. Qed.

Lemma is_up_apply (fn : module_fn) (b : Block) : is_up (Block_apply fn b) = is_up b.
Proof. destruct b; reflexivity. Qed.

(** X4: a constructed encoder holds [num_res_blocks] residual blocks per
    width and one downsampling block between two widths, so
    [S * num_res_blocks + (S - 1)] staged blocks for [S] widths, of which
    [S - 1] downsample and none upsamples, and [num_res_blocks_middle] blocks
    in the middle stack; a constructed decoder holds the same numbers with
    upsampling blocks. *)
Theorem staged_block_counts `{U : Utils}
  (lat N : nat) (channels : list nat) (M : nat) (nt : string) (fp ck : bool) (g : rng) :
  (forall inc e g',
      SparseStructureEncoder.init inc lat N channels M nt fp ck g = Ok (e, g') ->
      length (SparseStructureEncoder.blocks e)
      = length channels * N + (length channels - 1)
      /\ length (filter is_down (SparseStructureEncoder.blocks e)) = length channels - 1
      /\ filter is_up (SparseStructureEncoder.blocks e) = []
      /\ length (SparseStructureEncoder.middle_block e) = M)
  /\ (forall outc d g',
         SparseStructureDecoder.init outc lat N channels M nt fp ck g = Ok (d, g') ->
         length (SparseStructureDecoder.blocks d)
         = length channels * N + (length channels - 1)
         /\ length (filter is_up (SparseStructureDecoder.blocks d)) = length channels - 1
         /\ filter is_down (SparseStructureDecoder.blocks d) = []
         /\ length (SparseStructureDecoder.middle_block d) = M).
Proof.
  split.
  - intros inc e g'. rewrite SparseStructureEncoder_init_eq.
    destruct (encoder_torso inc N channels M g) as [[[[il bs] mid] g3]|] eqn:Et;
      [|discriminate].
    apply encoder_torso_counts in Et as (L & Dn & Up0 & Lm).
    destruct (norm_layer nt (last channels 0)); [|discriminate].
    destruct (nn_Conv3d (last channels 0) (lat * 2) 3 1 1 g3) as [[oc g4]|];
      [|discriminate].
    intros E; inversion E; subst; clear E.
    unfold encoder_assemble. destruct fp;
      cbn [SparseStructureEncoder.convert_to_fp16 SparseStructureEncoder.blocks
           SparseStructureEncoder.middle_block];
      rewrite ?length_map, ?(filter_Block_apply _ _ _ (is_down_apply _)),
        ?(filter_Block_apply _ _ _ (is_up_apply _)), ?length_map, ?Up0;
      repeat split; assumption.
  - intros outc d g'. rewrite SparseStructureDecoder_init_eq.
    destruct (decoder_torso lat N channels M g) as [[[[il mid] bs] g3]|] eqn:Et;
      [|discriminate].
    apply decoder_torso_counts in Et as (L & Un & Dn0 & Lm).
    destruct (norm_layer nt (last channels 0)); [|discriminate].
    destruct (nn_Conv3d (last channels 0) outc 3 1 1 g3) as [[oc g4]|];
      [|discriminate].
    intros E; inversion E; subst; clear E.
    unfold decoder_assemble. destruct fp;
      cbn [SparseStructureDecoder.convert_to_fp16 SparseStructureDecoder.apply
           SparseStructureDecoder.set_precision SparseStructureDecoder.blocks
           SparseStructureDecoder.middle_block];
      rewrite ?length_map, ?(filter_Block_apply _ _ _ (is_down_apply _)),
        ?(filter_Block_apply _ _ _ (is_up_apply _)), ?length_map, ?Dn0;
      repeat split; assumption.
Qed.

Lemma staged_block_counts_witness :
  exists e g',
    @SparseStructureEncoder.init Rational.conv_only 1 8 2 [32; 128; 512] 2
      "layer" false false Rational.counting = Ok (e, g')
    /\ length (SparseStructureEncoder.blocks e) = 8
    /\ length (filter is_down (SparseStructureEncoder.blocks e)) = 2.
Proof.
  destruct (@SparseStructureEncoder_init_ok Rational.conv_only 1 8 2
              [32; 128; 512] 2 "layer" false false Rational.counting
              (mkNorm cls_ChannelLayerNorm32 1 512 float32))
    as (il & bs & mid & oc & g' & E & _); [discriminate | reflexivity |].
  eexists. exists g'. split; [exact E|].
  destruct (proj1 (@staged_block_counts Rational.conv_only 8 2 [32; 128; 512] 2
                     "layer" false false Rational.counting) 1 _ _ E) as (L & Dn & _).
  split; [exact L | exact Dn].
Defined.

(** X5: the constructors of the encoder, the decoder and the VAE raise
    [IndexError] on an empty list of widths, from [channels[0]]; the VAE, which
    passes no [norm_type], is constructed for every pair of non-empty lists. *)
Theorem empty_widths_raise_index_error `{U : Utils} :
  (forall inc lat N M nt fp ck g,
      SparseStructureEncoder.init inc lat N [] M nt fp ck g = Raise IndexError)
  /\ (forall outc lat N M nt fp ck g,
         SparseStructureDecoder.init outc lat N [] M nt fp ck g = Raise IndexError)
  /\ (forall embed_dim ce cd ne nme nd nmd inc outc fp ck s h g,
         ce = [] \/ cd = [] ->
         DenseShapeVAE.init embed_dim ce cd ne nme nd nmd inc outc fp ck s h g
         = Raise IndexError)
  /\ (forall embed_dim ce cd ne nme nd nmd inc outc fp ck s h g,
         ce <> [] -> cd <> [] ->
         exists v g',
           DenseShapeVAE.init embed_dim ce cd ne nme nd nmd inc outc fp ck s h g
           = Ok (v, g')
           /\ DenseShapeVAE.embed_dim v = embed_dim
           /\ SparseStructureEncoder.latent_channels (DenseShapeVAE.encoder v) = embed_dim
           /\ SparseStructureDecoder.latent_channels (DenseShapeVAE.decoder v) = embed_dim).
Proof.
  split; [|split; [|split]].
  - intros. rewrite SparseStructureEncoder_init_eq. reflexivity.
  - intros. rewrite SparseStructureDecoder_init_eq. reflexivity.
  - intros embed_dim ce cd ne nme nd nmd inc outc fp ck s h g Hempty.
    unfold DenseShapeVAE.init. unfold cbind at 1.
    destruct ce as [|c ce'].
    + rewrite SparseStructureEncoder_init_eq. reflexivity.
    + destruct Hempty as [Hce | ->]; [discriminate|].
      destruct (@SparseStructureEncoder_init_ok U inc embed_dim ne (c :: ce') nme
                  default_norm_type fp ck g _ ltac:(discriminate)
                  (norm_layer_layer _)) as (il & bs & mid & oc & g1 & -> & _).
      unfold cbind. rewrite SparseStructureDecoder_init_eq. reflexivity.
  - intros embed_dim ce cd ne nme nd nmd inc outc fp ck s h g Hce Hcd.
    unfold DenseShapeVAE.init. unfold cbind at 1.
    destruct (@SparseStructureEncoder_init_ok U inc embed_dim ne ce nme
                default_norm_type fp ck g _ Hce (norm_layer_layer _))
      as (il & bs & mid & oc & g1 & -> & _).
    unfold cbind at 1.
    destruct (@SparseStructureDecoder_init_ok U outc embed_dim nd cd nmd
                default_norm_type fp ck g1 _ Hcd (norm_layer_layer _))
      as (il' & mid' & bs' & oc' & g2 & -> & _).
    unfold cret. eexists. eexists. split; [reflexivity|].
    cbn [DenseShapeVAE.embed_dim DenseShapeVAE.encoder DenseShapeVAE.decoder].
    split; [reflexivity|]. unfold encoder_assemble, decoder_assemble.
    destruct fp; split; reflexivity.
Qed.

Lemma empty_widths_raise_index_error_witness :
  @DenseShapeVAE.init Rational.conv_only 0 [32; 128; 512] [] 2 2 2 2 1 1 false false
    1 0 Rational.counting = Raise IndexError
  /\ exists v g',
       @DenseShapeVAE.init Rational.conv_only 0 [32; 128; 512] [512; 128; 32]
         2 2 2 2 1 1 false false 1 0 Rational.counting = Ok (v, g').
Proof.
  destruct (@empty_widths_raise_index_error Rational.conv_only) as (_ & _ & Hr & Hok).
  split.
  - apply Hr. right. reflexivity.
  - destruct (Hok 0 [32; 128; 512] [512; 128; 32] 2 2 2 2 1 1 false false 1%Q 0%Q
                Rational.counting) as (v & g' & E & _); [discriminate | discriminate |].
    exists v, g'. exact E.
Defined.

(** ** The two extraction paths *)

Lemma shape_leading_one_dec (s : list nat) :
  {s' | s = 1 :: s'} + {forall s', s <> 1 :: s'}.
Proof.
  destruct s as [|[|[|n]] s'].
  - right. intros s'. discriminate.
  - right. intros s''. discriminate.
  - left. exists s'. reflexivity.
  - right. intros s''. discriminate.
Qed.

(** X6: on the [return_index] path a higher [mc_threshold] can only remove
    voxels from the index tensor of an item; and when [mc_threshold] is at
    least the fixed 0.1 of [dense2mesh], every voxel listed for a
    one-channel item is occupied in the grid that [dense2mesh] hands to the
    marching cubes. *)
Theorem index_path_is_monotone `{Numerics} (t1 t2 : Q) (xi : tensor) :
  tensor_wf xi ->
  (t1 <= t2)%Q ->
  incl (DenseShapeVAE.occupancy_index t2 xi) (DenseShapeVAE.occupancy_index t1 xi)
  /\ (forall s idx,
         shape xi = 1 :: s -> (1 # 10 <= t2)%Q ->
         In (0 :: idx) (DenseShapeVAE.occupancy_index t2 xi) ->
         tget (DenseShapeVAE.mesh_occupancy xi) idx = 1%Q).
Proof.
  intros Hwf Hle. split.
  - intros idx Hin. destruct (shape_leading_one_dec (shape xi)) as [[s Hs]|Hs].
    + apply (occupancy_index_spec t2 xi s idx Hwf Hs) in Hin as [Hidx Ht].
      apply (occupancy_index_spec t1 xi s idx Hwf Hs). split; [exact Hidx|].
      eapply Qle_trans; eassumption.
    + apply (occupancy_index_spec_channels t2 xi idx Hwf Hs) in Hin
        as (idx' & -> & Hidx & Ht).
      apply (occupancy_index_spec_channels t1 xi (0 :: idx') Hwf Hs).
      exists idx'. split; [reflexivity|]. split; [exact Hidx|].
      eapply Qle_trans; eassumption.
  - intros s idx Hs Htenth Hin.
    apply (occupancy_index_spec t2 xi s (0 :: idx) Hwf Hs) in Hin as [Hidx Ht].
    rewrite Hs in Hidx. inversion Hidx as [|? ? ? ? _ Hidx']; subst.
    rewrite (proj2 (mesh_occupancy_spec xi s Hwf Hs) idx Hidx').
    assert (Hq : (1 # 10 <= sigmoid (tget xi (0%nat :: idx)))%Q)
      by (eapply Qle_trans; eassumption).
    apply Qle_bool_iff in Hq. rewrite Hq. reflexivity.
Qed.

Lemma index_path_is_monotone_witness :
  incl (@DenseShapeVAE.occupancy_index Rational.numerics (1 # 2) Rational.two_voxels)
       (@DenseShapeVAE.occupancy_index Rational.numerics (1 # 5) Rational.two_voxels)
  /\ tget (@DenseShapeVAE.mesh_occupancy Rational.numerics Rational.two_voxels) [0; 0; 0]
     = 1%Q.
Proof.
  assert (Hwf : tensor_wf Rational.two_voxels) by reflexivity.
  assert (Hle : (1 # 5 <= 1 # 2)%Q) by (apply Qle_bool_iff; reflexivity).
  destruct (@index_path_is_monotone Rational.numerics (1 # 5) (1 # 2)
              Rational.two_voxels Hwf Hle) as (Hincl & Hocc).
  split; [exact Hincl|].
  apply (Hocc [1; 1; 2] [0; 0; 0] eq_refl).
  - apply Qle_bool_iff. reflexivity.
  - vm_compute. left. reflexivity.
Defined.

Lemma Forall2_skipn {A B : Type} (R : A -> B -> Prop) (n : nat) (l : list A) (l' : list B) :
  Forall2 R l l' -> Forall2 R (skipn n l) (skipn n l').
Proof.
  intros F. revert n. induction F as [|a b l l' Hab F IH]; intros [|n]; cbn [skipn].
  - constructor.
  - constructor.
  - constructor; assumption.
  - apply IH.
Qed.

Lemma Forall2_firstn {A B : Type} (R : A -> B -> Prop) (n : nat) (l : list A) (l' : list B) :
  Forall2 R l l' -> Forall2 R (firstn n l) (firstn n l').
Proof.
  intros F. revert n. induction F as [|a b l l' Hab F IH]; intros [|n]; cbn [firstn].
  - constructor.
  - constructor.
  - constructor.
  - constructor; [assumption | apply IH].
Qed.

Lemma map_ext_Forall2 {A B : Type} (f : A -> B) (R : A -> A -> Prop) (l l' : list A) :
  (forall a b, R a b -> f a = f b) -> Forall2 R l l' -> map f l = map f l'.
Proof.
  intros Hf F. induction F as [|a b l l' Hab _ IH]; cbn [map]; [reflexivity|].
  rewrite (Hf a b Hab), IH. reflexivity.
Qed.

Lemma mesh_occupancy_same_side `{Numerics} (x x' : tensor) (i : nat) :
  shape x = shape x' ->
  Forall2 same_side_of_tenth (data x) (data x') ->
  DenseShapeVAE.mesh_occupancy (titem x i) = DenseShapeVAE.mesh_occupancy (titem x' i).
Proof.
  intros Hs F. unfold DenseShapeVAE.mesh_occupancy, ge_float, tmap, titem, squeeze0.
  cbn [shape data]. rewrite <- Hs. rewrite !map_map.
  rewrite (map_ext_Forall2
             (fun v => if Qle_bool (1 # 10) (sigmoid v) then 1%Q else 0%Q)
             same_side_of_tenth
             (firstn (numel (tl (shape x))) (skipn (i * numel (tl (shape x))) (data x)))
             (firstn (numel (tl (shape x))) (skipn (i * numel (tl (shape x))) (data x')))).
  - reflexivity.
  - intros a b Hab. unfold same_side_of_tenth in Hab. rewrite Hab. reflexivity.
  - apply Forall2_firstn, Forall2_skipn. exact F.
Qed.

(** X7: [dense2mesh] reads the decoder output only through the side of 0.1
    on which each sigmoid falls: two outputs of one shape whose entries lie
    on the same side give the same result, for every resolution, level and
    extractor. *)
Theorem dense2mesh_sees_only_binarized_grid `{Numerics} `{Skimage}
  (v v' : DenseShapeVAE.t) (x x' : tensor) (voxel_resolution : Z) (mc_threshold : Q) :
  shape x = shape x' ->
  Forall2 same_side_of_tenth (data x) (data x') ->
  DenseShapeVAE.dense2mesh v x voxel_resolution mc_threshold
  = DenseShapeVAE.dense2mesh v' x' voxel_resolution mc_threshold.
Proof.
  intros Hs F. unfold DenseShapeVAE.dense2mesh, tlen. rewrite <- Hs.
  apply mapM_ext_in. intros i _.
  rewrite (mesh_occupancy_same_side x x' i Hs F). reflexivity.
Qed.

Lemma dense2mesh_sees_only_binarized_grid_witness :
  @DenseShapeVAE.dense2mesh Rational.numerics Rational.skimage Rational.tiny_vae
    Rational.slab 4 (1 # 2)
  = @DenseShapeVAE.dense2mesh Rational.numerics Rational.skimage Rational.tiny_vae
      (mkTensor [1; 1; 4; 2; 2] (repeat 7%Q 12 ++ repeat (-20)%Q 4)) 4 (1 # 2).
Proof.
  apply (@dense2mesh_sees_only_binarized_grid Rational.numerics Rational.skimage).
  - reflexivity.
  - unfold same_side_of_tenth. cbn [Rational.slab data repeat app].
    repeat constructor.
Defined.

Lemma mapM_first_failure {A B : Type} (f : A -> result B) (pre post : list A)
  (a : A) (e : exn) :
  (forall b, In b pre -> exists y, f b = Ok y) ->
  f a = Raise e ->
  mapM f (pre ++ a :: post) = Raise e.
Proof.
  intros Hpre Ha. induction pre as [|b pre IH]; cbn [app mapM].
  - rewrite Ha. reflexivity.
  - destruct (Hpre b (or_introl eq_refl)) as (y & ->).
    rewrite IH by (intros c Hc; apply Hpre; right; exact Hc). reflexivity.
Qed.

Lemma seq_split_at (n i : nat) :
  i < n -> seq 0 n = seq 0 i ++ i :: seq (S i) (n - S i).
Proof.
  intros Hi. replace n with (i + S (n - S i)) at 1 by lia.
  rewrite seq_app. cbn [seq Nat.add]. reflexivity.
Qed.

(** X8: [dense2mesh] returns one mesh per batch item, in order, each built
    by [trimesh.Trimesh] from the rescaled vertices and the faces that the
    marching cubes returned for that item; an empty batch gives no mesh; and
    when the marching cubes raise on an item after succeeding on the items
    before it, the whole call raises that exception. *)
Theorem dense2mesh_per_item `{Numerics} `{Skimage}
  (v : DenseShapeVAE.t) (x : tensor) (voxel_resolution : Z) (mc_threshold : Q) :
  (forall meshes,
      DenseShapeVAE.dense2mesh v x voxel_resolution mc_threshold = Ok meshes ->
      length meshes = tlen x
      /\ Forall2 (fun i m =>
                    exists vs fs,
                      marching_cubes (DenseShapeVAE.mesh_occupancy (titem x i))
                        mc_threshold = Ok (vs, fs)
                      /\ m = mkTrimesh (map (map (rescale voxel_resolution)) vs) fs)
                 (seq 0 (tlen x)) meshes)
  /\ (tlen x = 0 ->
      DenseShapeVAE.dense2mesh v x voxel_resolution mc_threshold = Ok [])
  /\ (forall i e,
         i < tlen x ->
         (forall j, j < i ->
            exists r, marching_cubes (DenseShapeVAE.mesh_occupancy (titem x j))
                        mc_threshold = Ok r) ->
         marching_cubes (DenseShapeVAE.mesh_occupancy (titem x i)) mc_threshold
         = Raise e ->
         DenseShapeVAE.dense2mesh v x voxel_resolution mc_threshold = Raise e).
Proof.
  split; [|split].
  - intros meshes E. unfold DenseShapeVAE.dense2mesh in E. apply mapM_inv in E.
    split.
    + apply Forall2_length in E. rewrite length_seq in E. symmetry. exact E.
    + eapply Forall2_impl; [|exact E]. intros i m Ei. cbn beta in Ei.
      destruct (marching_cubes (DenseShapeVAE.mesh_occupancy (titem x i)) mc_threshold)
        as [[vs fs]|]; cbn [rbind] in Ei; [|discriminate].
      inversion Ei; subst. exists vs, fs. split; reflexivity.
  - intros E0. unfold DenseShapeVAE.dense2mesh. rewrite E0. reflexivity.
  - intros i e Hi Hbefore Hraise. unfold DenseShapeVAE.dense2mesh.
    rewrite (seq_split_at (tlen x) i Hi). apply mapM_first_failure.
    + intros j Hj. apply in_seq in Hj.
      destruct (Hbefore j ltac:(lia)) as ([vs fs] & ->). cbn [rbind]. eexists. reflexivity.
    + rewrite Hraise. reflexivity.
Qed.

Lemma dense2mesh_per_item_witness :
  (exists meshes,
      @DenseShapeVAE.dense2mesh Rational.numerics Rational.skimage Rational.tiny_vae
        Rational.slab 4 (1 # 2) = Ok meshes
      /\ length meshes = 1)
  /\ @DenseShapeVAE.dense2mesh Rational.numerics Rational.skimage Rational.tiny_vae
       (Rational.full [2; 1; 2; 2; 2] 1) 64 (1 # 2)
     = Raise ValueError_MarchingCubes.
Proof.
  split.
  - eexists. split; [vm_compute; reflexivity|].
    apply (proj1 (@dense2mesh_per_item Rational.numerics Rational.skimage
                    Rational.tiny_vae Rational.slab 4 (1 # 2))).
    vm_compute. reflexivity.
  - apply (proj2 (proj2 (@dense2mesh_per_item Rational.numerics Rational.skimage
                           Rational.tiny_vae (Rational.full [2; 1; 2; 2; 2] 1)
                           64 (1 # 2))) 0).
    + vm_compute. lia.
    + intros j Hj. lia.
    + vm_compute. reflexivity.
Defined.

(** ** The far faces of the cube *)





(** ** Tensors: offsets and multi-indices are inverse to each other *)








(** ** The resampling blocks *)

Lemma DownsampleBlock3d_init_inv (cin cout : nat) (mode : string) (g g' : rng)
  (d : DownsampleBlock3d.t) :
  DownsampleBlock3d.init cin cout mode g = Ok (d, g') ->
  DownsampleBlock3d.in_channels d = cin
  /\ DownsampleBlock3d.out_channels d = cout
  /\ ((mode = "conv"%string
       /\ exists c, DownsampleBlock3d.conv d = Some c /\ conv_geom c cin cout 2 2 0)
      \/ (mode = "avgpool"%string /\ cin = cout /\ DownsampleBlock3d.conv d = None)).
Proof.
  unfold DownsampleBlock3d.init.
  destruct (String.eqb_spec mode "conv") as [->|Hc].
  - change (DownsampleBlock3d.init cin cout "conv" g = Ok (d, g') ->
            DownsampleBlock3d.in_channels d = cin
            /\ DownsampleBlock3d.out_channels d = cout
            /\ (("conv"%string = "conv"%string
                 /\ exists c, DownsampleBlock3d.conv d = Some c /\ conv_geom c cin cout 2 2 0)
                \/ ("conv"%string = "avgpool"%string /\ cin = cout
                    /\ DownsampleBlock3d.conv d = None))).
    rewrite DownsampleBlock3d_init_conv. unfold cbind, cret.
    destruct (nn_Conv3d_ok cin cout 2 2 0 g) as (c & g1 & -> & G & _).
    intros E; inversion E; subst; clear E. cbn. repeat split. left. split; [reflexivity|].
    exists c. split; [reflexivity | exact G].
  - destruct (String.eqb_spec mode "avgpool") as [->|Ha]; cbn [orb negb].
    + destruct (Nat.eqb_spec cin cout) as [->|]; [|discriminate].
      unfold cret. intros E; inversion E; subst; clear E. cbn. repeat split.
      right. repeat split.
    + discriminate.
Qed.

Lemma UpsampleBlock3d_init_inv (cin cout : nat) (mode : string) (g g' : rng)
  (u : UpsampleBlock3d.t) :
  UpsampleBlock3d.init cin cout mode g = Ok (u, g') ->
  UpsampleBlock3d.in_channels u = cin
  /\ UpsampleBlock3d.out_channels u = cout
  /\ ((mode = "conv"%string
       /\ exists c, UpsampleBlock3d.conv u = Some c /\ conv_geom c cin (cout * 8) 3 1 1)
      \/ (mode = "nearest"%string /\ cin = cout /\ UpsampleBlock3d.conv u = None)).
Proof.
  unfold UpsampleBlock3d.init.
  destruct (String.eqb_spec mode "conv") as [->|Hc].
  - change (UpsampleBlock3d.init cin cout "conv" g = Ok (u, g') ->
            UpsampleBlock3d.in_channels u = cin
            /\ UpsampleBlock3d.out_channels u = cout
            /\ (("conv"%string = "conv"%string
                 /\ exists c, UpsampleBlock3d.conv u = Some c
                              /\ conv_geom c cin (cout * 8) 3 1 1)
                \/ ("conv"%string = "nearest"%string /\ cin = cout
                    /\ UpsampleBlock3d.conv u = None))).
    rewrite UpsampleBlock3d_init_conv. unfold cbind, cret.
    destruct (nn_Conv3d_ok cin (cout * 8) 3 1 1 g) as (c & g1 & -> & G & _).
    intros E; inversion E; subst; clear E. cbn. repeat split. left. split; [reflexivity|].
    exists c. split; [reflexivity | exact G].
  - destruct (String.eqb_spec mode "nearest") as [->|Ha]; cbn [orb negb].
    + destruct (Nat.eqb_spec cin cout) as [->|]; [|discriminate].
      unfold cret. intros E; inversion E; subst; clear E. cbn. repeat split.
      right. repeat split.
    + discriminate.
Qed.

Lemma avg_pool3d_run (x : tensor) (B C D H W : nat) :
  shape x = [B; C; D; H; W] -> 2 <= D -> 2 <= H -> 2 <= W ->
  avg_pool3d x 2
  = Ok (mkTensor [B; C; D / 2; H / 2; W / 2]
          (map (fun idx =>
                  match idx with
                  | [b; c; d; h; w] =>
                      qdiv
                        (Qsum (map (fun kidx =>
                                      match kidx with
                                      | [kd; kh; kw] =>
                                          tget x [b; c; d * 2 + kd; h * 2 + kh; w * 2 + kw]
                                      | _ => 0%Q
                                      end)
                                   (indices [2; 2; 2])))
                        (inject_Z (Z.of_nat (2 * 2 * 2)))
                  | _ => 0%Q
                  end)
               (indices [B; C; D / 2; H / 2; W / 2]))).
Proof.
  intros Hx HD HH HW. unfold avg_pool3d. rewrite Hx.
  destruct (Nat.ltb_spec D 2); [lia|].
  destruct (Nat.ltb_spec H 2); [lia|].
  destruct (Nat.ltb_spec W 2); [lia|].
  cbn [Nat.eqb orb]. rewrite !conv_out_size_half by assumption. reflexivity.
Qed.

(** X10: whatever its mode, a constructed [DownsampleBlock3d] maps an input
    [B, in_channels, D, H, W] with sizes at least 2 to
    [B, out_channels, D/2, H/2, W/2] (odd sizes are rounded down), and a
    constructed [UpsampleBlock3d] maps a non-empty input to
    [B, out_channels, 2D, 2H, 2W]. *)
Theorem resample_forward_shapes (cin cout : nat) (mode : string) (g : rng)
  (x : tensor) (B D H W : nat) :
  shape x = [B; cin; D; H; W] ->
  (forall d g',
      DownsampleBlock3d.init cin cout mode g = Ok (d, g') ->
      2 <= D -> 2 <= H -> 2 <= W ->
      exists y, DownsampleBlock3d.forward d x = Ok y
                /\ shape y = [B; cout; D / 2; H / 2; W / 2])
  /\ (forall u g',
         UpsampleBlock3d.init cin cout mode g = Ok (u, g') ->
         0 < D -> 0 < H -> 0 < W ->
         exists y, UpsampleBlock3d.forward u x = Ok y
                   /\ shape y = [B; cout; D * 2; H * 2; W * 2]).
Proof.
  intros Hx. split.
  - intros d g' E HD HH HW.
    apply DownsampleBlock3d_init_inv in E as (_ & _ & [(_ & c & Hc & G)|(_ & <- & Hc)]).
    + unfold DownsampleBlock3d.forward. rewrite Hc.
      rewrite (conv3d_run c x cin cout 2 2 0 B D H W G Hx) by lia.
      rewrite !conv_out_size_half by assumption. eexists. split; reflexivity.
    + unfold DownsampleBlock3d.forward. rewrite Hc.
      rewrite (avg_pool3d_run x B cin D H W Hx HD HH HW). eexists. split; reflexivity.
  - intros u g' E HD HH HW.
    apply UpsampleBlock3d_init_inv in E as (_ & _ & [(_ & c & Hc & G)|(_ & <- & Hc)]).
    + unfold UpsampleBlock3d.forward. rewrite Hc.
      rewrite (conv3d_same_size c x cin (cout * 8) B D H W G Hx HD HH HW).
      cbn [rbind]. apply pixel_shuffle_3d_shape. reflexivity.
    + unfold UpsampleBlock3d.forward. rewrite Hc.
      unfold interpolate_nearest. rewrite Hx. eexists. split; reflexivity.
Qed.

Lemma resample_forward_shapes_witness :
  exists d g' y,
    DownsampleBlock3d.init 2 2 "avgpool" Rational.counting = Ok (d, g')
    /\ DownsampleBlock3d.forward d (Rational.full [1; 2; 5; 4; 2] 1) = Ok y
    /\ shape y = [1; 2; 2; 2; 1].
Proof.
  destruct (DownsampleBlock3d.init 2 2 "avgpool" Rational.counting) as [[d g']|] eqn:E;
    [|vm_compute in E; discriminate E].
  destruct (proj1 (resample_forward_shapes 2 2 "avgpool" Rational.counting
                     (Rational.full [1; 2; 5; 4; 2] 1) 1 5 4 2 eq_refl) d g' E)
    as (y & Ey & Sy); [lia | lia | lia |].
  exists d, g', y. split; [reflexivity|]. split; [exact Ey | exact Sy].
Defined.







(** ** A residual block that changes the width *)




(** ** The encoder on sizes that are not divisible *)







Lemma conv3d_too_small (c : Conv3d) (x : tensor) (cin cout B D H W : nat) :
  conv_geom c cin cout 2 2 0 ->
  shape x = [B; cin; D; H; W] ->
  D < 2 \/ H < 2 \/ W < 2 ->
  raises (conv3d c x).
Proof.
  intros (Gi & Go & Gk & Gs & Gp) Hx Hsmall.
  unfold conv3d. rewrite Hx, Gi, Gk, Gs, Gp, Nat.eqb_refl. cbn [negb Nat.eqb].
  assert (Hb : ((D + 2 * 0 <? 2) || (H + 2 * 0 <? 2) || (W + 2 * 0 <? 2)) = true).
  { rewrite !orb_true_iff, !Nat.ltb_lt. lia. }
  rewrite Hb. eexists. reflexivity.
Qed.

Lemma conv3d_channel_mismatch (c : Conv3d) (x : tensor) (B C D H W : nat) :
  shape x = [B; C; D; H; W] -> C <> conv_in c -> raises (conv3d c x).
Proof.
  intros Hx Hc. unfold conv3d. rewrite Hx.
  destruct (Nat.eqb_spec C (conv_in c)); [contradiction|].
  eexists. reflexivity.
Qed.

Lemma encoder_stages_raise `{Nu : Numerics} (channels : list nat) (bs : list Block) :
  norm_keeps_shape ->
  stages_built down_between channels bs ->
  forall (x : tensor) (B D H W : nat),
    shape x = [B; hd 0 channels; D; H; W] ->
    0 < D -> 0 < H -> 0 < W ->
    D < 2 ^ (length channels - 1) \/ H < 2 ^ (length channels - 1)
    \/ W < 2 ^ (length channels - 1) ->
    raises (run_blocks Block_forward bs x).
Proof.
  intros Hnorm Hst.
  induction Hst as [|ch rs Hrs|ch next rest rs b more Hrs Hb Hmore IH];
    intros x B D H W Hx HD HH HW Hsmall.
  - cbn in Hsmall. lia.
  - cbn in Hsmall. lia.
  - cbn [hd] in Hx.
    replace (length (ch :: next :: rest) - 1) with (S (length (next :: rest) - 1))
      in * by (cbn [length]; lia).
    set (k := length (next :: rest) - 1) in *.
    destruct (proj2 (run_resblocks_shape rs x ch B D H W Hnorm Hrs Hx HD HH HW))
      as (x1 & E1 & S1).
    rewrite (run_blocks_app _ _ _ _ _ E1). cbn [run_blocks].
    destruct (le_lt_dec 2 D) as [D2|D2]; [destruct (le_lt_dec 2 H) as [H2|H2];
      [destruct (le_lt_dec 2 W) as [W2|W2]|]|].
    + destruct (down_between_forward b x1 ch next B D H W Hb S1 D2 H2 W2)
        as (x2 & -> & S2).
      apply (IH x2 B (D / 2) (H / 2) (W / 2) S2).
      * apply Nat.div_le_lower_bound; lia.
      * apply Nat.div_le_lower_bound; lia.
      * apply Nat.div_le_lower_bound; lia.
      * cbn [Nat.pow] in Hsmall.
        destruct Hsmall as [Hs|[Hs|Hs]]; [left | right; left | right; right];
          apply Nat.Div0.div_lt_upper_bound; lia.
    + destruct Hb as (d & c & -> & Hc & G). cbn [Block_forward].
      unfold DownsampleBlock3d.forward. rewrite Hc.
      destruct (conv3d_too_small c x1 ch next B D H W G S1 ltac:(lia)) as (e & ->).
      eexists. reflexivity.
    + destruct Hb as (d & c & -> & Hc & G). cbn [Block_forward].
      unfold DownsampleBlock3d.forward. rewrite Hc.
      destruct (conv3d_too_small c x1 ch next B D H W G S1 ltac:(lia)) as (e & ->).
      eexists. reflexivity.
    + destruct Hb as (d & c & -> & Hc & G). cbn [Block_forward].
      unfold DownsampleBlock3d.forward. rewrite Hc.
      destruct (conv3d_too_small c x1 ch next B D H W G S1 ltac:(lia)) as (e & ->).
      eexists. reflexivity.
Qed.

(** X14: the forward pass of a constructed encoder raises when the input has
    another channel count than [in_channels], and when a spatial size of a
    non-empty input is smaller than [2^(S-1)]: a downsampling stage then
    meets an axis shorter than its window. *)
Theorem encoder_forward_rejects `{U : Utils} `{Nu : Numerics}
  (inc lat N : nat) (channels : list nat) (M : nat) (nt : string) (fp ck : bool)
  (g g' : rng) (e : SparseStructureEncoder.t) (x : tensor) (B C D H W : nat) :
  norm_keeps_shape ->
  SparseStructureEncoder.init inc lat N channels M nt fp ck g = Ok (e, g') ->
  shape x = [B; C; D; H; W] ->
  (C <> inc -> raises (SparseStructureEncoder.forward e x))
  /\ (C = inc -> 0 < D -> 0 < H -> 0 < W ->
      D < 2 ^ (length channels - 1) \/ H < 2 ^ (length channels - 1)
      \/ W < 2 ^ (length channels - 1) ->
      raises (SparseStructureEncoder.forward e x)).
Proof.
  intros Hnorm E Hx.
  apply SparseStructureEncoder_init_inv in E
    as (il & bs & mid & n & oc & -> & Hne & En & Gil & _ & Sbs & _ & Pmid & _ & Goc & _).
  apply norm_layer_inv in En as (Hn & _).
  destruct (encoder_assemble_built inc lat N channels M nt fp ck il bs mid n oc
              Gil Sbs Pmid Hn Goc) as [Gin Sbs' Pmid' Hn' Gout].
  set (e := encoder_assemble inc lat N channels M nt fp ck il bs mid (mkOutLayer n oc))
    in *.
  split.
  - intros HC. unfold SparseStructureEncoder.forward.
    destruct (conv3d_channel_mismatch (SparseStructureEncoder.input_layer e) x
                B C D H W Hx) as (err & ->).
    + destruct Gin as (-> & _). exact HC.
    + eexists. reflexivity.
  - intros -> HD HH HW Hsmall. unfold SparseStructureEncoder.forward.
    rewrite (conv3d_same_size _ x inc (hd 0 channels) B D H W Gin Hx HD HH HW).
    cbn [rbind].
    match goal with
    | |- context [run_blocks Block_forward _ ?h] =>
        destruct (encoder_stages_raise channels _ Hnorm Sbs' h B D H W
                    eq_refl HD HH HW Hsmall) as (err & ->)
    end.
    eexists. reflexivity.
Qed.

Lemma encoder_forward_rejects_witness :
  exists e g',
    @SparseStructureEncoder.init Rational.conv_only 1 1 1 [1; 2; 2] 1 "layer"
      false false Rational.counting = Ok (e, g')
    /\ raises (@SparseStructureEncoder.forward Rational.numerics e
                 (Rational.full [1; 1; 4; 4; 3] 1))
    /\ raises (@SparseStructureEncoder.forward Rational.numerics e
                 (Rational.full [1; 2; 4; 4; 4] 1)).
Proof.
  destruct (@SparseStructureEncoder.init Rational.conv_only 1 1 1 [1; 2; 2] 1
              "layer" false false Rational.counting) as [[e g']|] eqn:E;
    [|vm_compute in E; discriminate E].
  exists e, g'. split; [reflexivity|]. split.
  - apply (proj2 (@encoder_forward_rejects Rational.conv_only Rational.numerics
                    1 1 1 [1; 2; 2] 1 "layer" false false Rational.counting g' e
                    (Rational.full [1; 1; 4; 4; 3] 1) 1 1 4 4 3
                    rational_norm_keeps_shape E eq_refl));
      [reflexivity | lia | lia | lia | cbn; lia].
  - apply (proj1 (@encoder_forward_rejects Rational.conv_only Rational.numerics
                    1 1 1 [1; 2; 2] 1 "layer" false false Rational.counting g' e
                    (Rational.full [1; 2; 4; 4; 4] 1) 1 2 4 4 4
                    rational_norm_keeps_shape E eq_refl)).
    lia.
Defined.

(** ** The wrapper: encode, forward, decode_mesh *)

Lemma DenseShapeVAE_init_inv `{U : Utils}
  (embed_dim : nat) (ce cd : list nat) (ne nme nd nmd inc outc : nat) (fp ck : bool)
  (s h : Q) (g g' : rng) (v : DenseShapeVAE.t) :
  DenseShapeVAE.init embed_dim ce cd ne nme nd nmd inc outc fp ck s h g = Ok (v, g') ->
  exists g1,
    SparseStructureEncoder.init inc embed_dim ne ce nme default_norm_type fp ck g
    = Ok (DenseShapeVAE.encoder v, g1)
    /\ SparseStructureDecoder.init outc embed_dim nd cd nmd default_norm_type fp ck g1
       = Ok (DenseShapeVAE.decoder v, g').
Proof.
  unfold DenseShapeVAE.init, cbind, cret.
  destruct (SparseStructureEncoder.init inc embed_dim ne ce nme default_norm_type
              fp ck g) as [[enc g1]|]; [|discriminate].
  destruct (SparseStructureDecoder.init outc embed_dim nd cd nmd default_norm_type
              fp ck g1) as [[dec g2]|] eqn:Ed; [|discriminate].
  intros E; inversion E; subst; clear E. exists g1. cbn. split; [reflexivity | exact Ed].
Qed.





(** ** [decode_mesh]: index lists and rejected latents *)






(** X17: latents whose channel count is not [embed_dim] are rejected by the
    input projection of a constructed decoder, and [decode_mesh] passes the
    exception on along both of its paths. *)
Theorem decode_mesh_rejects_latent_channels `{U : Utils} `{Nu : Numerics} `{Sk : Skimage}
  (embed_dim : nat) (ce cd : list nat) (ne nme nd nmd inc outc : nat) (fp ck : bool)
  (s h : Q) (g g' : rng) (v : DenseShapeVAE.t)
  (latents : tensor) (B C D H W : nat) :
  DenseShapeVAE.init embed_dim ce cd ne nme nd nmd inc outc fp ck s h g = Ok (v, g') ->
  shape latents = [B; C; D; H; W] ->
  C <> embed_dim ->
  raises (SparseStructureDecoder.forward (DenseShapeVAE.decoder v) latents)
  /\ forall (R : Z) (t : Q) (return_index : bool),
       raises (DenseShapeVAE.decode_mesh v latents R t return_index).
Proof.
  intros Einit Hz HC.
  apply DenseShapeVAE_init_inv in Einit as (g1 & _ & Edec).
  apply SparseStructureDecoder_init_inv in Edec
    as (il & mid & bs & n & oc & Ed & Hne & En & Gil & _ & Pmid & _ & Sbs & _ & Goc & _).
  apply norm_layer_inv in En as (Hn & _).
  pose proof (decoder_assemble_built outc embed_dim nd cd nmd default_norm_type fp ck
                il mid bs n oc Gil Pmid Sbs Hn Goc) as Hb.
  rewrite <- Ed in Hb. destruct (db_input _ _ _ _ Hb) as (Gi & _).
  assert (Hr : raises (conv3d (SparseStructureDecoder.input_layer
                                 (DenseShapeVAE.decoder v)) latents)).
  { apply (conv3d_channel_mismatch _ latents B C D H W Hz). rewrite Gi. exact HC. }
  destruct Hr as (e & He).
  split.
  - exists e. unfold SparseStructureDecoder.forward. rewrite He. reflexivity.
  - intros R t ri. exists e. unfold DenseShapeVAE.decode_mesh,
      SparseStructureDecoder.forward. rewrite He. reflexivity.
Qed.

Lemma decode_mesh_rejects_latent_channels_witness :
  exists v g',
    @DenseShapeVAE.init Rational.conv_only 1 [1; 2] [2; 1] 0 0 0 0 1 1 false false
      1 0 Rational.counting = Ok (v, g')
    /\ raises (@DenseShapeVAE.decode_mesh Rational.numerics Rational.skimage v
                 (Rational.full [1; 2; 1; 1; 1] 1) 64 (1 # 2) false).
Proof.
  destruct (@DenseShapeVAE.init Rational.conv_only 1 [1; 2] [2; 1] 0 0 0 0 1 1
              false false 1 0 Rational.counting) as [[v g']|] eqn:E;
    [|vm_compute in E; discriminate E].
  exists v, g'. split; [reflexivity|].
  apply (proj2 (@decode_mesh_rejects_latent_channels Rational.conv_only
                  Rational.numerics Rational.skimage 1 [1; 2] [2; 1] 0 0 0 0 1 1
                  false false 1 0 Rational.counting g' v
                  (Rational.full [1; 2; 1; 1; 1] 1) 1 2 1 1 1 E eq_refl
                  ltac:(discriminate))).
Defined.

(** ** The batch *)

Lemma py_getitem_missing (batch : list (string * tensor)) (key : string) :
  Forall (fun kv => fst kv <> key) batch ->
  py_getitem batch key = Raise (KeyError key).
Proof.
  induction 1 as [|[k x] rest Hk _ IH]; [reflexivity|].
  cbn [py_getitem]. cbn [fst] in Hk.
  destruct (String.eqb_spec k key); [contradiction | exact IH].
Qed.

Lemma py_getitem_first (pre post : list (string * tensor)) (key : string) (x : tensor) :
  Forall (fun kv => fst kv <> key) pre ->
  py_getitem (pre ++ (key, x) :: post) key = Ok x.
Proof.
  induction 1 as [|[k y] rest Hk _ IH]; cbn [app py_getitem].
  - rewrite String.eqb_refl. reflexivity.
  - cbn [fst] in Hk. destruct (String.eqb_spec k key); [contradiction | exact IH].
Qed.

(** X18: [encode] and [forward] read the batch only at the key
    [dense_index]: without that key both raise [KeyError('dense_index')]
    before any layer runs, and every other entry of the batch, before or
    after it, leaves their results unchanged. *)
Theorem batch_is_read_at_dense_index `{Nu : Numerics} `{Di : Distributions}
  (v : DenseShapeVAE.t) (pre post : list (string * tensor)) (x : tensor)
  (sp : bool) (g : rng) :
  Forall (fun kv => fst kv <> "dense_index"%string) pre ->
  (DenseShapeVAE.encode v pre sp g = Raise (KeyError "dense_index")
   /\ DenseShapeVAE.forward v pre g = Raise (KeyError "dense_index"))
  /\ DenseShapeVAE.encode v (pre ++ ("dense_index"%string, x) :: post) sp g
     = DenseShapeVAE.encode v [("dense_index"%string, x)] sp g
  /\ DenseShapeVAE.forward v (pre ++ ("dense_index"%string, x) :: post) g
     = DenseShapeVAE.forward v [("dense_index"%string, x)] g.
Proof.
  intros Hpre.
  pose proof (py_getitem_missing pre "dense_index" Hpre) as Em.
  pose proof (py_getitem_first pre post "dense_index" x Hpre) as Ef.
  assert (Ee : forall b, DenseShapeVAE.encode v (pre ++ ("dense_index"%string, x) :: post)
                           b g
                         = DenseShapeVAE.encode v [("dense_index"%string, x)] b g).
  { intros b. unfold DenseShapeVAE.encode. rewrite Ef. reflexivity. }
  split; [split|split].
  - unfold DenseShapeVAE.encode. rewrite Em. reflexivity.
  - unfold DenseShapeVAE.forward, DenseShapeVAE.encode. rewrite Em. reflexivity.
  - apply Ee.
  - unfold DenseShapeVAE.forward. rewrite Ee. reflexivity.
Qed.

Lemma batch_is_read_at_dense_index_witness :
  @DenseShapeVAE.forward Rational.numerics Rational.distributions Rational.tiny_vae
    [("sparse_index"%string, Rational.full [1] 1)] Rational.ones
  = Raise (KeyError "dense_index").
Proof.
  apply (@batch_is_read_at_dense_index Rational.numerics Rational.distributions
           Rational.tiny_vae [("sparse_index"%string, Rational.full [1] 1)] []
           (Rational.full [1] 1) true Rational.ones).
  repeat constructor. cbn. discriminate.
Defined.
